(** * Excel function layer of [formulas] (formulas/formulas/functions.py)

    A shallow embedding of the Python module: the cell values that flow
    through it, the fragment of the Python and numpy run time the module
    relies on, the functions of the module under their own names, and the
    properties of the registered spreadsheet functions. *)

From Stdlib Require Import ZArith List String Ascii Bool Lia DecimalString.
From Stdlib Require Import Floats.SpecFloat.
Import ListNotations.
Local Open Scope Z_scope.
Set Warnings "-register-all".

(** ** Exceptions and fallible computations *)

(** Modelled from the spec: the error values (class [XlError] and the
    table [Error.errors] of formulas/tokens/operand.py, which is not part
    of the sources).  A closed set of tags, one singleton per tag, each
    with its display string; equality is equality of tags. *)
Inductive XlError : Type :=
| DIV0 | VALUE | NUM | NA | NAME | NULL | REF.

(** The Python exceptions the module can meet.  [FoundError] is the
    package's own signal (formulas/errors.py), raised with the error value
    found; [AssertionError] is what the size check of [xsumproduct]
    raises. *)
Inductive exn : Type :=
| ValueError
| TypeError
| OverflowError
| ZeroDivisionError
| AssertionError
| AttributeError
| IndexError
| FoundError (err : XlError).

Inductive result (A : Type) : Type :=
| Ok (a : A)
| Raise (e : exn).
Arguments Ok {A} a.
Arguments Raise {A} e.

Definition bind {A B : Type} (r : result A) (k : A -> result B) : result B :=
  match r with
  | Ok a => k a
  | Raise e => Raise e
  end.

Notation "x <- c ;; k" := (bind c (fun x => k))
  (at level 61, c at next level, right associativity).
Notation "c ;;; k" := (bind c (fun _ => k))
  (at level 61, right associativity).

Definition XlError_eqb (a b : XlError) : bool :=
  match a, b with
  | DIV0, DIV0 | VALUE, VALUE | NUM, NUM | NA, NA
  | NAME, NAME | NULL, NULL | REF, REF => true
  | _, _ => false
  end.

(** Canonical display string of an error value. *)
Definition XlError_name (e : XlError) : string :=
  match e with
  | DIV0 => "#DIV/0!"
  | VALUE => "#VALUE!"
  | NUM => "#NUM!"
  | NA => "#N/A"
  | NAME => "#NAME?"
  | NULL => "#NULL!"
  | REF => "#REF!"
  end.

(** ** Binary64 floating point (Python [float], [numpy.float64]) *)

Module F64.

Definition prec : Z := 53.
Definition emax : Z := 1024.

Definition t : Type := spec_float.

Definition zero : t := S754_zero false.
Definition nan : t := S754_nan.
Definition inf (neg : bool) : t := S754_infinity neg.

Definition of_Z (z : Z) : t := binary_normalize prec emax z 0 false.

Definition add : t -> t -> t := SFadd prec emax.
Definition mul : t -> t -> t := SFmul prec emax.
Definition div : t -> t -> t := SFdiv prec emax.
Definition abs : t -> t := SFabs.
Definition eqb : t -> t -> bool := SFeqb.
Definition ltb : t -> t -> bool := SFltb.
Definition leb : t -> t -> bool := SFleb.

Definition isnan (x : t) : bool :=
  match x with S754_nan => true | _ => false end.

Definition isinf (x : t) : bool :=
  match x with S754_infinity _ => true | _ => false end.

Definition isfinite (x : t) : bool := negb (isnan x || isinf x).

(** The double nearest to [n / d], ties to even: the quotient is computed
    with at least 66 significant bits, the bit below them records whether
    the division left a remainder, and the result is rounded once. *)
Definition of_ratio (neg : bool) (n d : positive) : t :=
  let k := Z.max 0 (Z.log2 (Zpos d) - Z.log2 (Zpos n) + 66) in
  let num := Zpos n * 2 ^ k in
  let q := num / Zpos d in
  let sticky := if (num mod Zpos d) =? 0 then 0 else 1 in
  let m := 2 * q + sticky in
  binary_normalize prec emax (if neg then - m else m) (- (k + 1)) false.

(** The double nearest to [m * 10 ^ e]. *)
Definition of_decimal (neg : bool) (m : Z) (e : Z) : t :=
  match m with
  | Zpos p =>
      if 0 <=? e
      then of_ratio neg (p * Z.to_pos (10 ^ e)) 1
      else of_ratio neg p (Z.to_pos (10 ^ (- e)))
  | _ => S754_zero neg
  end.

End F64.

Definition float64 : Type := F64.t.

(** ** Cell values and containers

    The values the functions receive.  Scalars are Python [int], [float],
    [bool], [str] and [None]; [VErr] is one of the [XlError] singletons of
    the table [Error.errors]; [VEmpty] is the marker of a missing cell;
    [VErrTok] stands for an instance of the operand class [Error], the
    class [is_number] tests for.  [VTuple] is a Python tuple (the [*args]
    of a call); [VArray] is a numpy object array of one dimension or more,
    given by its items along the first axis (an array of shape (2, 3) is
    two arrays of three leaves); [VArray0] is a zero-dimensional array. *)
Inductive value : Type :=
| VInt (z : Z)
| VFloat (f : float64)
| VBool (b : bool)
| VStr (s : string)
| VErr (e : XlError)
| VEmpty
| VNone
| VErrTok
| VTuple (items : list value)
| VArray (items : list value)
| VArray0 (item : value).

(** ** Induction over nested values *)

Section ValueInd.

Variable P : value -> Prop.
Hypothesis HInt : forall z, P (VInt z).
Hypothesis HFloat : forall f, P (VFloat f).
Hypothesis HBool : forall b, P (VBool b).
Hypothesis HStr : forall s, P (VStr s).
Hypothesis HErr : forall e, P (VErr e).
Hypothesis HEmpty : P VEmpty.
Hypothesis HNone : P VNone.
Hypothesis HErrTok : P VErrTok.
Hypothesis HTuple : forall items, Forall P items -> P (VTuple items).
Hypothesis HArray : forall items, Forall P items -> P (VArray items).
Hypothesis HArray0 : forall item, P item -> P (VArray0 item).

Fixpoint value_nested_ind (v : value) : P v :=
  let all :=
    fix all (l : list value) : Forall P l :=
      match l with
      | [] => Forall_nil P
      | x :: l' => Forall_cons x (value_nested_ind x) (all l')
      end in
  match v with
  | VInt z => HInt z
  | VFloat f => HFloat f
  | VBool b => HBool b
  | VStr s => HStr s
  | VErr e => HErr e
  | VEmpty => HEmpty
  | VNone => HNone
  | VErrTok => HErrTok
  | VTuple items => HTuple items (all items)
  | VArray items => HArray items (all items)
  | VArray0 item => HArray0 item (value_nested_ind item)
  end.

End ValueInd.

(** ** The Python run time the module uses *)

Module Py.

Definition ascii_in (lo hi : N) (c : ascii) : bool :=
  let n := N_of_ascii c in (N.leb lo n && N.leb n hi)%bool.

Definition is_digit (c : ascii) : bool := ascii_in 48 57 c.

Definition digit_val (c : ascii) : Z := Z.of_N (N_of_ascii c) - 48.

(** A character of a string is a code point below 256.  The white space
    of [str.strip] is what [str.isspace] accepts: the controls 9 to 13,
    the separators 28 to 31, the space, and next-line (133) and the
    no-break space (160). *)
Definition is_space (c : ascii) : bool :=
  (ascii_in 9 13 c || ascii_in 28 32 c
   || ascii_in 133 133 c || ascii_in 160 160 c)%bool.

(** The white space [float] and [int] strip from a string before they
    parse it: the C set (9 to 13 and the space), to which comes the white
    space beyond ASCII, 133 and 160, that is replaced by a space first.
    The separators 28 to 31 are not in it: [float] and [int] reject a
    numeral padded with them. *)
Definition is_numeral_space (c : ascii) : bool :=
  (ascii_in 9 13 c || ascii_in 32 32 c
   || ascii_in 133 133 c || ascii_in 160 160 c)%bool.

Definition lower (c : ascii) : ascii :=
  if ascii_in 65 90 c then ascii_of_N (N_of_ascii c + 32) else c.

Fixpoint lstrip_by (space : ascii -> bool) (s : list ascii) : list ascii :=
  match s with
  | c :: s' => if space c then lstrip_by space s' else s
  | [] => []
  end.

Definition strip_by (space : ascii -> bool) (s : list ascii) : list ascii :=
  rev (lstrip_by space (rev (lstrip_by space s))).

Definition lstrip : list ascii -> list ascii := lstrip_by is_space.

Definition strip : list ascii -> list ascii := strip_by is_space.

(** Digits after a first digit: [digit (["_"] digit)*] continued.  Returns
    the accumulated number, the count of digits read and the rest. *)
Fixpoint digits_loop (acc n : Z) (s : list ascii) {struct s}
  : Z * Z * list ascii :=
  match s with
  | c :: s' =>
      if is_digit c then digits_loop (10 * acc + digit_val c) (n + 1) s'
      else if Ascii.eqb c "_" then
        match s' with
        | d :: s'' =>
            if is_digit d
            then digits_loop (10 * acc + digit_val d) (n + 1) s''
            else (acc, n, s)
        | [] => (acc, n, s)
        end
      else (acc, n, s)
  | [] => (acc, n, s)
  end.

(** A [digitpart], continuing the number [acc]. *)
Definition digitpart (acc : Z) (s : list ascii)
  : option (Z * Z * list ascii) :=
  match s with
  | c :: s' =>
      if is_digit c
      then Some (digits_loop (10 * acc + digit_val c) 1 s')
      else None
  | [] => None
  end.

Definition read_sign (s : list ascii) : bool * list ascii :=
  match s with
  | c :: s' =>
      if Ascii.eqb c "-" then (true, s')
      else if Ascii.eqb c "+" then (false, s')
      else (false, s)
  | [] => (false, s)
  end.

(** Optional exponent: [("e" | "E") [sign] digitpart]. *)
Definition read_exponent (s : list ascii) : option (Z * list ascii) :=
  match s with
  | c :: s' =>
      if Ascii.eqb (lower c) "e" then
        let '(neg, s1) := read_sign s' in
        match digitpart 0 s1 with
        | Some (e, _, rest) => Some (if neg then - e else e, rest)
        | None => None
        end
      else Some (0, s)
  | [] => Some (0, s)
  end.

(** [number ::= [digitpart] "." digitpart | digitpart ["."]]: the decimal
    mantissa, the count of digits after the point, and the rest. *)
Definition read_number (s : list ascii) : option (Z * Z * list ascii) :=
  match digitpart 0 s with
  | Some (m, _, rest) =>
      match rest with
      | c :: rest' =>
          if Ascii.eqb c "." then
            match digitpart m rest' with
            | Some (m', k, rest'') => Some (m', k, rest'')
            | None => Some (m, 0, rest')
            end
          else Some (m, 0, rest)
      | [] => Some (m, 0, rest)
      end
  | None =>
      match s with
      | c :: rest' =>
          if Ascii.eqb c "." then digitpart 0 rest' else None
      | [] => None
      end
  end.

Definition word (s : list ascii) : string :=
  string_of_list_ascii (map lower s).

(** [float(s)] for a string: [Some x] for the double it denotes, [None]
    when Python raises [ValueError]. *)
Definition str_to_float (s : string) : option float64 :=
  let '(neg, body) :=
    read_sign (strip_by is_numeral_space (list_ascii_of_string s)) in
  if (String.eqb (word body) "inf" || String.eqb (word body) "infinity")%bool
  then Some (F64.inf neg)
  else if String.eqb (word body) "nan" then Some F64.nan
  else
    match read_number body with
    | Some (m, k, rest) =>
        match read_exponent rest with
        | Some (e, []) => Some (F64.of_decimal neg m (e - k))
        | _ => None
        end
    | None => None
    end.

(** [int(s)] for a string: optional sign and a [digitpart]. *)
Definition str_to_int (s : string) : option Z :=
  let '(neg, body) :=
    read_sign (strip_by is_numeral_space (list_ascii_of_string s)) in
  match digitpart 0 body with
  | Some (m, _, []) => Some (if neg then - m else m)
  | _ => None
  end.

(** [float(n)] for an [int]: the nearest double, [OverflowError] when it
    is out of range. *)
Definition int_to_float (z : Z) : result float64 :=
  let f := F64.of_Z z in
  if F64.isinf f then Raise OverflowError else Ok f.

(** The characters of a value whose class derives from [str]: text, and
    the two kinds of token, error values and the missing-cell marker,
    which are strings of their own class (this is why [flatten] has to
    keep strings from being walked). *)
Definition text_of (v : value) : option string :=
  match v with
  | VStr s => Some s
  | VErr e => Some (XlError_name e)
  | VEmpty => Some "empty"%string
  | _ => None
  end.

(** [float(v)].  An array converts only when it holds a single item. *)
Fixpoint float (v : value) : result float64 :=
  match v with
  | VInt z => int_to_float z
  | VFloat f => Ok f
  | VBool b => Ok (F64.of_Z (if b then 1 else 0))
  | VStr _ | VErr _ | VEmpty =>
      match text_of v with
      | Some s =>
          match str_to_float s with
          | Some f => Ok f
          | None => Raise ValueError
          end
      | None => Raise TypeError
      end
  | VNone | VErrTok | VTuple _ => Raise TypeError
  | VArray [x] => float x
  | VArray _ => Raise TypeError
  | VArray0 x => float x
  end.

(** Truncation of a double toward zero, as [int(x)] does. *)
Definition float_to_int (f : float64) : result Z :=
  match f with
  | S754_zero _ => Ok 0
  | S754_nan => Raise ValueError
  | S754_infinity _ => Raise OverflowError
  | S754_finite s m e =>
      let a := if 0 <=? e then Zpos m * 2 ^ e else Zpos m / 2 ^ (- e) in
      Ok (if s then - a else a)
  end.

(** [int(v)] on scalars. *)
Definition int (v : value) : result Z :=
  match v with
  | VInt z => Ok z
  | VBool b => Ok (if b then 1 else 0)
  | VFloat f => float_to_int f
  | VStr _ | VErr _ | VEmpty =>
      match text_of v with
      | Some s =>
          match str_to_int s with
          | Some z => Ok z
          | None => Raise ValueError
          end
      | None => Raise TypeError
      end
  | _ => Raise TypeError
  end.

(** An [int] or a [bool] seen as an integer. *)
Definition as_int (v : value) : option Z :=
  match v with
  | VInt z => Some z
  | VBool b => Some (if b then 1 else 0)
  | _ => None
  end.

(** [a + b].  Numbers add (an [int] meeting a [float] is converted
    first), strings and tuples concatenate, anything else is a
    [TypeError].  Arrays, which numpy adds elementwise, are not covered:
    the module only adds the leaves that [flatten] yields. *)
Definition add (a b : value) : result value :=
  match a, b with
  | VFloat x, VFloat y => Ok (VFloat (F64.add x y))
  | VFloat x, _ =>
      match as_int b with
      | Some n => y <- int_to_float n ;; Ok (VFloat (F64.add x y))
      | None => Raise TypeError
      end
  | _, VFloat y =>
      match as_int a with
      | Some n => x <- int_to_float n ;; Ok (VFloat (F64.add x y))
      | None => Raise TypeError
      end
  | VTuple x, VTuple y => Ok (VTuple (x ++ y))
  | _, _ =>
      match as_int a, as_int b with
      | Some x, Some y => Ok (VInt (x + y))
      | _, _ =>
          match text_of a, text_of b with
          | Some x, Some y => Ok (VStr (x ++ y))
          | _, _ => Raise TypeError
          end
      end
  end.

(** [sum(l)]: the items added from the left onto the integer 0 (the
    interpreters that still provide [collections.Iterable] add doubles
    without compensation). *)
Fixpoint sum_from (acc : value) (l : list value) : result value :=
  match l with
  | [] => Ok acc
  | x :: l' => acc' <- add acc x ;; sum_from acc' l'
  end.

Definition sum (l : list value) : result value := sum_from (VInt 0) l.

(** [a / b] on numbers: the quotient of two integers is rounded once;
    a zero divisor raises [ZeroDivisionError]. *)
Definition int_truediv (x y : Z) : result value :=
  if y =? 0 then Raise ZeroDivisionError
  else
    let neg := xorb (x <? 0) (y <? 0) in
    match Z.abs x with
    | Zpos n =>
        let f := F64.of_ratio neg n (Z.to_pos (Z.abs y)) in
        if F64.isinf f then Raise OverflowError else Ok (VFloat f)
    | _ => Ok (VFloat (S754_zero neg))
    end.

Definition float_truediv (x y : float64) : result value :=
  if F64.eqb y F64.zero then Raise ZeroDivisionError
  else Ok (VFloat (F64.div x y)).

Definition truediv (a b : value) : result value :=
  match a, b with
  | VFloat x, VFloat y => float_truediv x y
  | VFloat x, _ =>
      match as_int b with
      | Some n => y <- int_to_float n ;; float_truediv x y
      | None => Raise TypeError
      end
  | _, VFloat y =>
      match as_int a with
      | Some n => x <- int_to_float n ;; float_truediv x y
      | None => Raise TypeError
      end
  | _, _ =>
      match as_int a, as_int b with
      | Some x, Some y => int_truediv x y
      | _, _ => Raise TypeError
      end
  end.

(** [s[k:]]: a negative [k] counts from the end; out-of-range bounds are
    clamped. *)
Definition slice_from (s : string) (k : Z) : string :=
  let n := Z.of_nat (String.length s) in
  let start := if k <? 0 then Z.max 0 (k + n) else Z.min k n in
  substring (Z.to_nat start) (Z.to_nat (n - start)) s.

End Py.

(** ** The numpy operations the module uses *)

Module Np.

(** [mapM]: the calls are made from the left; the first exception ends
    the loop. *)
Fixpoint mapM {A B : Type} (f : A -> result B) (l : list A)
  : result (list B) :=
  match l with
  | [] => Ok []
  | x :: l' => y <- f x ;; ys <- mapM f l' ;; Ok (y :: ys)
  end.

(** Number of dimensions of an argument once numpy has turned it into an
    array: a tuple counts as an array, a scalar has none. *)
Fixpoint ndim (v : value) : nat :=
  match v with
  | VArray (x :: _) | VTuple (x :: _) => S (ndim x)
  | VArray [] | VTuple [] => 1%nat
  | _ => 0%nat
  end.

Definition items_of (v : value) : list value :=
  match v with
  | VArray l | VTuple l => l
  | _ => []
  end.

Definition leaf_of (v : value) : value :=
  match v with
  | VArray0 x => x
  | _ => v
  end.

(** The leaves of an array in row-major order ([a.ravel()]), and their
    number ([a.size]). *)
Fixpoint ravel (a : value) : list value :=
  match a with
  | VArray items =>
      (fix go (l : list value) : list value :=
         match l with
         | [] => []
         | x :: l' => ravel x ++ go l'
         end) items
  | VArray0 x => [x]
  | _ => [a]
  end.

Definition size (a : value) : nat := List.length (ravel a).

(** Broadcast length of one axis: lengths must agree, a length of 1
    stretches.  [None] stands for numpy's [ValueError]. *)
Fixpoint common_length (n : nat) (lens : list nat) : option nat :=
  match lens with
  | [] => Some n
  | k :: lens' =>
      if (k =? 1)%nat then common_length n lens'
      else if (n =? 1)%nat then common_length k lens'
      else if (k =? n)%nat then common_length n lens'
      else None
  end.

(** Item [i] of an argument along the axis being walked: arguments of
    fewer dimensions and axes of length 1 are repeated. *)
Definition pick (d : nat) (i : nat) (a : value) : value :=
  if (ndim a =? d)%nat then
    match items_of a with
    | [x] => x
    | l => nth i l VNone
    end
  else a.

(** The loop of [np.vectorize(f, otypes=[object])] over arguments of at
    most [d] dimensions: [f] is called once per output position, in
    row-major order, with the corresponding leaf of every argument. *)
Fixpoint broadcast (f : list value -> result value) (d : nat)
  (args : list value) : result value :=
  match d with
  | O => f (map leaf_of args)
  | S d' =>
      let full := filter (fun a => (ndim a =? d)%nat) args in
      match common_length 1 (map (fun a => List.length (items_of a)) full) with
      | Some n =>
          rows <- mapM (fun i => broadcast f d' (map (pick d i) args))
                       (seq 0 n) ;;
          Ok (VArray rows)
      | None => Raise ValueError
      end
  end.

Definition max_ndim (args : list value) : nat :=
  fold_right (fun a m => Nat.max (ndim a) m) 0%nat args.

(** The most operands a numpy ufunc can have, inputs and outputs
    together ([NPY_MAXARGS] of numpy 1). *)
Definition NPY_MAXARGS : nat := 32.

(** [np.vectorize(f, otypes=[object])] applied to the arguments.  The
    ufunc is built first, by [frompyfunc(f, len(args), 1)], which refuses
    no argument at all and more operands than [NPY_MAXARGS] with a
    [ValueError]; then the loop runs, and scalars alone give a
    zero-dimensional array. *)
Definition vectorize (f : list value -> result value) (args : list value)
  : result value :=
  match args with
  | [] => Raise ValueError
  | _ =>
      if (NPY_MAXARGS <? List.length args + 1)%nat then Raise ValueError
      else
        match max_ndim args with
        | O => r <- f (map leaf_of args) ;; Ok (VArray0 r)
        | d => broadcast f d args
        end
  end.

(** The item of an output at a position, given by its indices along the
    axes; a zero-dimensional output has the empty position only. *)
Fixpoint output_at (path : list nat) (out : value) : option value :=
  match path with
  | [] => Some (leaf_of out)
  | i :: path' =>
      match out with
      | VArray rows =>
          match nth_error rows i with
          | Some row => output_at path' row
          | None => None
          end
      | _ => None
      end
  end.

(** The leaves of the arguments that correspond to a position of the
    output of [d] dimensions, by the broadcasting rule. *)
Fixpoint inputs_at (d : nat) (path : list nat) (args : list value)
  : list value :=
  match d, path with
  | S d', i :: path' => inputs_at d' path' (map (pick d i) args)
  | _, _ => map leaf_of args
  end.

(** The most dimensions an array can have ([NPY_MAXDIMS] of numpy 1). *)
Definition NPY_MAXDIMS : nat := 32.

Fixpoint common_prefix (a b : list nat) : list nat :=
  match a, b with
  | x :: a', y :: b' =>
      if (x =? y)%nat then x :: common_prefix a' b' else []
  | _, _ => []
  end.

(** The shape numpy finds in nested sequences when it builds an array of
    objects: a sequence is one more axis, and the axes below it are those
    on which all its items agree.  Strings, and the tokens that are
    strings, are not sequences here. *)
Fixpoint discover (v : value) : list nat :=
  match v with
  | VTuple items | VArray items =>
      List.length items
      :: match map discover items with
         | [] => []
         | s :: ss => fold_left common_prefix ss s
         end
  | _ => []
  end.

(** The items of nested sequences as an array of [d] dimensions; what
    lies below stays whole, as one object. *)
Fixpoint unpack (d : nat) (v : value) : value :=
  match d with
  | O => v
  | S d' =>
      match v with
      | VTuple items | VArray items => VArray (map (unpack d') items)
      | _ => v
      end
  end.

(** [np.asarray(v, object)] for a sequence [v]. *)
Definition asarray (v : value) : value :=
  unpack (Nat.min NPY_MAXDIMS (List.length (discover v))) v.

(** [np.isnan(r) or np.isinf(r)] on the result of a scalar operation. *)
Definition isnan_or_isinf (r : float64) : bool :=
  (F64.isnan r || F64.isinf r)%bool.

(** [np.prod(inputs, axis=0)]: the rows are multiplied together position
    by position, starting from the first row. *)
Fixpoint mul_rows (x y : list float64) : list float64 :=
  match x, y with
  | a :: x', b :: y' => F64.mul a b :: mul_rows x' y'
  | _, _ => []
  end.

Definition prod_axis0 (inputs : list (list float64)) : list float64 :=
  match inputs with
  | [] => []
  | x :: rest => fold_left mul_rows rest x
  end.

End Np.

(** ** Collaborators of the module

    [replace_empty], [wrap_func] and the error table live in other files
    of the package. *)

(** Modelled from the spec: [replace_empty] (formulas/formulas/__init__.py
    is not part of the sources).  Every missing-cell leaf of an argument is
    replaced by the empty substitute, numeric zero; everything else is
    passed through. *)
Fixpoint replace_empty (x : value) : value :=
  match x with
  | VEmpty => VInt 0
  | VArray items => VArray (map replace_empty items)
  | VArray0 item => VArray0 (replace_empty item)
  | _ => x
  end.

(** Modelled from the spec: [wrap_func] (formulas/formulas/__init__.py is
    not part of the sources).  The generic wrapper replaces empty
    arguments, calls the wrapped function, returns what it returns, and
    turns the found-error signal back into the error value it carries. *)
Definition wrap_func (func : list value -> result value)
  (args : list value) : result value :=
  match func (map replace_empty args) with
  | Raise (FoundError err) => Ok (VErr err)
  | r => r
  end.

(** ** formulas/formulas/functions.py *)

(** A generator run to its end: the values it yielded and the exception
    that stopped it, if one did. *)
Definition generator : Type := (list value * option exn)%type.

Definition list_of (g : generator) : result (list value) :=
  match g with
  | (ys, None) => Ok ys
  | (_, Some ex) => Raise ex
  end.

(** [is_number]: instances of the operand class [Error] are numbers
    without a test; any other value is one when [float] accepts it. *)
Definition is_number (number : value) : result bool :=
  match number with
  | VErrTok => Ok true
  | _ =>
      match Py.float number with
      | Ok _ => Ok true
      | Raise ValueError | Raise TypeError => Ok false
      | Raise ex => Raise ex
      end
  end.

(** [flatten(l, check)]: tuples and arrays are walked, strings (and the
    tokens that behave like strings) are leaves; a leaf is yielded when
    there is no [check] or [check] accepts it.  Iterating a
    zero-dimensional array raises [TypeError]. *)
Fixpoint flatten (l : value) (check : option (value -> result bool))
  {struct l} : generator :=
  let leaf :=
    match check with
    | None => ([l], None)
    | Some c =>
        match c l with
        | Ok true => ([l], None)
        | Ok false => ([], None)
        | Raise ex => ([], Some ex)
        end
    end in
  let walk :=
    fix walk (els : list value) : generator :=
      match els with
      | [] => ([], None)
      | el :: els' =>
          match flatten el check with
          | (ys, Some ex) => (ys, Some ex)
          | (ys, None) => let '(zs, e) := walk els' in (ys ++ zs, e)
          end
      end in
  match l with
  | VTuple items | VArray items => walk items
  | VArray0 _ => ([], Some TypeError)
  | _ => leaf
  end.

Fixpoint first_error (ys : list value) : option XlError :=
  match ys with
  | [] => None
  | VErr err :: _ => Some err
  | _ :: ys' => first_error ys'
  end.

(** [raise_errors]: the first error value met while walking the
    arguments is raised as [FoundError]. *)
Definition raise_errors (args : list value) : result unit :=
  let '(ys, e) := flatten (VTuple args) None in
  match first_error ys with
  | Some err => Raise (FoundError err)
  | None =>
      match e with
      | Some ex => Raise ex
      | None => Ok tt
      end
  end.

(** What a scalar operation returns: a double or an error value. *)
Inductive scalar : Type :=
| Num (f : float64)
| Err (e : XlError).

Definition ufunc : Type := list float64 -> result scalar.

(** [safe_eval] of [wrap_ufunc]. *)
Definition safe_eval (func : ufunc) (vals : list value) : result value :=
  let body :=
    fs <- Np.mapM Py.float vals ;;
    r <- func fs ;;
    match r with
    | Num f => if Np.isnan_or_isinf f then Ok (VErr NUM) else Ok (VFloat f)
    | Err e => Ok (VErr e)
    end in
  match body with
  | Raise ValueError | Raise TypeError => Ok (VErr VALUE)
  | r => r
  end.

(** [wrapper] of [wrap_ufunc]. *)
Definition wrapper (func : ufunc) (args : list value) : result value :=
  Np.vectorize (safe_eval func) (map replace_empty args).

Definition wrap_ufunc (func : ufunc) : list value -> result value :=
  wrap_func (wrapper func).

(** A numpy function of one or of two doubles; any other number of
    arguments is a [TypeError]. *)
Definition unary (f : float64 -> float64) : ufunc :=
  fun xs =>
    match xs with
    | [x] => Ok (Num (f x))
    | _ => Raise TypeError
    end.

Definition binary (f : float64 -> float64 -> result scalar) : ufunc :=
  fun xs =>
    match xs with
    | [x; y] => f x y
    | _ => Raise TypeError
    end.

Definition ABS : list value -> result value := wrap_ufunc (unary F64.abs).

(** The numpy primitives whose values are the business of the C library:
    they are taken as they come. *)
Section Primitives.

Variable np_arctan2 : float64 -> float64 -> float64.
Variable np_power : float64 -> float64 -> float64.
Variable np_log10 : float64 -> float64.
Variable np_log : float64 -> float64.
(** [np.sum] of a one-dimensional array of doubles (the order in which
    numpy associates the additions is its own). *)
Variable np_sum : list float64 -> float64.

(** [x == y == 0 and Error.errors['#DIV/0!'] or np.arctan2(y, x)]: the
    error value is a non-empty string, hence true. *)
Definition xarctan2 (x y : float64) : result scalar :=
  if (F64.eqb x y && F64.eqb y F64.zero)%bool
  then Ok (Err DIV0)
  else Ok (Num (np_arctan2 y x)).

Definition ATAN2 : list value -> result value :=
  wrap_ufunc (binary xarctan2).

Definition LOG : list value -> result value := wrap_ufunc (unary np_log10).
Definition LN : list value -> result value := wrap_ufunc (unary np_log).

(** [xpower]. *)
Definition xpower (number power : float64) : result scalar :=
  if F64.eqb number F64.zero then
    if F64.eqb power F64.zero then Ok (Err NUM)
    else if F64.ltb power F64.zero then Ok (Err DIV0)
    else Ok (Num (np_power number power))
  else Ok (Num (np_power number power)).

Definition POWER : list value -> result value :=
  wrap_ufunc (binary xpower).

(** [xsumproduct].  [arg.size] and [a.ravel()] exist on arrays only;
    [np.vectorize(is_number)], built without output types, refuses an
    empty array; [x[b] = a[b]] converts the selected leaves with
    [float]. *)
Definition array_size (arg : value) : result nat :=
  match arg with
  | VArray _ | VArray0 _ => Ok (Np.size arg)
  | _ => Raise AttributeError
  end.

Definition all_equal (ns : list nat) : bool :=
  match ns with
  | [] => false
  | n :: ns' => forallb (Nat.eqb n) ns'
  end.

(** [x[b] = a[b]] on a row of zeros: a selected leaf is converted with
    [float], the others stay zero. *)
Definition assign_selected (v : value) (b : bool) : result float64 :=
  if b then Py.float v else Ok F64.zero.

Fixpoint assign_row (a : list value) (b : list bool)
  : result (list float64) :=
  match a, b with
  | v :: a', c :: b' =>
      x <- assign_selected v c ;; xs <- assign_row a' b' ;; Ok (x :: xs)
  | _, _ => Ok []
  end.

Definition sumproduct_input (a : value) : result (list float64) :=
  let a := Np.ravel a in
  match a with
  | [] => Raise ValueError
  | _ => b <- Np.mapM is_number a ;; assign_row a b
  end.

Definition xsumproduct (args : list value) : result value :=
  raise_errors [VTuple args] ;;;
  sizes <- Np.mapM array_size args ;;
  if all_equal sizes then
    inputs <- Np.mapM sumproduct_input args ;;
    Ok (VFloat (np_sum (Np.prod_axis0 inputs)))
  else Raise AssertionError.

Definition SUMPRODUCT : list value -> result value := wrap_func xsumproduct.

End Primitives.

(** [average]. *)
Definition average (args : list value) : result value :=
  l <- list_of (flatten (VTuple args) (Some is_number)) ;;
  s <- Py.sum l ;;
  Py.truediv s (VInt (Z.of_nat (List.length l))).

Definition AVERAGE : list value -> result value := wrap_func average.

(** [xsum]. *)
Definition xsum (args : list value) : result value :=
  raise_errors [VTuple args] ;;;
  l <- list_of (flatten (VTuple args) (Some is_number)) ;;
  Py.sum l.

Definition SUM : list value -> result value := wrap_func xsum.

(** [iserr] and [iserror].  The test runs over the leaves of an array and
    the answer has the shape of the array; a value without [ravel] is
    put into the array [np.asarray([[val]], object)] and the answer read
    back at [0][0].  That array is 1 x 1 for a scalar; a tuple is a
    sequence to numpy as the two lists around it are, so its items become
    a further axis and the answer read back is an array, one answer per
    item. *)
Fixpoint map_leaves (f : value -> value) (a : value) : value :=
  match a with
  | VArray items => VArray (map (map_leaves f) items)
  | VArray0 x => VArray0 (f x)
  | _ => f a
  end.

Definition over_array (test : value -> bool) (val : value) : result value :=
  match val with
  | VArray _ | VArray0 _ => Ok (map_leaves (fun v => VBool (test v)) val)
  | _ => Raise AttributeError
  end.

Definition getitem (a : value) (i : nat) : result value :=
  match a with
  | VArray items =>
      match nth_error items i with
      | Some x => Ok x
      | None => Raise IndexError
      end
  | _ => Raise TypeError
  end.

Definition or_scalar (test : value -> bool) (val : value) : result value :=
  match over_array test val with
  | Raise AttributeError =>
      b <- over_array test (Np.asarray (VTuple [VTuple [val]])) ;;
      row <- getitem b 0 ;;
      getitem row 0
  | r => r
  end.

Definition isinstance_XlError (v : value) : bool :=
  match v with
  | VErr _ => true
  | _ => false
  end.

(** [isinstance(v, XlError) and v is not Error.errors['#N/A']] *)
Definition is_err_but_na (v : value) : bool :=
  match v with
  | VErr e => negb (XlError_eqb e NA)
  | _ => false
  end.

Definition iserr (val : value) : result value := or_scalar is_err_but_na val.

Definition iserror (val : value) : result value :=
  or_scalar isinstance_XlError val.



(** Text functions. *)
Section Text.

(** [str(v)] for the values whose rendering is the run time's business:
    doubles (shortest round-trip form), containers and operand objects. *)
Variable str_other : value -> string.

Definition str (v : value) : string :=
  match v with
  | VStr s => s
  | VInt z => NilZero.string_of_int (Z.to_int z)
  | VBool b => if b then "True" else "False"
  | VNone => "None"
  | VErr _ | VEmpty =>
      match Py.text_of v with
      | Some s => s
      | None => str_other v
      end
  | _ => str_other v
  end.

(** [right]: [str(from_str)[(0 - int(num_chars)):]]. *)
Definition right (from_str num_chars : value) : result value :=
  n <- Py.int num_chars ;;
  let out := Py.slice_from (str from_str) (0 - n) in
  Ok (VStr out).

Definition RIGHT : list value -> result value :=
  wrap_func (fun args =>
    match args with
    | [from_str; num_chars] => right from_str num_chars
    | _ => Raise TypeError
    end).

End Text.

(** A scalar: anything but a tuple or an array. *)
Definition is_scalar (v : value) : bool :=
  match v with
  | VTuple _ | VArray _ | VArray0 _ => false
  | _ => true
  end.

(** ** Cells and ranges

    A cell holds a number (an [int] within the range of a double, or a
    double), a boolean, text, an error value, or nothing; a range is an
    array of one dimension or more whose leaves are cells. *)
Definition plain_cell (v : value) : bool :=
  match v with
  | VInt z => negb (F64.isinf (F64.of_Z z))
  | VFloat _ | VBool _ | VStr _ | VErr _ | VEmpty | VNone => true
  | VErrTok | VTuple _ | VArray _ | VArray0 _ => false
  end.

Fixpoint cells_only (a : value) : bool :=
  match a with
  | VArray items => forallb cells_only items
  | _ => plain_cell a
  end.

Definition cell_range (a : value) : bool :=
  match a with
  | VArray _ => cells_only a
  | _ => false
  end.

(** No leaf of the arguments is an error value. *)
Definition error_free (args : list value) : bool :=
  forallb (fun v => negb (isinstance_XlError v)) (flat_map Np.ravel args).

(** A leaf that [float] accepts. *)
Definition is_numeric (v : value) : bool :=
  match Py.float v with
  | Ok _ => true
  | Raise _ => false
  end.

(** The number a leaf stands for in a product: its conversion to
    [float], zero when it has none. *)
Definition number_or_zero (v : value) : float64 :=
  match Py.float v with
  | Ok f => f
  | Raise _ => F64.zero
  end.

(** The leaves of a range as numbers. *)
Definition row_of (a : value) : list float64 :=
  map number_or_zero (Np.ravel a).

(** The product, over the arguments, of their leaves at position [j]. *)
Definition product_at (args : list value) (j : nat) : float64 :=
  let leaf a := number_or_zero (nth j (Np.ravel a) VNone) in
  match args with
  | [] => F64.zero
  | a :: rest => fold_left (fun acc b => F64.mul acc (leaf b)) rest (leaf a)
  end.

(** The sum over the positions of these products. *)
Definition sum_of_products (np_sum : list float64 -> float64)
  (args : list value) : float64 :=
  match args with
  | [] => F64.zero
  | a :: _ => np_sum (map (product_at args) (seq 0 (Np.size a)))
  end.

(** [k] characters dropped from the front of a string. *)
Fixpoint drop_chars (k : nat) (s : string) : string :=
  match k, s with
  | O, _ => s
  | S k', String _ s' => drop_chars k' s'
  | S _, EmptyString => EmptyString
  end.

(** ** Reference primitives

    Simple stand-ins for the C library functions, used to run the
    properties below on concrete inputs. *)
Module Ref.

(** Sum from the left, starting from zero. *)
Definition sum (l : list float64) : float64 :=
  fold_left F64.add l F64.zero.

(** The power [b ^ n] for a natural exponent [n], rounded once. *)
Definition pow_nat (b : float64) (n : Z) : float64 :=
  if n =? 0 then F64.of_Z 1
  else
    match b with
    | S754_finite s m e =>
        let neg := (s && Z.odd n)%bool in
        let mn := Zpos m ^ n in
        binary_normalize F64.prec F64.emax (if neg then - mn else mn)
                         (e * n) false
    | S754_zero s => S754_zero (s && Z.odd n)%bool
    | S754_infinity s => S754_infinity (s && Z.odd n)%bool
    | S754_nan => S754_nan
    end.

(** [power]: exact on natural exponents, not-a-number elsewhere. *)
Definition power (b p : float64) : float64 :=
  match Py.float_to_int p with
  | Ok n =>
      if ((0 <=? n) && F64.eqb (F64.of_Z n) p)%bool
      then pow_nat b n
      else F64.nan
  | Raise _ => F64.nan
  end.

(** The whole part of the base-2 logarithm: minus infinity at zero,
    not-a-number below it. *)
Definition log2_floor (x : float64) : float64 :=
  match x with
  | S754_zero _ => F64.inf true
  | S754_nan => F64.nan
  | S754_infinity s => if s then F64.nan else F64.inf false
  | S754_finite s m e =>
      if s then F64.nan else F64.of_Z (Z.log2 (Zpos m) + e)
  end.

Definition pi_4 : float64 := S754_finite false 7074237752028440 (-53).

Definition times (k : Z) (x : float64) : float64 :=
  F64.mul (F64.of_Z k) x.

(** [arctan2 y x] to the quarter turn: exact on the axes, the diagonal
    of the quadrant elsewhere. *)
Definition arctan2 (y x : float64) : float64 :=
  match SFcompare y F64.zero, SFcompare x F64.zero with
  | Some Eq, Some Gt => y
  | Some Eq, Some Eq =>
      match x with
      | S754_zero true => times (match y with S754_zero true => -4 | _ => 4 end) pi_4
      | _ => y
      end
  | Some Eq, Some Lt =>
      times (match y with S754_zero true => -4 | _ => 4 end) pi_4
  | Some Gt, Some Gt => times 1 pi_4
  | Some Gt, Some Eq => times 2 pi_4
  | Some Gt, Some Lt => times 3 pi_4
  | Some Lt, Some Gt => times (-1) pi_4
  | Some Lt, Some Eq => times (-2) pi_4
  | Some Lt, Some Lt => times (-3) pi_4
  | _, _ => F64.nan
  end.

End Ref.

(** ** Slices, search and strip on strings *)

Module Str.

(** A slice bound brought into [0, n]: negative bounds count from the
    end. *)
Definition bound (n k : Z) : Z :=
  if k <? 0 then Z.max 0 (k + n) else Z.min k n.

(** [s[i:j]], a missing bound being the end on its side. *)
Definition slice (s : string) (i j : option Z) : string :=
  let n := Z.of_nat (String.length s) in
  let start := match i with Some k => bound n k | None => 0 end in
  let stop := match j with Some k => bound n k | None => n end in
  substring (Z.to_nat start) (Z.to_nat (stop - start)) s.

(** The first position, counted from [pos], at which [sub] starts in
    [s]; -1 when there is none. *)
Fixpoint search (sub s : string) (pos : Z) : Z :=
  if prefix sub s then pos
  else
    match s with
    | EmptyString => -1
    | String _ s' => search sub s' (pos + 1)
    end.

(** [s.find(sub, start)]. *)
Definition find (s sub : string) (start : Z) : Z :=
  let n := Z.of_nat (String.length s) in
  let start' := if start <? 0 then Z.max 0 (start + n) else start in
  if n <? start' then -1
  else search sub (drop_chars (Z.to_nat start') s) start'.

(** [s.strip()]. *)
Definition strip (s : string) : string :=
  string_of_list_ascii (Py.strip (list_ascii_of_string s)).

End Str.

(** The other text functions, on integer positions and counts. *)
Section TextFunctions.

Variable str_other : value -> string.

(** [left]: [str(from_str)[:num_chars]]. *)
Definition left (from_str : value) (num_chars : Z) : string :=
  Str.slice (str str_other from_str) None (Some num_chars).

(** [mid]: [str(from_str)[(start_num-1):((start_num-1)+num_chars)]]. *)
Definition mid (from_str : value) (start_num num_chars : Z) : string :=
  Str.slice (str str_other from_str)
            (Some (start_num - 1)) (Some ((start_num - 1) + num_chars)).

(** [find]: the search starts at [args[0] - 1] when a start is given, at
    0 otherwise. *)
Definition find (find_text within_text : value) (args : list Z) : Z :=
  let start_num :=
    match args with
    | a :: _ => a - 1
    | [] => 0
    end in
  Str.find (str str_other within_text) (str str_other find_text) start_num.

End TextFunctions.

(** [trim]: [text.strip()]. *)
Definition trim (text : string) : string := Str.strip text.

(** [replace], on text. *)
Definition replace (old_text : string) (start_num num_chars : Z)
  (new_text : string) : string :=
  (Str.slice old_text None (Some (start_num - 1))
   ++ new_text
   ++ Str.slice old_text (Some ((start_num - 1) + num_chars)) None)%string.

(** ** Ranges of a given depth, and the other registered functions *)

(** A range of [d] dimensions: cells nested [d] deep, no axis empty. *)
Fixpoint shaped (d : nat) (a : value) : bool :=
  match d with
  | O => plain_cell a
  | S d' =>
      match a with
      | VArray (x :: l) => forallb (shaped d') (x :: l)
      | _ => false
      end
  end.

(** What [safe_eval] puts at the position of the leaf [v] when the other
    arguments are the scalars [ys]. *)
Definition eval_leaf (func : ufunc) (ys : list value) (v : value) : value :=
  match safe_eval func (v :: ys) with
  | Ok r => r
  | Raise _ => VErr VALUE
  end.

Section Modulo.

Variable np_mod : float64 -> float64 -> float64.

(** [xmod]: [y == 0 and Error.errors['#DIV/0!'] or np.mod(x, y)]. *)
Definition xmod (x y : float64) : result scalar :=
  if F64.eqb y F64.zero then Ok (Err DIV0) else Ok (Num (np_mod x y)).

Definition MOD : list value -> result value := wrap_ufunc (binary xmod).

End Modulo.

(** ** Order of numbers and of text, [max] and [min] *)

Module Ord.

(** The exact value of a number: [m * 2 ^ e], an infinity, or
    not-a-number.  Python compares an [int] with a [float] by their
    exact values. *)
Inductive xnum : Type :=
| NaN
| Inf (neg : bool)
| Fin (m e : Z).

Definition of_value (v : value) : option xnum :=
  match v with
  | VInt z => Some (Fin z 0)
  | VBool b => Some (Fin (if b then 1 else 0) 0)
  | VFloat f =>
      Some match f with
           | S754_nan => NaN
           | S754_infinity s => Inf s
           | S754_zero _ => Fin 0 0
           | S754_finite s m e => Fin (if s then Zneg m else Zpos m) e
           end
  | _ => None
  end.

(** [m * 2 ^ e] counted in units of [2 ^ k], for [k <= e]. *)
Definition scaled (m e k : Z) : Z := m * 2 ^ (e - k).

Definition num_ltb (x y : xnum) : bool :=
  match x, y with
  | NaN, _ | _, NaN => false
  | Inf true, Inf true => false
  | Inf true, _ => true
  | _, Inf true => false
  | Inf false, _ => false
  | _, Inf false => true
  | Fin m1 e1, Fin m2 e2 =>
      let k := Z.min e1 e2 in scaled m1 e1 k <? scaled m2 e2 k
  end.

(** [a < b]: numbers by value, strings (and the tokens that are
    strings) by their characters, anything else a [TypeError].  Tuples
    and arrays, which Python orders in their own ways, are not covered:
    the module compares the leaves that [flatten] yields. *)
Definition lt (a b : value) : result bool :=
  match of_value a, of_value b with
  | Some x, Some y => Ok (num_ltb x y)
  | _, _ =>
      match Py.text_of a, Py.text_of b with
      | Some s, Some t => Ok (String.ltb s t)
      | _, _ => Raise TypeError
      end
  end.

(** [a > b]. *)
Definition gt (a b : value) : result bool := lt b a.

(** The loop of [max] and [min]: an item replaces the best one so far
    when the comparison says it is better. *)
Fixpoint best_from (better : value -> value -> result bool)
  (best : value) (l : list value) : result value :=
  match l with
  | [] => Ok best
  | x :: l' =>
      b <- better x best ;;
      best_from better (if b then x else best) l'
  end.

(** [max] or [min] of what a generator yields: no item at all is a
    [ValueError]. *)
Definition best_of (better : value -> value -> result bool)
  (g : generator) : result value :=
  match g with
  | ([], None) => Raise ValueError
  | ([], Some ex) => Raise ex
  | (x :: l, e) =>
      r <- best_from better x l ;;
      match e with
      | Some ex => Raise ex
      | None => Ok r
      end
  end.

Definition max : generator -> result value := best_of gt.
Definition min : generator -> result value := best_of lt.

End Ord.

(** [xmax] and [xmin]. *)
Definition xmax (args : list value) : result value :=
  raise_errors [VTuple args] ;;;
  Ord.max (flatten (VTuple args) (Some is_number)).

Definition MAX : list value -> result value := wrap_func xmax.

Definition xmin (args : list value) : result value :=
  raise_errors [VTuple args] ;;;
  Ord.min (flatten (VTuple args) (Some is_number)).

Definition MIN : list value -> result value := wrap_func xmin.

(** A number: an [int], a [bool] or a [float]. *)
Definition is_num (v : value) : bool :=
  match Ord.of_value v with
  | Some _ => true
  | None => false
  end.

(** The integer an [int] or a [bool] stands for, 0 for anything else. *)
Definition int_of (v : value) : Z :=
  match Py.as_int v with
  | Some z => z
  | None => 0
  end.

Definition is_int (v : value) : bool :=
  match Py.as_int v with
  | Some _ => true
  | None => false
  end.

(** The sum of the integers among some leaves. *)
Definition int_total (l : list value) : Z :=
  fold_right (fun v s => int_of v + s) 0 l.

(** [INT], registered as [wrap_func(int)], called with one argument. *)
Definition INT (number : value) : result value :=
  wrap_func (fun args =>
               match args with
               | [x] => z <- Py.int x ;; Ok (VInt z)
               | _ => Raise TypeError
               end) [number].

(** * Properties *)

(** ** Run-time lemmas *)

Lemma error_names_not_numeric (e : XlError) :
  Py.str_to_float (XlError_name e) = None.
Proof. destruct e; vm_compute; reflexivity. Qed.

Lemma float_error_value (e : XlError) : Py.float (VErr e) = Raise ValueError.
Proof. simpl. rewrite error_names_not_numeric. reflexivity. Qed.

Lemma replace_empty_scalar (v : value) :
  is_scalar v = true -> v <> VEmpty -> replace_empty v = v.
Proof. destruct v; simpl; congruence. Qed.

Lemma float_scalar_not_empty (v : value) (f : float64) :
  Py.float v = Ok f -> v <> VEmpty.
Proof. intros H ->. vm_compute in H. discriminate. Qed.

Lemma substring_all (s : string) : substring 0 (String.length s) s = s.
Proof.
  induction s as [|c s IH]; simpl; [reflexivity|].
  rewrite IH. reflexivity.
Qed.

Lemma substring_end (s : string) :
  substring (String.length s) 0 s = EmptyString.
Proof. induction s as [|c s IH]; simpl; [reflexivity|exact IH]. Qed.

Lemma substring_drop (k : nat) (s : string) :
  (k <= String.length s)%nat ->
  substring k (String.length s - k) s = drop_chars k s.
Proof.
  revert s. induction k as [|k IH]; intros s Hk.
  - rewrite Nat.sub_0_r. destruct s; simpl; [reflexivity|].
    rewrite substring_all. reflexivity.
  - destruct s as [|c s]; simpl in *; [lia|].
    apply IH. lia.
Qed.

Lemma drop_chars_all (k : nat) (s : string) :
  (String.length s <= k)%nat -> drop_chars k s = EmptyString.
Proof.
  revert s. induction k as [|k IH]; intros s Hk.
  - destruct s; simpl in *; [reflexivity|lia].
  - destruct s as [|c s]; simpl in *; [reflexivity|].
    apply IH. lia.
Qed.

(** [s[k:]] with [k >= 0] drops the first [k] characters. *)
Lemma slice_from_nonneg (s : string) (k : Z) :
  0 <= k -> Py.slice_from s k = drop_chars (Z.to_nat k) s.
Proof.
  intros Hk. unfold Py.slice_from.
  assert (Hlt : (k <? 0) = false) by (apply Z.ltb_ge; lia).
  rewrite Hlt.
  destruct (Z.le_gt_cases k (Z.of_nat (String.length s))) as [Hle|Hgt].
  - rewrite Z.min_l by lia.
    replace (Z.to_nat (Z.of_nat (String.length s) - k))
      with (String.length s - Z.to_nat k)%nat by lia.
    apply substring_drop. lia.
  - rewrite Z.min_r by lia.
    rewrite Z.sub_diag, Nat2Z.id. simpl.
    rewrite drop_chars_all by lia.
    apply substring_end.
Qed.

(** ** Error predicates *)


(** ** The number predicate *)

Lemma is_number_of_float (v : value) (f : float64) :
  Py.float v = Ok f -> is_number v = Ok true.
Proof.
  intros H. unfold is_number. rewrite H. destruct v; reflexivity.
Qed.

(** C4: [is_number] is true of every value that [float] accepts, false of
    every error value and false of text that is not numeric. *)
Theorem is_number_spec :
  (forall v f, Py.float v = Ok f -> is_number v = Ok true)
  /\ (forall e, is_number (VErr e) = Ok false)
  /\ (forall s, Py.str_to_float s = None -> is_number (VStr s) = Ok false).
Proof.
  split; [exact is_number_of_float|split].
  - intros e. unfold is_number. rewrite float_error_value. reflexivity.
  - intros s Hs. unfold is_number. simpl. rewrite Hs. reflexivity.
Qed.

Lemma is_number_spec_witness :
  is_number (VStr " 1.5e3 ") = Ok true
  /\ is_number (VStr "abc") = Ok false.
Proof.
  destruct is_number_spec as [Hnum [_ Htext]].
  split.
  - apply (Hnum (VStr " 1.5e3 ") (F64.of_Z 1500)). vm_compute. reflexivity.
  - apply (Htext "abc"%string). vm_compute. reflexivity.
Defined.

(** ** Text *)

(** C10: for every value and every integer [num_chars <= 0], [right]
    returns the string form of the value without its first [|num_chars|]
    characters, and all of it when [num_chars] is 0; [RIGHT] does the
    same on the argument it hands over. *)
Theorem right_nonpositive (str_other : value -> string)
  (from_str : value) (num_chars : Z) :
  num_chars <= 0 ->
  right str_other from_str (VInt num_chars)
    = Ok (VStr (drop_chars (Z.abs_nat num_chars) (str str_other from_str)))
  /\ right str_other from_str (VInt 0) = Ok (VStr (str str_other from_str))
  /\ RIGHT str_other [from_str; VInt num_chars]
      = Ok (VStr (drop_chars (Z.abs_nat num_chars)
                    (str str_other (replace_empty from_str)))).
Proof.
  intros Hn.
  assert (Hr : forall v, right str_other v (VInt num_chars)
             = Ok (VStr (drop_chars (Z.abs_nat num_chars) (str str_other v)))).
  { intros v. unfold right, Py.int, bind.
    rewrite slice_from_nonneg by lia.
    replace (Z.to_nat (0 - num_chars)) with (Z.abs_nat num_chars) by lia.
    reflexivity. }
  split; [apply Hr|split].
  - unfold right, Py.int, bind. rewrite slice_from_nonneg by lia. reflexivity.
  - unfold RIGHT, wrap_func. cbn [map].
    change (replace_empty (VInt num_chars)) with (VInt num_chars).
    rewrite Hr. reflexivity.
Qed.

Lemma right_nonpositive_witness :
  right (fun _ => EmptyString) (VStr "hello") (VInt (-2)) = Ok (VStr "llo")
  /\ right (fun _ => EmptyString) (VStr "hello") (VInt 0) = Ok (VStr "hello")
  /\ RIGHT (fun _ => EmptyString) [VStr "hello"; VInt (-2)] = Ok (VStr "llo").
Proof.
  apply (right_nonpositive (fun _ => EmptyString) (VStr "hello") (-2)).
  lia.
Defined.

Lemma replace_empty_idem (v : value) :
  replace_empty (replace_empty v) = replace_empty v.
Proof.
  induction v using value_nested_ind; simpl; try reflexivity.
  - f_equal. rewrite map_map.
    induction H as [|x l Hx Hl IH]; simpl; [reflexivity|].
    rewrite Hx, IH. reflexivity.
  - rewrite IHv. reflexivity.
Qed.

Lemma map_replace_empty_idem (args : list value) :
  map replace_empty (map replace_empty args) = map replace_empty args.
Proof.
  rewrite map_map. apply map_ext. exact replace_empty_idem.
Qed.

(** ** The elementwise wrapper on scalars *)

Lemma ndim_scalar (v : value) : is_scalar v = true -> Np.ndim v = 0%nat.
Proof. destruct v; simpl; congruence. Qed.

Lemma leaf_of_scalar (v : value) : is_scalar v = true -> Np.leaf_of v = v.
Proof. destruct v; simpl; congruence. Qed.

Lemma replace_empty_is_scalar (v : value) :
  is_scalar v = true -> is_scalar (replace_empty v) = true.
Proof. destruct v; simpl; congruence. Qed.

Lemma max_ndim_scalars (args : list value) :
  forallb is_scalar args = true -> Np.max_ndim args = 0%nat.
Proof.
  induction args as [|a args IH]; simpl; [reflexivity|].
  intros H. apply andb_true_iff in H as [Ha Hargs].
  rewrite (ndim_scalar a Ha), (IH Hargs). reflexivity.
Qed.

Lemma map_leaf_of_scalars (args : list value) :
  forallb is_scalar args = true -> map Np.leaf_of args = args.
Proof.
  induction args as [|a args IH]; simpl; [reflexivity|].
  intros H. apply andb_true_iff in H as [Ha Hargs].
  rewrite (leaf_of_scalar a Ha), (IH Hargs). reflexivity.
Qed.

Lemma forallb_replace_empty (args : list value) :
  forallb is_scalar args = true ->
  forallb is_scalar (map replace_empty args) = true.
Proof.
  induction args as [|a args IH]; simpl; [reflexivity|].
  intros H. apply andb_true_iff in H as [Ha Hargs].
  rewrite (replace_empty_is_scalar a Ha), (IH Hargs). reflexivity.
Qed.

(** On scalar arguments, fewer than [NPY_MAXARGS] of them, the wrapper
    makes one call of [safe_eval] and puts its result into a
    zero-dimensional array. *)
Lemma wrap_ufunc_scalars (func : ufunc) (args : list value) (r : value) :
  args <> [] ->
  (List.length args < Np.NPY_MAXARGS)%nat ->
  forallb is_scalar args = true ->
  safe_eval func (map replace_empty args) = Ok r ->
  wrap_ufunc func args = Ok (VArray0 r).
Proof.
  intros Hne Hlen Hsc Hr.
  unfold wrap_ufunc, wrap_func, wrapper, Np.vectorize.
  rewrite map_replace_empty_idem.
  assert (Hsc' := forallb_replace_empty _ Hsc).
  assert (Hlen' : (Np.NPY_MAXARGS
                   <? List.length (map replace_empty args) + 1)%nat = false)
    by (apply Nat.ltb_ge; rewrite length_map; lia).
  revert Hr Hsc' Hlen'.
  destruct (map replace_empty args) as [|v l] eqn:E;
    [destruct args; [congruence|discriminate]|].
  intros Hr Hsc' Hlen'.
  rewrite Hlen'.
  rewrite (max_ndim_scalars _ Hsc'), (map_leaf_of_scalars _ Hsc'), Hr.
  reflexivity.
Qed.

(** ** [safe_eval] *)

Lemma mapM_float_raises (pre post : list value) (v : value) (ex : exn) :
  Forall (fun w => exists f, Py.float w = Ok f) pre ->
  Py.float v = Raise ex ->
  Np.mapM Py.float (pre ++ v :: post) = Raise ex.
Proof.
  intros Hpre Hv. induction Hpre as [|w pre [f Hf] _ IH]; simpl.
  - rewrite Hv. reflexivity.
  - rewrite Hf. simpl. rewrite IH. reflexivity.
Qed.

Lemma safe_eval_coercion_fails (func : ufunc) (pre post : list value)
  (v : value) :
  Forall (fun w => exists f, Py.float w = Ok f) pre ->
  Py.float v = Raise ValueError \/ Py.float v = Raise TypeError ->
  safe_eval func (pre ++ v :: post) = Ok (VErr VALUE).
Proof.
  intros Hpre [Hv|Hv]; unfold safe_eval;
    rewrite (mapM_float_raises pre post v _ Hpre Hv); reflexivity.
Qed.

Lemma safe_eval_invalid_number (func : ufunc) (vals : list value)
  (fs : list float64) (x : float64) :
  Np.mapM Py.float vals = Ok fs ->
  func fs = Ok (Num x) ->
  Np.isnan_or_isinf x = true ->
  safe_eval func vals = Ok (VErr NUM).
Proof.
  intros Hfs Hx Hbad. unfold safe_eval. rewrite Hfs. simpl.
  rewrite Hx. simpl. rewrite Hbad. reflexivity.
Qed.

Lemma safe_eval_number (func : ufunc) (vals : list value)
  (fs : list float64) (x : float64) :
  Np.mapM Py.float vals = Ok fs ->
  func fs = Ok (Num x) ->
  safe_eval func vals
  = Ok (if Np.isnan_or_isinf x then VErr NUM else VFloat x).
Proof.
  intros Hfs Hx. unfold safe_eval. rewrite Hfs. simpl.
  rewrite Hx. simpl. destruct (Np.isnan_or_isinf x); reflexivity.
Qed.

Lemma safe_eval_error (func : ufunc) (vals : list value)
  (fs : list float64) (e : XlError) :
  Np.mapM Py.float vals = Ok fs ->
  func fs = Ok (Err e) ->
  safe_eval func vals = Ok (VErr e).
Proof.
  intros Hfs He. unfold safe_eval. rewrite Hfs. simpl.
  rewrite He. reflexivity.
Qed.

Lemma abs_not_invalid (f : float64) :
  F64.isfinite f = true -> Np.isnan_or_isinf (F64.abs f) = false.
Proof. destruct f; simpl; intros H; solve [reflexivity | discriminate]. Qed.

(** One scalar argument that [float] accepts. *)
Lemma wrap_ufunc_unary (f : float64 -> float64) (x : value) (fx : float64) :
  is_scalar x = true ->
  Py.float x = Ok fx ->
  wrap_ufunc (unary f) [x]
  = Ok (VArray0 (if Np.isnan_or_isinf (f fx) then VErr NUM
                 else VFloat (f fx))).
Proof.
  intros Hsc Hx.
  apply wrap_ufunc_scalars;
    [discriminate|unfold Np.NPY_MAXARGS; simpl; lia
    |simpl; rewrite Hsc; reflexivity|].
  simpl map.
  rewrite (replace_empty_scalar x Hsc (float_scalar_not_empty x fx Hx)).
  apply (safe_eval_number _ _ [fx]); [|reflexivity].
  simpl. rewrite Hx. reflexivity.
Qed.

(** Two scalar arguments that [float] accepts. *)
Lemma wrap_ufunc_binary (f : float64 -> float64 -> result scalar)
  (x y : value) (fx fy : float64) (r : scalar) :
  is_scalar x = true -> is_scalar y = true ->
  Py.float x = Ok fx -> Py.float y = Ok fy ->
  f fx fy = Ok r ->
  wrap_ufunc (binary f) [x; y]
  = Ok (VArray0 match r with
                | Num z => if Np.isnan_or_isinf z then VErr NUM else VFloat z
                | Err e => VErr e
                end).
Proof.
  intros Hx Hy Hfx Hfy Hr.
  apply wrap_ufunc_scalars;
    [discriminate|unfold Np.NPY_MAXARGS; simpl; lia
    |simpl; rewrite Hx, Hy; reflexivity|].
  simpl map.
  rewrite (replace_empty_scalar x Hx (float_scalar_not_empty x fx Hfx)).
  rewrite (replace_empty_scalar y Hy (float_scalar_not_empty y fy Hfy)).
  assert (Hfs : Np.mapM Py.float [x; y] = Ok [fx; fy])
    by (simpl; rewrite Hfx; simpl; rewrite Hfy; reflexivity).
  destruct r as [z|e].
  - apply (safe_eval_number _ _ [fx; fy]); assumption.
  - apply (safe_eval_error _ _ [fx; fy]); assumption.
Qed.

(** ** The elementwise wrapper at a position *)

Lemma mapM_nth {A B : Type} (g : A -> result B) (l : list A)
  (rows : list B) (i : nat) (row : B) :
  Np.mapM g l = Ok rows ->
  nth_error rows i = Some row ->
  exists x, nth_error l i = Some x /\ g x = Ok row.
Proof.
  revert rows i. induction l as [|a l IH]; intros rows i Hm Hn; simpl in Hm.
  - inversion Hm; subst. destruct i; discriminate.
  - destruct (g a) as [b|ex] eqn:Ha; simpl in Hm; [|discriminate].
    destruct (Np.mapM g l) as [bs|ex] eqn:Hl; simpl in Hm; [|discriminate].
    inversion Hm; subst. destruct i as [|i]; simpl in Hn.
    + inversion Hn; subst. exists a. split; [reflexivity|assumption].
    + destruct (IH bs i eq_refl Hn) as [x [Hx Hg]].
      exists x. split; assumption.
Qed.

Lemma nth_error_seq (start n i x : nat) :
  nth_error (seq start n) i = Some x -> x = (start + i)%nat.
Proof.
  revert start i. induction n as [|n IH]; intros start i H; simpl in H.
  - destruct i; discriminate.
  - destruct i as [|i]; simpl in H.
    + inversion H. lia.
    + apply IH in H. lia.
Qed.

Lemma safe_eval_result_scalar (func : ufunc) (vals : list value) (r : value) :
  safe_eval func vals = Ok r -> is_scalar r = true.
Proof.
  unfold safe_eval. intros H.
  destruct (Np.mapM Py.float vals) as [fs|[]]; simpl in H;
    try (inversion H; reflexivity); try discriminate.
  destruct (func fs) as [[x|e]|[]]; simpl in H;
    try (inversion H; reflexivity); try discriminate.
  destruct (Np.isnan_or_isinf x); inversion H; reflexivity.
Qed.

Lemma broadcast_scalar_leaves (func : ufunc) (d : nat) :
  forall (args : list value) (out : value) (path : list nat) (r : value),
  Np.broadcast (safe_eval func) d args = Ok out ->
  List.length path = d ->
  Np.output_at path out = Some r ->
  safe_eval func (Np.inputs_at d path args) = Ok r.
Proof.
  induction d as [|d IH]; intros args out path r Hb Hlen Hat.
  - destruct path; [|discriminate]. simpl in Hat. inversion Hat; subst.
    simpl in Hb |- *.
    rewrite (leaf_of_scalar out (safe_eval_result_scalar _ _ _ Hb)).
    exact Hb.
  - destruct path as [|i path]; [discriminate|].
    cbn [Np.broadcast] in Hb.
    destruct (Np.common_length 1 _) as [n|]; [|discriminate].
    destruct (Np.mapM _ (seq 0 n)) as [rows|ex] eqn:Hrows;
      simpl in Hb; [|discriminate].
    inversion Hb; subst out. clear Hb.
    cbn [Np.output_at] in Hat.
    destruct (nth_error rows i) as [row|] eqn:Hi; [|discriminate].
    destruct (mapM_nth _ _ _ _ _ Hrows Hi) as [x [Hx Hr]].
    apply nth_error_seq in Hx. simpl in Hx. subst x.
    cbn [Np.inputs_at].
    apply (IH _ row path r Hr); [simpl in Hlen; lia|exact Hat].
Qed.

(** What [np.vectorize] promises, for the wrapper: at every position of
    its output stands the result of
    [safe_eval] on the corresponding leaves of the arguments. *)
Lemma wrapper_position (func : ufunc) (args : list value) (out : value)
  (path : list nat) (r : value) :
  wrapper func args = Ok out ->
  List.length path = Np.max_ndim (map replace_empty args) ->
  Np.output_at path out = Some r ->
  safe_eval func
    (Np.inputs_at (List.length path) path (map replace_empty args)) = Ok r.
Proof.
  unfold wrapper, Np.vectorize. intros Hw Hlen Hat.
  destruct (map replace_empty args) as [|a args'] eqn:E; [discriminate|].
  destruct (Np.NPY_MAXARGS <? List.length (a :: args') + 1)%nat;
    [discriminate|].
  rewrite Hlen.
  destruct (Np.max_ndim (a :: args')) as [|d] eqn:Hd.
  - destruct path; [|discriminate].
    destruct (safe_eval func (map Np.leaf_of (a :: args'))) as [x|ex] eqn:Hx;
      simpl in Hw; [|discriminate].
    inversion Hw; subst out. simpl in Hat. inversion Hat; subst.
    exact Hx.
  - apply (broadcast_scalar_leaves func (S d) _ out path r Hw Hlen Hat).
Qed.

(** *** What the wrapper can raise *)

Lemma float_raises (v : value) (ex : exn) :
  Py.float v = Raise ex ->
  ex = ValueError \/ ex = TypeError \/ ex = OverflowError.
Proof.
  induction v using value_nested_ind; simpl; intros Hr;
    try discriminate;
    try (inversion Hr; auto; fail).
  - unfold Py.int_to_float in Hr.
    destruct (F64.isinf (F64.of_Z z)); inversion Hr; auto.
  - destruct (Py.str_to_float s); inversion Hr; auto.
  - destruct (Py.str_to_float (XlError_name e)); inversion Hr; auto.
  - destruct items as [|x [|y l]]; try (inversion Hr; auto; fail).
    inversion H; subst. auto.
Qed.

Lemma mapM_raises {A B : Type} (g : A -> result B) (l : list A) (ex : exn) :
  Np.mapM g l = Raise ex -> exists x, In x l /\ g x = Raise ex.
Proof.
  induction l as [|a l IH]; simpl; intros Hr; [discriminate|].
  destruct (g a) as [b|ex'] eqn:Ha; simpl in Hr.
  - destruct (Np.mapM g l) as [bs|ex'] eqn:Hl; simpl in Hr;
      [discriminate|].
    inversion Hr; subst.
    destruct (IH eq_refl) as [x [Hx Hg]].
    exists x. split; [right; exact Hx|exact Hg].
  - inversion Hr; subst. exists a. split; [left; reflexivity|exact Ha].
Qed.

(** A function of one double stops [safe_eval] on an [int] out of the
    range of doubles only. *)
Lemma safe_eval_unary_raises (f : float64 -> float64) (vals : list value)
  (ex : exn) :
  safe_eval (unary f) vals = Raise ex -> ex = OverflowError.
Proof.
  unfold safe_eval. intros Hr.
  destruct (Np.mapM Py.float vals) as [fs|ex'] eqn:Hfs.
  - cbn [bind] in Hr. unfold unary in Hr.
    destruct fs as [|x [|y fs]]; cbn [bind] in Hr; try discriminate.
    destruct (Np.isnan_or_isinf (f x)); discriminate.
  - destruct (mapM_raises _ _ _ Hfs) as [v [_ Hv]].
    destruct (float_raises v ex' Hv) as [-> | [-> | ->]];
      cbn [bind] in Hr; try discriminate.
    inversion Hr. reflexivity.
Qed.

Lemma broadcast_raises (f : list value -> result value) (d : nat) :
  forall (args : list value) (ex : exn),
  Np.broadcast f d args = Raise ex ->
  ex = ValueError \/ exists vals, f vals = Raise ex.
Proof.
  induction d as [|d IH]; intros args ex Hr.
  - right. exists (map Np.leaf_of args). exact Hr.
  - cbn [Np.broadcast] in Hr.
    destruct (Np.common_length 1 _) as [n|]; [|inversion Hr; auto].
    destruct (Np.mapM _ (seq 0 n)) as [rows|ex'] eqn:Hrows;
      cbn [bind] in Hr; [discriminate|].
    inversion Hr; subst ex'.
    destruct (mapM_raises _ _ _ Hrows) as [i [_ Hi]].
    apply (IH _ _ Hi).
Qed.

Lemma wrapper_unary_raises (f : float64 -> float64) (args : list value)
  (ex : exn) :
  wrapper (unary f) args = Raise ex ->
  ex = ValueError \/ ex = OverflowError.
Proof.
  unfold wrapper, Np.vectorize. intros Hr.
  destruct (map replace_empty args) as [|a args']; [inversion Hr; auto|].
  destruct (Np.NPY_MAXARGS <? List.length (a :: args') + 1)%nat;
    [inversion Hr; auto|].
  destruct (Np.max_ndim (a :: args')) as [|d].
  - destruct (safe_eval (unary f) (map Np.leaf_of (a :: args')))
      as [r|ex'] eqn:Hs; cbn [bind] in Hr; [discriminate|].
    inversion Hr; subst. right.
    apply (safe_eval_unary_raises f _ _ Hs).
  - destruct (broadcast_raises _ _ _ _ Hr) as [-> | [vals Hv]]; [auto|].
    right. apply (safe_eval_unary_raises f _ _ Hv).
Qed.

(** The generic wrapper leaves the results of a wrapped function of one
    double as they are. *)
Lemma wrap_ufunc_unary_ok (f : float64 -> float64) (args : list value)
  (out : value) :
  wrap_ufunc (unary f) args = Ok out ->
  wrapper (unary f) args = Ok out.
Proof.
  unfold wrap_ufunc, wrap_func. intros H.
  assert (Hw : wrapper (unary f) (map replace_empty args)
               = wrapper (unary f) args).
  { unfold wrapper. rewrite map_replace_empty_idem. reflexivity. }
  rewrite Hw in H.
  destruct (wrapper (unary f) args) as [r|ex] eqn:E; [exact H|].
  destruct (wrapper_unary_raises f args ex E) as [-> | ->]; discriminate.
Qed.

(** ** ABS *)

(** C1 (as the code has it): for every scalar that [float] turns into a
    finite double, [ABS] returns its absolute value; an error value given
    to an elementwise function fails the conversion to [float], so the
    result is [#VALUE!] whatever the error value was. *)
Theorem ABS_spec :
  (forall x f, is_scalar x = true -> Py.float x = Ok f ->
     F64.isfinite f = true ->
     ABS [x] = Ok (VArray0 (VFloat (F64.abs f))))
  /\ (forall func e, wrap_ufunc func [VErr e] = Ok (VArray0 (VErr VALUE)))
  /\ (forall e, ABS [VErr e] = Ok (VArray0 (VErr VALUE)))
  /\ (forall a out path v,
        ABS [a] = Ok out ->
        List.length path = Np.max_ndim [replace_empty a] ->
        Np.output_at path out <> None ->
        Np.inputs_at (List.length path) path [replace_empty a] = [v] ->
        (forall f, Py.float v = Ok f -> F64.isfinite f = true ->
                   Np.output_at path out = Some (VFloat (F64.abs f)))
        /\ (forall e, v = VErr e ->
                      Np.output_at path out = Some (VErr VALUE))).
Proof.
  assert (Herr : forall func e,
             wrap_ufunc func [VErr e] = Ok (VArray0 (VErr VALUE))).
  { intros func e.
    apply wrap_ufunc_scalars;
      [discriminate|unfold Np.NPY_MAXARGS; simpl; lia|reflexivity|].
    apply (safe_eval_coercion_fails func [] [] (VErr e));
      [constructor|left; apply float_error_value]. }
  split; [|split; [exact Herr|split; [intros e; apply Herr|]]].
  - intros x f Hsc Hx Hfin. unfold ABS.
    rewrite (wrap_ufunc_unary F64.abs x f Hsc Hx).
    rewrite (abs_not_invalid f Hfin). reflexivity.
  - intros a out path v Habs Hlen Hsome Hin.
    apply wrap_ufunc_unary_ok in Habs.
    destruct (Np.output_at path out) as [r|] eqn:Hat; [|congruence].
    pose proof (wrapper_position _ [a] out path r Habs Hlen Hat) as Hr.
    cbn [map] in Hr. rewrite Hin in Hr.
    split.
    + intros f Hf Hfin.
      rewrite (safe_eval_number (unary F64.abs) [v] [f] (F64.abs f)) in Hr;
        [|simpl; rewrite Hf; reflexivity|reflexivity].
      rewrite (abs_not_invalid f Hfin) in Hr. congruence.
    + intros e ->.
      pose proof (safe_eval_coercion_fails (unary F64.abs) [] [] (VErr e)
                    (Forall_nil _) (or_introl (float_error_value e))) as Hv.
      cbn [app] in Hv. congruence.
Qed.

Lemma ABS_spec_witness :
  ABS [VStr "-2.5"] = Ok (VArray0 (VFloat (F64.of_decimal false 25 (-1))))
  /\ Np.output_at [1%nat; 0%nat]
       (VArray [VArray [VFloat (F64.of_Z 1); VErr VALUE];
                VArray [VFloat (F64.of_Z 7); VFloat F64.zero]])
     = Some (VFloat (F64.of_Z 7))
  /\ Np.output_at [0%nat; 1%nat]
       (VArray [VArray [VFloat (F64.of_Z 1); VErr VALUE];
                VArray [VFloat (F64.of_Z 7); VFloat F64.zero]])
     = Some (VErr VALUE).
Proof.
  destruct ABS_spec as [Habs [_ [_ Hpos]]].
  split; [|split].
  - apply (Habs (VStr "-2.5") (F64.of_decimal true 25 (-1)));
      vm_compute; reflexivity.
  - refine (proj1 (Hpos (VArray [VArray [VInt (-1); VErr REF];
                                 VArray [VStr "-7"; VEmpty]])
                     (VArray [VArray [VFloat (F64.of_Z 1); VErr VALUE];
                              VArray [VFloat (F64.of_Z 7); VFloat F64.zero]])
                     [1%nat; 0%nat] (VStr "-7") _ _ _ _)
                  (F64.of_Z (-7)) _ _);
      try (vm_compute; reflexivity); discriminate.
  - refine (proj2 (Hpos (VArray [VArray [VInt (-1); VErr REF];
                                 VArray [VStr "-7"; VEmpty]])
                     (VArray [VArray [VFloat (F64.of_Z 1); VErr VALUE];
                              VArray [VFloat (F64.of_Z 7); VFloat F64.zero]])
                     [0%nat; 1%nat] (VErr REF) _ _ _ _)
                  REF _);
      try (vm_compute; reflexivity); discriminate.
Defined.

(** The error value given to [ABS] does not come back: [#N/A] becomes
    [#VALUE!]. *)
Lemma ABS_error_not_passed_through :
  ABS [VErr NA] = Ok (VArray0 (VErr VALUE))
  /\ ABS [VErr NA] <> Ok (VArray0 (VErr NA))
  /\ ABS [VErr NA] <> Ok (VErr NA)
  /\ ABS [VArray [VErr NA; VInt (-1)]]
     = Ok (VArray [VErr VALUE; VFloat (F64.of_Z 1)]).
Proof.
  repeat split; try (vm_compute; reflexivity); vm_compute; discriminate.
Qed.

(** ** Error codes of the elementwise wrapper *)

Lemma float_text_not_numeric (t : string) :
  Py.str_to_float t = None -> Py.float (VStr t) = Raise ValueError.
Proof. intros H. simpl. rewrite H. reflexivity. Qed.

Lemma log2_floor_nonpositive (x : float64) :
  F64.leb x F64.zero = true -> Np.isnan_or_isinf (Ref.log2_floor x) = true.
Proof.
  destruct x as [s|s| |s m e]; try destruct s; simpl; intros H;
    solve [reflexivity | discriminate].
Qed.

(** C3: at every position of the output of the elementwise wrapper, when
    the conversion of the corresponding leaves to [float] fails on text
    that is not numeric or on a value of another type, the result is
    [#VALUE!]; when the scalar operation returns a number that is
    not-a-number or infinite, the result is [#NUM!]; so the logarithms of
    a number that is not positive are [#NUM!]. *)
Theorem wrapper_error_codes (np_log10 np_log : float64 -> float64)
  (Hlog10 : forall x, F64.leb x F64.zero = true ->
                      Np.isnan_or_isinf (np_log10 x) = true)
  (Hlog : forall x, F64.leb x F64.zero = true ->
                    Np.isnan_or_isinf (np_log x) = true) :
  (forall func args out path pre v post,
     wrapper func args = Ok out ->
     List.length path = Np.max_ndim (map replace_empty args) ->
     Np.output_at path out <> None ->
     Np.inputs_at (List.length path) path (map replace_empty args)
       = pre ++ v :: post ->
     Forall (fun w => exists f, Py.float w = Ok f) pre ->
     Py.float v = Raise ValueError \/ Py.float v = Raise TypeError ->
     Np.output_at path out = Some (VErr VALUE))
  /\ (forall func args out path fs x,
        wrapper func args = Ok out ->
        List.length path = Np.max_ndim (map replace_empty args) ->
        Np.output_at path out <> None ->
        Np.mapM Py.float
          (Np.inputs_at (List.length path) path (map replace_empty args))
          = Ok fs ->
        func fs = Ok (Num x) ->
        Np.isnan_or_isinf x = true ->
        Np.output_at path out = Some (VErr NUM))
  /\ (forall t, Py.str_to_float t = None ->
                Py.float (VStr t) = Raise ValueError)
  /\ Py.float VNone = Raise TypeError
  /\ (forall v x, is_scalar v = true -> Py.float v = Ok x ->
        F64.leb x F64.zero = true ->
        LOG np_log10 [v] = Ok (VArray0 (VErr NUM))
        /\ LN np_log [v] = Ok (VArray0 (VErr NUM))).
Proof.
  split; [|split; [|split; [exact float_text_not_numeric|split;
                                                         [reflexivity|]]]].
  - intros func args out path pre v post Hw Hlen Hsome Hin Hpre Hv.
    destruct (Np.output_at path out) as [r|] eqn:Hat; [|congruence].
    pose proof (wrapper_position func args out path r Hw Hlen Hat) as Hr.
    rewrite Hin, (safe_eval_coercion_fails func pre post v Hpre Hv) in Hr.
    congruence.
  - intros func args out path fs x Hw Hlen Hsome Hfs Hx Hbad.
    destruct (Np.output_at path out) as [r|] eqn:Hat; [|congruence].
    pose proof (wrapper_position func args out path r Hw Hlen Hat) as Hr.
    rewrite (safe_eval_invalid_number func _ fs x Hfs Hx Hbad) in Hr.
    congruence.
  - intros v x Hsc Hv Hx. unfold LOG, LN.
    rewrite (wrap_ufunc_unary np_log10 v x Hsc Hv), (Hlog10 x Hx).
    rewrite (wrap_ufunc_unary np_log v x Hsc Hv), (Hlog x Hx).
    split; reflexivity.
Qed.

Lemma wrapper_error_codes_witness :
  Np.output_at [1%nat]
    (VArray [VFloat (F64.of_Z 3); VErr VALUE]) = Some (VErr VALUE)
  /\ Np.output_at [0%nat]
       (VArray [VErr NUM; VFloat (F64.of_Z 3)]) = Some (VErr NUM)
  /\ Py.float (VStr "abc") = Raise ValueError
  /\ LOG Ref.log2_floor [VInt 0] = Ok (VArray0 (VErr NUM))
  /\ LN Ref.log2_floor [VStr "-2.5"] = Ok (VArray0 (VErr NUM)).
Proof.
  destruct (wrapper_error_codes Ref.log2_floor Ref.log2_floor
              log2_floor_nonpositive log2_floor_nonpositive)
    as [Hvalue [Hnum [Htext [_ Hlogs]]]].
  split; [|split; [|split; [|split]]].
  - apply (Hvalue (unary F64.abs) [VArray [VInt (-3); VStr "abc"]]
             _ [1%nat] [] (VStr "abc") []).
    + vm_compute. reflexivity.
    + reflexivity.
    + discriminate.
    + reflexivity.
    + constructor.
    + left. vm_compute. reflexivity.
  - apply (Hnum (unary Ref.log2_floor) [VArray [VInt 0; VInt 8]]
             _ [0%nat] [F64.zero] (F64.inf true)).
    + vm_compute. reflexivity.
    + reflexivity.
    + discriminate.
    + reflexivity.
    + reflexivity.
    + reflexivity.
  - apply Htext. vm_compute. reflexivity.
  - apply (Hlogs (VInt 0) F64.zero); reflexivity.
  - apply (Hlogs (VStr "-2.5") (F64.of_decimal true 25 (-1)));
      vm_compute; reflexivity.
Defined.

(** ** POWER *)

Lemma xpower_other (np_power : float64 -> float64 -> float64)
  (number power : float64) :
  (F64.eqb number F64.zero
   && (F64.eqb power F64.zero || F64.ltb power F64.zero))%bool = false ->
  xpower np_power number power = Ok (Num (np_power number power)).
Proof.
  unfold xpower.
  destruct (F64.eqb number F64.zero); [|reflexivity].
  destruct (F64.eqb power F64.zero); [discriminate|].
  destruct (F64.ltb power F64.zero); [discriminate|reflexivity].
Qed.

Lemma eqb_ltb_zero (x : float64) :
  F64.eqb x F64.zero = true -> F64.ltb x F64.zero = false.
Proof.
  unfold F64.eqb, F64.ltb, SFeqb, SFltb.
  destruct (SFcompare x F64.zero) as [[]|]; congruence.
Qed.

(** C6 (as the code has it): a zero base with a zero exponent is [#NUM!],
    a zero base with a negative exponent is [#DIV/0!], both decided
    before the power primitive is called; in every other case [xpower]
    returns what the primitive returns, and [POWER] returns that number
    unless it is not-a-number or infinite, which becomes [#NUM!]; so
    [POWER(2, 10)] is 1024. *)
Theorem POWER_spec (np_power : float64 -> float64 -> float64) :
  (forall x y fx fy,
     is_scalar x = true -> is_scalar y = true ->
     Py.float x = Ok fx -> Py.float y = Ok fy ->
     (F64.eqb fx F64.zero = true -> F64.eqb fy F64.zero = true ->
      POWER np_power [x; y] = Ok (VArray0 (VErr NUM)))
     /\ (F64.eqb fx F64.zero = true -> F64.ltb fy F64.zero = true ->
         POWER np_power [x; y] = Ok (VArray0 (VErr DIV0)))
     /\ ((F64.eqb fx F64.zero
          && (F64.eqb fy F64.zero || F64.ltb fy F64.zero))%bool = false ->
         xpower np_power fx fy = Ok (Num (np_power fx fy))
         /\ POWER np_power [x; y]
            = Ok (VArray0 (if Np.isnan_or_isinf (np_power fx fy)
                           then VErr NUM
                           else VFloat (np_power fx fy)))))
  /\ POWER np_power [VInt 0; VInt 0] = Ok (VArray0 (VErr NUM))
  /\ POWER np_power [VInt 0; VInt (-1)] = Ok (VArray0 (VErr DIV0))
  /\ (np_power (F64.of_Z 2) (F64.of_Z 10) = F64.of_Z 1024 ->
      POWER np_power [VInt 2; VInt 10]
      = Ok (VArray0 (VFloat (F64.of_Z 1024)))).
Proof.
  assert (Hgen : forall x y fx fy r,
             is_scalar x = true -> is_scalar y = true ->
             Py.float x = Ok fx -> Py.float y = Ok fy ->
             xpower np_power fx fy = Ok r ->
             POWER np_power [x; y]
             = Ok (VArray0 match r with
                           | Num z => if Np.isnan_or_isinf z
                                      then VErr NUM else VFloat z
                           | Err e => VErr e
                           end)).
  { intros x y fx fy r Hx Hy Hfx Hfy Hr. unfold POWER.
    apply (wrap_ufunc_binary (xpower np_power) x y fx fy r); assumption. }
  split; [|split; [|split]].
  - intros x y fx fy Hx Hy Hfx Hfy. split; [|split].
    + intros H0 H1. apply (Hgen x y fx fy (Err NUM)); try assumption.
      unfold xpower. rewrite H0, H1. reflexivity.
    + intros H0 H1. apply (Hgen x y fx fy (Err DIV0)); try assumption.
      unfold xpower. rewrite H0, H1.
      destruct (F64.eqb fy F64.zero) eqn:E; [|reflexivity].
      rewrite (eqb_ltb_zero fy E) in H1. discriminate.
    + intros Hother. pose proof (xpower_other np_power fx fy Hother) as Hr.
      split; [exact Hr|].
      apply (Hgen x y fx fy (Num (np_power fx fy))); assumption.
  - apply (Hgen (VInt 0) (VInt 0) F64.zero F64.zero (Err NUM));
      reflexivity.
  - apply (Hgen (VInt 0) (VInt (-1)) F64.zero (F64.of_Z (-1)) (Err DIV0));
      reflexivity.
  - intros H.
    rewrite (Hgen (VInt 2) (VInt 10) (F64.of_Z 2) (F64.of_Z 10)
               (Num (np_power (F64.of_Z 2) (F64.of_Z 10))));
      try reflexivity.
    rewrite H. reflexivity.
Qed.

Lemma POWER_spec_witness :
  POWER Ref.power [VInt 0; VStr "0.0"] = Ok (VArray0 (VErr NUM))
  /\ POWER Ref.power [VInt 0; VFloat (F64.of_decimal true 5 (-1))]
     = Ok (VArray0 (VErr DIV0))
  /\ POWER Ref.power [VInt 3; VInt 4] = Ok (VArray0 (VFloat (F64.of_Z 81)))
  /\ POWER Ref.power [VInt 2; VInt 10]
     = Ok (VArray0 (VFloat (F64.of_Z 1024))).
Proof.
  destruct (POWER_spec Ref.power) as [Hcases [_ [_ Hex]]].
  split; [|split; [|split]].
  - apply (Hcases (VInt 0) (VStr "0.0") F64.zero F64.zero);
      vm_compute; reflexivity.
  - apply (Hcases (VInt 0) (VFloat (F64.of_decimal true 5 (-1)))
             F64.zero (F64.of_decimal true 5 (-1)));
      vm_compute; reflexivity.
  - apply (Hcases (VInt 3) (VInt 4) (F64.of_Z 3) (F64.of_Z 4));
      vm_compute; reflexivity.
  - apply Hex. vm_compute. reflexivity.
Defined.

(** Ten to the power 400 is beyond the largest double: the primitive
    returns plus infinity there, and [POWER] returns [#NUM!], not the
    result of the exponentiation. *)
Lemma POWER_overflow_is_NUM :
  Ref.power (F64.of_Z 10) (F64.of_Z 400) = F64.inf false
  /\ POWER Ref.power [VInt 10; VInt 400] = Ok (VArray0 (VErr NUM))
  /\ POWER Ref.power [VInt 10; VInt 400]
     <> Ok (VArray0 (VFloat (Ref.power (F64.of_Z 10) (F64.of_Z 400)))).
Proof.
  split; [vm_compute; reflexivity|split].
  - vm_compute. reflexivity.
  - vm_compute. discriminate.
Qed.

(** ** ATAN2 *)

Lemma both_zero (x y : float64) :
  (F64.eqb x y && F64.eqb y F64.zero)%bool
  = (F64.eqb x F64.zero && F64.eqb y F64.zero)%bool.
Proof.
  destruct y as [sy|sy| |sy my ey]; try destruct sy;
    destruct x as [sx|sx| |sx mx ex]; try destruct sx;
    try reflexivity; cbn;
    rewrite ?andb_false_r; reflexivity.
Qed.

Lemma arctan2_finite (a b : float64) :
  F64.isnan a = false -> F64.isnan b = false ->
  F64.isfinite (Ref.arctan2 a b) = true.
Proof.
  destruct a as [sa|sa| |sa ma ea]; try destruct sa;
    destruct b as [sb|sb| |sb mb eb]; try destruct sb;
    intros Ha Hb; try discriminate; vm_compute; reflexivity.
Qed.

(** C7: [ATAN2(0, 0)] is [#DIV/0!] (both arguments zero is the failure
    case, whatever the arctangent itself would return); for any other
    two numbers [ATAN2(x, y)] is the arctangent primitive called on
    [(y, x)]; so [ATAN2(0, 1)] is [arctan2(1, 0)]. *)
Theorem ATAN2_spec (np_arctan2 : float64 -> float64 -> float64)
  (Hfinite : forall a b, F64.isnan a = false -> F64.isnan b = false ->
                         F64.isfinite (np_arctan2 a b) = true) :
  ATAN2 np_arctan2 [VInt 0; VInt 0] = Ok (VArray0 (VErr DIV0))
  /\ (forall x y fx fy,
        is_scalar x = true -> is_scalar y = true ->
        Py.float x = Ok fx -> Py.float y = Ok fy ->
        F64.eqb fx F64.zero = true -> F64.eqb fy F64.zero = true ->
        ATAN2 np_arctan2 [x; y] = Ok (VArray0 (VErr DIV0)))
  /\ (forall x y fx fy,
        is_scalar x = true -> is_scalar y = true ->
        Py.float x = Ok fx -> Py.float y = Ok fy ->
        F64.isnan fx = false -> F64.isnan fy = false ->
        (F64.eqb fx F64.zero && F64.eqb fy F64.zero)%bool = false ->
        ATAN2 np_arctan2 [x; y] = Ok (VArray0 (VFloat (np_arctan2 fy fx))))
  /\ ATAN2 np_arctan2 [VInt 0; VInt 1]
     = Ok (VArray0 (VFloat (np_arctan2 (F64.of_Z 1) (F64.of_Z 0)))).
Proof.
  assert (Hzero : forall x y fx fy,
             is_scalar x = true -> is_scalar y = true ->
             Py.float x = Ok fx -> Py.float y = Ok fy ->
             F64.eqb fx F64.zero = true -> F64.eqb fy F64.zero = true ->
             ATAN2 np_arctan2 [x; y] = Ok (VArray0 (VErr DIV0))).
  { intros x y fx fy Hx Hy Hfx Hfy H0 H1. unfold ATAN2.
    apply (wrap_ufunc_binary (xarctan2 np_arctan2) x y fx fy (Err DIV0));
      try assumption.
    unfold xarctan2. rewrite both_zero, H0, H1. reflexivity. }
  assert (Hother : forall x y fx fy,
             is_scalar x = true -> is_scalar y = true ->
             Py.float x = Ok fx -> Py.float y = Ok fy ->
             F64.isnan fx = false -> F64.isnan fy = false ->
             (F64.eqb fx F64.zero && F64.eqb fy F64.zero)%bool = false ->
             ATAN2 np_arctan2 [x; y]
             = Ok (VArray0 (VFloat (np_arctan2 fy fx)))).
  { intros x y fx fy Hx Hy Hfx Hfy Hnx Hny Hnz. unfold ATAN2.
    rewrite (wrap_ufunc_binary (xarctan2 np_arctan2) x y fx fy
               (Num (np_arctan2 fy fx)) Hx Hy Hfx Hfy).
    - pose proof (Hfinite fy fx Hny Hnx) as Hfin.
      unfold F64.isfinite in Hfin. unfold Np.isnan_or_isinf.
      apply negb_true_iff in Hfin. rewrite Hfin. reflexivity.
    - unfold xarctan2. rewrite both_zero, Hnz. reflexivity. }
  split; [|split; [exact Hzero|split; [exact Hother|]]].
  - apply (Hzero (VInt 0) (VInt 0) F64.zero F64.zero); reflexivity.
  - apply (Hother (VInt 0) (VInt 1) (F64.of_Z 0) (F64.of_Z 1));
      reflexivity.
Qed.

Lemma ATAN2_spec_witness :
  ATAN2 Ref.arctan2 [VFloat (S754_zero true); VStr "0"]
  = Ok (VArray0 (VErr DIV0))
  /\ ATAN2 Ref.arctan2 [VInt (-2); VInt 0]
     = Ok (VArray0 (VFloat (Ref.arctan2 (F64.of_Z 0) (F64.of_Z (-2))))).
Proof.
  destruct (ATAN2_spec Ref.arctan2 arctan2_finite)
    as [_ [Hzero [Hother _]]].
  split.
  - apply (Hzero (VFloat (S754_zero true)) (VStr "0")
             (S754_zero true) F64.zero); vm_compute; reflexivity.
  - apply (Hother (VInt (-2)) (VInt 0) (F64.of_Z (-2)) (F64.of_Z 0));
      vm_compute; reflexivity.
Defined.

(** ** Walking ranges *)

Lemma ravel_array (items : list value) :
  Np.ravel (VArray items) = flat_map Np.ravel items.
Proof.
  simpl. induction items as [|x items IH]; simpl; [reflexivity|].
  rewrite IH. reflexivity.
Qed.

Lemma flatten_array (items : list value)
  (check : option (value -> result bool)) :
  flatten (VArray items) check
  = (fix walk (els : list value) : generator :=
       match els with
       | [] => ([], None)
       | el :: els' =>
           match flatten el check with
           | (ys, Some ex) => (ys, Some ex)
           | (ys, None) => let '(zs, e) := walk els' in (ys ++ zs, e)
           end
       end) items.
Proof. reflexivity. Qed.

Lemma flatten_tuple (items : list value)
  (check : option (value -> result bool)) :
  flatten (VTuple items) check = flatten (VArray items) check.
Proof. reflexivity. Qed.

Lemma flatten_cons (el : value) (els : list value)
  (check : option (value -> result bool)) :
  flatten (VArray (el :: els)) check
  = match flatten el check with
    | (ys, Some ex) => (ys, Some ex)
    | (ys, None) =>
        let '(zs, e) := flatten (VArray els) check in (ys ++ zs, e)
    end.
Proof. reflexivity. Qed.

(** Without a check, walking a range of cells yields its leaves. *)
Lemma flatten_cells (a : value) :
  cells_only a = true -> flatten a None = (Np.ravel a, None).
Proof.
  induction a using value_nested_ind; simpl; intros Hc;
    try reflexivity; try discriminate.
  change (flatten (VArray items) None
          = (Np.ravel (VArray items), None)).
  rewrite ravel_array.
  induction H as [|x l Hx Hl IH]; [reflexivity|].
  simpl in Hc. apply andb_true_iff in Hc as [Hcx Hcl].
  rewrite flatten_cons, (Hx Hcx), (IH Hcl). reflexivity.
Qed.

Lemma flatten_ranges (args : list value) :
  forallb cells_only args = true ->
  flatten (VArray args) None = (flat_map Np.ravel args, None).
Proof.
  intros H. rewrite <- ravel_array. apply flatten_cells. exact H.
Qed.

Lemma first_error_none (ys : list value) :
  forallb (fun v => negb (isinstance_XlError v)) ys = true ->
  first_error ys = None.
Proof.
  induction ys as [|y ys IH]; simpl; [reflexivity|].
  intros H. apply andb_true_iff in H as [Hy Hys].
  destruct y; try discriminate; apply IH; exact Hys.
Qed.

Lemma forallb_cell_range (args : list value) :
  forallb cell_range args = true -> forallb cells_only args = true.
Proof.
  induction args as [|a args IH]; simpl; [reflexivity|].
  intros H. apply andb_true_iff in H as [Ha Hargs].
  rewrite (IH Hargs), andb_true_r.
  destruct a; try discriminate. exact Ha.
Qed.

(** The fail-fast check on ranges: the first error value among the
    leaves is raised. *)
Lemma raise_errors_ranges (args : list value) :
  forallb cells_only args = true ->
  raise_errors [VTuple args]
  = match first_error (flat_map Np.ravel args) with
    | Some e => Raise (FoundError e)
    | None => Ok tt
    end.
Proof.
  intros Hc. unfold raise_errors.
  rewrite flatten_tuple, flatten_cons, flatten_tuple.
  rewrite (flatten_ranges args Hc). simpl.
  rewrite app_nil_r. reflexivity.
Qed.

(** Ranges without an error value pass the fail-fast check. *)
Lemma raise_errors_error_free (args : list value) :
  forallb cells_only args = true ->
  error_free args = true ->
  raise_errors [VTuple args] = Ok tt.
Proof.
  intros Hc He. unfold raise_errors.
  rewrite flatten_tuple, flatten_cons, flatten_tuple.
  rewrite (flatten_ranges args Hc). simpl.
  rewrite app_nil_r, (first_error_none _ He). reflexivity.
Qed.

(** ** Rows multiplied position by position *)

Lemma mul_rows_length (x y : list float64) (n : nat) :
  List.length x = n -> List.length y = n ->
  List.length (Np.mul_rows x y) = n.
Proof.
  revert y n. induction x as [|a x IH]; intros [|b y] n Hx Hy;
    simpl in *; try congruence.
  destruct n as [|n]; [discriminate|].
  f_equal. apply IH; congruence.
Qed.

Lemma mul_rows_nth (x y : list float64) (j : nat) :
  List.length x = List.length y ->
  (j < List.length x)%nat ->
  nth j (Np.mul_rows x y) F64.zero
  = F64.mul (nth j x F64.zero) (nth j y F64.zero).
Proof.
  revert y j. induction x as [|a x IH]; intros [|b y] j Hlen Hj;
    simpl in *; try lia.
  destruct j as [|j]; [reflexivity|].
  apply IH; lia.
Qed.

Lemma row_by_position (x : list float64) :
  x = map (fun j => nth j x F64.zero) (seq 0 (List.length x)).
Proof.
  induction x as [|a x IH]; simpl; [reflexivity|].
  f_equal. rewrite <- seq_shift, map_map. exact IH.
Qed.

Lemma fold_mul_rows (rest : list (list float64)) :
  forall (x : list float64) (n : nat),
  List.length x = n ->
  Forall (fun r => List.length r = n) rest ->
  fold_left Np.mul_rows rest x
  = map (fun j => fold_left (fun acc r => F64.mul acc (nth j r F64.zero))
                            rest (nth j x F64.zero))
        (seq 0 n).
Proof.
  induction rest as [|r rest IH]; intros x n Hx Hrest; simpl.
  - subst n. apply row_by_position.
  - inversion Hrest as [|r' rest' Hr Hrest']; subst r' rest'.
    rewrite (IH (Np.mul_rows x r) n (mul_rows_length x r n Hx Hr) Hrest').
    apply map_ext_in. intros j Hj. apply in_seq in Hj.
    rewrite mul_rows_nth by lia. reflexivity.
Qed.

Lemma fold_left_over_map {A B C : Type} (f : A -> B -> A) (g : C -> B)
  (l : list C) (a : A) :
  fold_left f (map g l) a = fold_left (fun acc c => f acc (g c)) l a.
Proof.
  revert a. induction l as [|c l IH]; intros a; simpl; [reflexivity|].
  apply IH.
Qed.

(** ** The inputs of SUMPRODUCT *)

Lemma ravel_cells (a : value) :
  cells_only a = true -> forallb plain_cell (Np.ravel a) = true.
Proof.
  induction a using value_nested_ind; simpl; intros Hc;
    try reflexivity; try discriminate; try (rewrite Hc; reflexivity).
  change (forallb plain_cell (Np.ravel (VArray items)) = true).
  rewrite ravel_array.
  induction H as [|x l Hx Hl IH]; [reflexivity|].
  simpl in Hc |- *. apply andb_true_iff in Hc as [Hcx Hcl].
  rewrite forallb_app, (Hx Hcx), (IH Hcl). reflexivity.
Qed.

Lemma int_to_float_in_range (z : Z) :
  F64.isinf (F64.of_Z z) = false -> Py.int_to_float z = Ok (F64.of_Z z).
Proof. intros H. unfold Py.int_to_float. rewrite H. reflexivity. Qed.

Lemma mapM_ok {A B : Type} (f : A -> result B) (g : A -> B) (l : list A) :
  (forall x, In x l -> f x = Ok (g x)) ->
  Np.mapM f l = Ok (map g l).
Proof.
  induction l as [|x l IH]; intros H; simpl; [reflexivity|].
  rewrite (H x (or_introl eq_refl)). simpl.
  rewrite IH by (intros y Hy; apply H; right; exact Hy).
  reflexivity.
Qed.

Lemma is_number_cell (v : value) :
  plain_cell v = true -> is_number v = Ok (is_numeric v).
Proof.
  unfold is_number, is_numeric.
  destruct v; simpl; intros Hc; try discriminate; try reflexivity.
  - apply negb_true_iff in Hc.
    rewrite (int_to_float_in_range z Hc). reflexivity.
  - destruct (Py.str_to_float s); reflexivity.
  - rewrite error_names_not_numeric. reflexivity.
Qed.

Lemma float_numeric_cell (v : value) :
  is_numeric v = true -> Py.float v = Ok (number_or_zero v).
Proof.
  unfold is_numeric, number_or_zero.
  destruct (Py.float v); [reflexivity|discriminate].
Qed.

Lemma number_or_zero_not_numeric (v : value) :
  is_numeric v = false -> number_or_zero v = F64.zero.
Proof.
  unfold is_numeric, number_or_zero.
  destruct (Py.float v); [discriminate|reflexivity].
Qed.

Lemma assign_row_numeric (l : list value) :
  assign_row l (map is_numeric l) = Ok (map number_or_zero l).
Proof.
  induction l as [|v l IH]; simpl; [reflexivity|].
  unfold assign_selected. destruct (is_numeric v) eqn:E.
  - rewrite (float_numeric_cell v E). simpl. rewrite IH. reflexivity.
  - simpl. rewrite IH, (number_or_zero_not_numeric v E). reflexivity.
Qed.

Lemma sumproduct_input_cells (a : value) :
  cells_only a = true ->
  (0 < Np.size a)%nat ->
  sumproduct_input a = Ok (map number_or_zero (Np.ravel a)).
Proof.
  intros Hc Hn. unfold sumproduct_input, Np.size in *.
  pose proof (ravel_cells a Hc) as Hall.
  destruct (Np.ravel a) as [|v l] eqn:E; [simpl in Hn; lia|].
  rewrite (mapM_ok is_number is_numeric (v :: l)).
  - cbn [bind]. apply assign_row_numeric.
  - intros x Hx. apply is_number_cell.
    rewrite forallb_forall in Hall. apply Hall. exact Hx.
Qed.

Lemma array_size_range (a : value) :
  cell_range a = true -> array_size a = Ok (Np.size a).
Proof. destruct a; simpl; intros H; try discriminate; reflexivity. Qed.


(** ** SUMPRODUCT *)

Lemma product_at_rows (a : value) (rest : list value) (j : nat) :
  fold_left (fun acc r => F64.mul acc (nth j r F64.zero))
            (map row_of rest) (nth j (row_of a) F64.zero)
  = product_at (a :: rest) j.
Proof.
  unfold product_at, row_of. rewrite fold_left_over_map.
  change F64.zero with (number_or_zero VNone).
  rewrite map_nth.
  assert (Hf : forall l acc,
             fold_left (fun acc0 c =>
                          F64.mul acc0
                            (nth j (map number_or_zero (Np.ravel c))
                                 (number_or_zero VNone))) l acc
             = fold_left (fun acc0 b =>
                            F64.mul acc0
                              (number_or_zero (nth j (Np.ravel b) VNone)))
                         l acc).
  { induction l as [|c l IH]; intros acc; simpl; [reflexivity|].
    rewrite map_nth. apply IH. }
  apply Hf.
Qed.

Lemma xsumproduct_mismatch (np_sum : list float64 -> float64)
  (args : list value) :
  forallb cell_range args = true ->
  error_free args = true ->
  all_equal (map Np.size args) = false ->
  xsumproduct np_sum args = Raise AssertionError.
Proof.
  intros Hr He Hne. unfold xsumproduct.
  rewrite (raise_errors_error_free args (forallb_cell_range args Hr) He).
  simpl.
  rewrite (mapM_ok array_size Np.size args).
  - simpl. rewrite Hne. reflexivity.
  - intros a Ha. apply array_size_range.
    rewrite forallb_forall in Hr. apply Hr. exact Ha.
Qed.

Lemma xsumproduct_by_position (np_sum : list float64 -> float64)
  (args : list value) :
  forallb cell_range args = true ->
  error_free args = true ->
  all_equal (map Np.size args) = true ->
  (forall a, In a args -> (0 < Np.size a)%nat) ->
  xsumproduct np_sum args = Ok (VFloat (sum_of_products np_sum args)).
Proof.
  intros Hr He Heq Hpos. unfold xsumproduct.
  pose proof (forallb_cell_range args Hr) as Hc.
  rewrite (raise_errors_error_free args Hc He). simpl.
  rewrite (mapM_ok array_size Np.size args).
  2:{ intros a Ha. apply array_size_range.
      rewrite forallb_forall in Hr. apply Hr. exact Ha. }
  simpl. rewrite Heq.
  rewrite (mapM_ok sumproduct_input row_of args).
  2:{ intros a Ha. apply sumproduct_input_cells.
      - rewrite forallb_forall in Hc. apply Hc. exact Ha.
      - apply Hpos. exact Ha. }
  simpl. do 2 f_equal.
  destruct args as [|a rest]; [discriminate|].
  unfold sum_of_products. f_equal. cbn [map Np.prod_axis0].
  rewrite (fold_mul_rows (map row_of rest) (row_of a) (Np.size a)).
  - apply map_ext. intros j. apply product_at_rows.
  - unfold row_of. rewrite length_map. reflexivity.
  - simpl in Heq. rewrite forallb_forall in Heq.
    apply Forall_forall. intros r Hin.
    apply in_map_iff in Hin as [b [<- Hb]].
    unfold row_of. rewrite length_map.
    symmetry. apply Nat.eqb_eq. apply Heq.
    apply (in_map Np.size rest b Hb).
Qed.

(** *** The generic wrapper in front of ranges *)

Lemma plain_cell_replace_empty (v : value) :
  plain_cell v = true -> plain_cell (replace_empty v) = true.
Proof. destruct v; simpl; intros H; try discriminate; try reflexivity; exact H. Qed.

Lemma cells_only_replace_empty (a : value) :
  cells_only a = true -> cells_only (replace_empty a) = true.
Proof.
  induction a using value_nested_ind; simpl; intros Hc;
    try reflexivity; try discriminate; try exact Hc.
  induction H as [|x l Hx Hl IH]; [reflexivity|].
  simpl in Hc |- *. apply andb_true_iff in Hc as [Hcx Hcl].
  rewrite (Hx Hcx), (IH Hcl). reflexivity.
Qed.

Lemma ravel_replace_empty (a : value) :
  cells_only a = true ->
  Np.ravel (replace_empty a) = map replace_empty (Np.ravel a).
Proof.
  induction a using value_nested_ind; simpl; intros Hc;
    try reflexivity; try discriminate.
  change (Np.ravel (VArray (map replace_empty items))
          = map replace_empty (Np.ravel (VArray items))).
  rewrite !ravel_array.
  induction H as [|x l Hx Hl IH]; [reflexivity|].
  simpl in Hc |- *. apply andb_true_iff in Hc as [Hcx Hcl].
  rewrite map_app, (Hx Hcx), (IH Hcl). reflexivity.
Qed.

Lemma size_replace_empty (a : value) :
  cells_only a = true -> Np.size (replace_empty a) = Np.size a.
Proof.
  intros Hc. unfold Np.size.
  rewrite (ravel_replace_empty a Hc), length_map. reflexivity.
Qed.

Lemma cell_range_replace_empty (a : value) :
  cell_range a = true -> cell_range (replace_empty a) = true.
Proof.
  destruct a; try discriminate. intros H.
  apply (cells_only_replace_empty (VArray items) H).
Qed.

Lemma number_or_zero_replace_empty (v : value) :
  plain_cell v = true -> number_or_zero (replace_empty v) = number_or_zero v.
Proof. destruct v; simpl; intros H; try discriminate; reflexivity. Qed.

Lemma row_of_replace_empty (a : value) :
  cells_only a = true -> row_of (replace_empty a) = row_of a.
Proof.
  intros Hc. unfold row_of.
  rewrite (ravel_replace_empty a Hc), map_map.
  apply map_ext_in. intros v Hv.
  apply number_or_zero_replace_empty.
  pose proof (ravel_cells a Hc) as Hall.
  rewrite forallb_forall in Hall. apply Hall. exact Hv.
Qed.

Lemma forallb_map_replace_empty (p : value -> bool) (args : list value) :
  (forall a, p a = true -> p (replace_empty a) = true) ->
  forallb p args = true -> forallb p (map replace_empty args) = true.
Proof.
  intros Hp. induction args as [|a args IH]; simpl; [reflexivity|].
  intros H. apply andb_true_iff in H as [Ha Hargs].
  rewrite (Hp a Ha), (IH Hargs). reflexivity.
Qed.

Lemma leaves_replace_empty (args : list value) :
  forallb cells_only args = true ->
  flat_map Np.ravel (map replace_empty args)
  = map replace_empty (flat_map Np.ravel args).
Proof.
  induction args as [|a args IH]; simpl; [reflexivity|].
  intros H. apply andb_true_iff in H as [Ha Hargs].
  rewrite map_app, (ravel_replace_empty a Ha), (IH Hargs). reflexivity.
Qed.

Lemma error_free_replace_empty (args : list value) :
  forallb cells_only args = true ->
  error_free (map replace_empty args) = error_free args.
Proof.
  intros Hc. unfold error_free.
  rewrite (leaves_replace_empty args Hc).
  induction (flat_map Np.ravel args) as [|v l IH]; simpl; [reflexivity|].
  rewrite IH. f_equal. destruct v; reflexivity.
Qed.

Lemma sizes_replace_empty (args : list value) :
  forallb cells_only args = true ->
  map Np.size (map replace_empty args) = map Np.size args.
Proof.
  induction args as [|a args IH]; simpl; [reflexivity|].
  intros H. apply andb_true_iff in H as [Ha Hargs].
  rewrite (size_replace_empty a Ha), (IH Hargs). reflexivity.
Qed.

Lemma rows_replace_empty (args : list value) :
  forallb cells_only args = true ->
  map row_of (map replace_empty args) = map row_of args.
Proof.
  induction args as [|a args IH]; simpl; [reflexivity|].
  intros H. apply andb_true_iff in H as [Ha Hargs].
  rewrite (row_of_replace_empty a Ha), (IH Hargs). reflexivity.
Qed.

Lemma sum_of_products_replace_empty (np_sum : list float64 -> float64)
  (args : list value) :
  forallb cells_only args = true ->
  sum_of_products np_sum (map replace_empty args)
  = sum_of_products np_sum args.
Proof.
  destruct args as [|a rest]; [reflexivity|].
  intros H. pose proof H as Hall.
  simpl in H. apply andb_true_iff in H as [Ha Hrest].
  unfold sum_of_products. cbn [map].
  rewrite (size_replace_empty a Ha). f_equal.
  apply map_ext. intros j.
  rewrite <- !product_at_rows.
  rewrite (row_of_replace_empty a Ha), (rows_replace_empty rest Hrest).
  reflexivity.
Qed.

Lemma first_error_replace_empty (l : list value) :
  first_error (map replace_empty l) = first_error l.
Proof.
  induction l as [|v l IH]; simpl; [reflexivity|].
  destruct v; simpl; try exact IH; reflexivity.
Qed.

(** C5 (as the code has it): the fail-fast check comes first: when a
    leaf of the ranges is an error value, [SUMPRODUCT] returns the first
    one met, whatever the element counts.  For ranges without an error
    value, [SUMPRODUCT] fails on the size assertion when the element
    counts differ; when they agree (and the ranges are not empty) the
    leaves that are not numbers count as zero, and the result is the sum
    over the positions of the product of the leaves of the arguments. *)
Theorem SUMPRODUCT_spec (np_sum : list float64 -> float64)
  (args : list value) :
  forallb cell_range args = true ->
  (forall e, first_error (flat_map Np.ravel args) = Some e ->
     xsumproduct np_sum args = Raise (FoundError e)
     /\ SUMPRODUCT np_sum args = Ok (VErr e))
  /\ (error_free args = true ->
      (all_equal (map Np.size args) = false ->
       SUMPRODUCT np_sum args = Raise AssertionError)
      /\ (all_equal (map Np.size args) = true ->
          (forall a, In a args -> (0 < Np.size a)%nat) ->
          SUMPRODUCT np_sum args
          = Ok (VFloat (sum_of_products np_sum args)))).
Proof.
  intros Hr.
  pose proof (forallb_cell_range args Hr) as Hc.
  pose proof (forallb_map_replace_empty cell_range args
                cell_range_replace_empty Hr) as Hr'.
  split.
  { intros e Hfirst. split.
    - unfold xsumproduct.
      rewrite (raise_errors_ranges args Hc), Hfirst. reflexivity.
    - unfold SUMPRODUCT, wrap_func, xsumproduct.
      rewrite (raise_errors_ranges (map replace_empty args)
                 (forallb_map_replace_empty cells_only args
                    cells_only_replace_empty Hc)).
      rewrite (leaves_replace_empty args Hc), first_error_replace_empty,
        Hfirst.
      reflexivity. }
  intros He.
  pose proof (error_free_replace_empty args Hc) as He'.
  rewrite He in He'.
  split.
  - intros Hne. unfold SUMPRODUCT, wrap_func.
    rewrite (xsumproduct_mismatch np_sum _ Hr' He').
    + reflexivity.
    + rewrite (sizes_replace_empty args Hc). exact Hne.
  - intros Heq Hpos. unfold SUMPRODUCT, wrap_func.
    rewrite (xsumproduct_by_position np_sum _ Hr' He').
    + rewrite (sum_of_products_replace_empty np_sum args Hc). reflexivity.
    + rewrite (sizes_replace_empty args Hc). exact Heq.
    + intros a' Hin. apply in_map_iff in Hin as [a [<- Ha]].
      rewrite size_replace_empty.
      * apply Hpos. exact Ha.
      * rewrite forallb_forall in Hc. apply Hc. exact Ha.
Qed.

Lemma SUMPRODUCT_spec_witness :
  SUMPRODUCT Ref.sum [VArray [VInt 1; VErr REF; VErr NA]; VArray [VInt 3]]
  = Ok (VErr REF)
  /\ SUMPRODUCT Ref.sum [VArray [VInt 1; VInt 2]; VArray [VInt 3]]
     = Raise AssertionError
  /\ SUMPRODUCT Ref.sum
       [VArray [VArray [VInt 2; VStr "x"]; VArray [VEmpty; VBool true]];
        VArray [VFloat (F64.of_Z 5); VInt 7; VInt 9; VStr "4"]]
     = Ok (VFloat (F64.of_Z 14)).
Proof.
  split; [|split].
  - apply (proj1 (SUMPRODUCT_spec Ref.sum
                    [VArray [VInt 1; VErr REF; VErr NA]; VArray [VInt 3]]
                    eq_refl) REF eq_refl).
  - apply (proj2 (SUMPRODUCT_spec Ref.sum
                    [VArray [VInt 1; VInt 2]; VArray [VInt 3]] eq_refl)
                 eq_refl);
      reflexivity.
  - apply (proj2 (SUMPRODUCT_spec Ref.sum
                    [VArray [VArray [VInt 2; VStr "x"];
                             VArray [VEmpty; VBool true]];
                     VArray [VFloat (F64.of_Z 5); VInt 7; VInt 9; VStr "4"]]
                    eq_refl)
                 eq_refl).
    + reflexivity.
    + intros a [<-|[<-|[]]]; vm_compute; lia.
Defined.

(** [np.vectorize(is_number)] has no output types and refuses ranges
    without a leaf. *)
Lemma SUMPRODUCT_empty_ranges :
  SUMPRODUCT Ref.sum [VArray []; VArray []] = Raise ValueError.
Proof. reflexivity. Qed.

(** An error value in an argument wins over the size check: with counts
    that differ, [SUMPRODUCT] returns the error value and does not fail
    on the sizes. *)
Lemma SUMPRODUCT_error_before_sizes :
  all_equal (map Np.size [VArray [VErr NA; VInt 1]; VArray [VInt 1]]) = false
  /\ xsumproduct Ref.sum [VArray [VErr NA; VInt 1]; VArray [VInt 1]]
     = Raise (FoundError NA)
  /\ SUMPRODUCT Ref.sum [VArray [VErr NA; VInt 1]; VArray [VInt 1]]
     = Ok (VErr NA)
  /\ SUMPRODUCT Ref.sum [VArray [VErr NA; VInt 1]; VArray [VInt 1]]
     <> Raise AssertionError.
Proof.
  repeat split; try reflexivity. vm_compute. discriminate.
Qed.

(** ** SUM and AVERAGE *)


(** With [is_number] as the check, walking a range of cells yields the
    leaves that [float] accepts. *)
Lemma flatten_numbers (a : value) :
  cells_only a = true ->
  flatten a (Some is_number) = (filter is_numeric (Np.ravel a), None).
Proof.
  induction a using value_nested_ind; intros Hc;
    try (simpl in Hc; discriminate);
    try (unfold flatten; rewrite (is_number_cell _ Hc);
         unfold Np.ravel, filter; destruct (is_numeric _); reflexivity).
  rewrite ravel_array.
  induction H as [|x l Hx Hl IH]; [reflexivity|].
  simpl in Hc. apply andb_true_iff in Hc as [Hcx Hcl].
  rewrite flatten_cons, (Hx Hcx), (IH Hcl).
  simpl. rewrite filter_app. reflexivity.
Qed.

Lemma flatten_numbers_ranges (args : list value) :
  forallb cells_only args = true ->
  flatten (VTuple args) (Some is_number)
  = (filter is_numeric (flat_map Np.ravel args), None).
Proof.
  intros H. rewrite flatten_tuple, <- ravel_array.
  apply flatten_numbers. exact H.
Qed.

(** [xsum] on ranges: the first error value among the leaves is raised;
    without one the leaves that [float] accepts are summed. *)
Lemma xsum_ranges (args : list value) :
  forallb cells_only args = true ->
  xsum args
  = match first_error (flat_map Np.ravel args) with
    | Some e => Raise (FoundError e)
    | None => Py.sum (filter is_numeric (flat_map Np.ravel args))
    end.
Proof.
  intros Hc. unfold xsum.
  rewrite (raise_errors_ranges args Hc).
  destruct (first_error (flat_map Np.ravel args)); [reflexivity|].
  cbn [bind]. rewrite (flatten_numbers_ranges args Hc). reflexivity.
Qed.

(** The fail-fast half of [SUM]: the first error value found among the
    leaves of the arguments is the result. *)
Lemma SUM_found_error (args : list value) (e : XlError) :
  forallb cells_only args = true ->
  first_error (flat_map Np.ravel args) = Some e ->
  SUM args = Ok (VErr e).
Proof.
  intros Hc He. unfold SUM, wrap_func.
  rewrite (xsum_ranges (map replace_empty args)
             (forallb_map_replace_empty cells_only args
                cells_only_replace_empty Hc)).
  rewrite (leaves_replace_empty args Hc), first_error_replace_empty, He.
  reflexivity.
Qed.

(** [average] on ranges: no fail-fast check; the leaves that [float]
    accepts are summed and divided by their number. *)
Lemma average_ranges (args : list value) :
  forallb cells_only args = true ->
  average args
  = (let l := filter is_numeric (flat_map Np.ravel args) in
     s <- Py.sum l ;; Py.truediv s (VInt (Z.of_nat (List.length l)))).
Proof.
  intros Hc. unfold average.
  rewrite (flatten_numbers_ranges args Hc). reflexivity.
Qed.

(** C2: two ranges of equal shape without an error value, one leaf being
    the text "3".  [is_number] accepts the text, [sum] cannot add it to a
    number, and [SUM] ends in a [TypeError] instead of returning the
    sum. *)
Theorem SUM_numeric_text :
  error_free [VArray [VStr "3"; VInt 1]; VArray [VInt 2; VInt 4]] = true
  /\ is_number (VStr "3") = Ok true
  /\ xsum [VArray [VStr "3"; VInt 1]; VArray [VInt 2; VInt 4]]
     = Raise TypeError
  /\ SUM [VArray [VStr "3"; VInt 1]; VArray [VInt 2; VInt 4]]
     = Raise TypeError.
Proof. repeat split; vm_compute; reflexivity. Qed.

(** C9: a range without an error value whose leaves are the text "3"
    and the number 1, both accepted by [is_number].  [sum] cannot add
    the text, and [AVERAGE] ends in a [TypeError] instead of returning
    the sum divided by the count. *)
Theorem AVERAGE_numeric_text :
  error_free [VArray [VStr "3"; VInt 1]] = true
  /\ filter is_numeric (Np.ravel (VArray [VStr "3"; VInt 1]))
     = [VStr "3"; VInt 1]
  /\ average [VArray [VStr "3"; VInt 1]] = Raise TypeError
  /\ AVERAGE [VArray [VStr "3"; VInt 1]] = Raise TypeError.
Proof. repeat split; vm_compute; reflexivity. Qed.

(** * Further properties *)

(** ** Substrings *)

Lemma substring_zero (i : nat) (s : string) : substring i 0 s = EmptyString.
Proof.
  revert s. induction i as [|i IH]; intros [|c s]; simpl; try reflexivity.
  apply IH.
Qed.

Lemma substring_beyond (s : string) (i n : nat) :
  (String.length s <= i)%nat -> substring i n s = EmptyString.
Proof.
  revert i n. induction s as [|c s IH]; intros i n Hi; simpl in Hi.
  - destruct i, n; reflexivity.
  - destruct i as [|i]; [lia|]. simpl. apply IH. lia.
Qed.

Lemma substring_whole (s : string) (n : nat) :
  (String.length s <= n)%nat -> substring 0 n s = s.
Proof.
  revert n. induction s as [|c s IH]; intros n Hn; simpl in Hn.
  - destruct n; reflexivity.
  - destruct n as [|n]; [lia|]. simpl. rewrite IH by lia. reflexivity.
Qed.

Lemma substring_length (s : string) (i n : nat) :
  String.length (substring i n s)
  = Nat.min n (String.length s - i).
Proof.
  revert i n. induction s as [|c s IH]; intros i n.
  - destruct i, n; simpl; lia.
  - destruct i as [|i].
    + destruct n as [|n]; simpl; [reflexivity|].
      rewrite IH. simpl. rewrite Nat.sub_0_r. reflexivity.
    + simpl. apply IH.
Qed.

(** A substring cut in two. *)
Lemma substring_append (s : string) (i n1 n2 : nat) :
  substring i (n1 + n2) s
  = (substring i n1 s ++ substring (i + n1) n2 s)%string.
Proof.
  revert i n1. induction s as [|c s IH]; intros i n1.
  - rewrite !(substring_beyond EmptyString) by (simpl; lia). reflexivity.
  - destruct i as [|i].
    + destruct n1 as [|n1]; simpl.
      * reflexivity.
      * rewrite (IH 0%nat n1). reflexivity.
    + simpl. apply IH.
Qed.

Lemma substring_clamp (s : string) (i n : nat) :
  substring i n s = substring i (Nat.min n (String.length s - i)) s.
Proof.
  revert i n. induction s as [|c s IH]; intros i n.
  - rewrite !(substring_beyond EmptyString) by (simpl; lia). reflexivity.
  - destruct i as [|i].
    + destruct n as [|n]; simpl; [reflexivity|].
      rewrite (IH 0%nat n), Nat.sub_0_r. reflexivity.
    + simpl. apply IH.
Qed.

Lemma bound_range (n k : Z) : 0 <= n -> 0 <= Str.bound n k <= n.
Proof.
  intros Hn. unfold Str.bound.
  destruct (k <? 0) eqn:E; [apply Z.ltb_lt in E|apply Z.ltb_ge in E]; lia.
Qed.

(** [s[:k] + s[k:]] is [s], for every integer [k]. *)
Lemma slice_split (s : string) (k : Z) :
  (Str.slice s None (Some k) ++ Str.slice s (Some k) None)%string = s.
Proof.
  unfold Str.slice.
  pose proof (bound_range (Z.of_nat (String.length s)) k
                (Nat2Z.is_nonneg _)) as Hb.
  rewrite Z.sub_0_r. change (Z.to_nat 0) with 0%nat.
  remember (Str.bound (Z.of_nat (String.length s)) k) as z eqn:Hz.
  replace (Z.to_nat (Z.of_nat (String.length s) - z))
    with (String.length s - Z.to_nat z)%nat by lia.
  pose proof (substring_append s 0 (Z.to_nat z)
                (String.length s - Z.to_nat z)) as H.
  simpl in H. rewrite <- H.
  apply substring_whole. lia.
Qed.

Lemma slice_from_is_slice (s : string) (k : Z) :
  Py.slice_from s k = Str.slice s (Some k) None.
Proof. reflexivity. Qed.

(** ** LEFT, RIGHT and MID *)

Lemma slice_to_nonneg (s : string) (n : Z) :
  0 <= n -> Str.slice s None (Some n) = substring 0 (Z.to_nat n) s.
Proof.
  intros Hn. unfold Str.slice, Str.bound.
  assert (E : (n <? 0) = false) by (apply Z.ltb_ge; lia).
  rewrite E, Z.sub_0_r. change (Z.to_nat 0) with 0%nat.
  rewrite (substring_clamp s 0 (Z.to_nat n)), Nat.sub_0_r.
  f_equal. lia.
Qed.

Lemma slice_between (s : string) (a n : Z) :
  0 <= a -> 0 <= n ->
  Str.slice s (Some a) (Some (a + n))
  = substring (Z.to_nat a) (Z.to_nat n) s.
Proof.
  intros Ha Hn. unfold Str.slice, Str.bound.
  assert (Ea : (a <? 0) = false) by (apply Z.ltb_ge; lia).
  assert (Eb : (a + n <? 0) = false) by (apply Z.ltb_ge; lia).
  rewrite Ea, Eb.
  destruct (Z.le_gt_cases (Z.of_nat (String.length s)) a) as [Hbig|Hin].
  - rewrite !substring_beyond by lia. reflexivity.
  - rewrite (substring_clamp s (Z.to_nat a) (Z.to_nat n)).
    f_equal; lia.
Qed.

Lemma slice_last (s : string) (n : Z) :
  0 <= n < Z.of_nat (String.length s) ->
  Str.slice s (Some (0 - (Z.of_nat (String.length s) - n))) None
  = Str.slice s (Some n) None.
Proof.
  intros Hn. unfold Str.slice, Str.bound.
  assert (E1 : (0 - (Z.of_nat (String.length s) - n) <? 0) = true)
    by (apply Z.ltb_lt; lia).
  assert (E2 : (n <? 0) = false) by (apply Z.ltb_ge; lia).
  rewrite E1, E2. f_equal; lia.
Qed.

(** X1: the first [n] characters ([n >= 0]) are what [left] returns, so
    its result has [min(n, len)] characters and is the whole string once
    [n] reaches the length; and [mid] from position 1 is [left]. *)
Theorem left_prefix (str_other : value -> string) (from_str : value)
  (n : Z) :
  0 <= n ->
  left str_other from_str n
    = substring 0 (Z.to_nat n) (str str_other from_str)
  /\ Z.of_nat (String.length (left str_other from_str n))
     = Z.min n (Z.of_nat (String.length (str str_other from_str)))
  /\ (Z.of_nat (String.length (str str_other from_str)) <= n ->
      left str_other from_str n = str str_other from_str)
  /\ mid str_other from_str 1 n = left str_other from_str n.
Proof.
  intros Hn. unfold left, mid.
  rewrite (slice_to_nonneg _ n Hn).
  split; [reflexivity|split; [|split]].
  - rewrite substring_length. lia.
  - intros Hlen. apply substring_whole. lia.
  - change (1 - 1) with 0.
    rewrite (slice_between _ 0 n) by lia. reflexivity.
Qed.

Lemma left_prefix_witness :
  left (fun _ => EmptyString) (VStr "spread") 3 = "spr"%string
  /\ Z.of_nat (String.length (left (fun _ => EmptyString) (VStr "spread") 3))
     = Z.min 3 6
  /\ (6 <= 3 -> left (fun _ => EmptyString) (VStr "spread") 3
                = "spread"%string)
  /\ mid (fun _ => EmptyString) (VStr "spread") 1 3
     = left (fun _ => EmptyString) (VStr "spread") 3.
Proof.
  apply (left_prefix (fun _ => EmptyString) (VStr "spread") 3). lia.
Defined.

(** X2: what [left] leaves out, [right] returns: [left(s, -k)] followed
    by [right(s, k)] is the string form of [s] for every integer [k];
    and for a count [0 <= n] below the length, [left(s, n)] followed by
    [right(s, len - n)] is the string again. *)
Theorem left_right_rejoin (str_other : value -> string) (from_str : value) :
  (forall k, exists r,
      right str_other from_str (VInt k) = Ok (VStr r)
      /\ (left str_other from_str (- k) ++ r)%string
         = str str_other from_str)
  /\ (forall n, 0 <= n < Z.of_nat (String.length (str str_other from_str)) ->
      exists r,
        right str_other from_str
              (VInt (Z.of_nat (String.length (str str_other from_str)) - n))
        = Ok (VStr r)
        /\ (left str_other from_str n ++ r)%string
           = str str_other from_str).
Proof.
  split.
  - intros k. eexists. split; [reflexivity|].
    rewrite slice_from_is_slice. unfold left.
    replace (0 - k) with (- k) by lia.
    apply slice_split.
  - intros n Hn. eexists. split; [reflexivity|].
    rewrite slice_from_is_slice, (slice_last _ n Hn). unfold left.
    apply slice_split.
Qed.

Lemma left_right_rejoin_witness :
  exists r,
    right (fun _ => EmptyString) (VStr "spread") (VInt (6 - 2)) = Ok (VStr r)
    /\ (left (fun _ => EmptyString) (VStr "spread") 2 ++ r)%string
       = "spread"%string.
Proof.
  apply (proj2 (left_right_rejoin (fun _ => EmptyString) (VStr "spread")) 2).
  simpl. lia.
Defined.

(** X3: for a start position [>= 1] and a count [>= 0], [mid] returns the
    [num_chars] characters that start at position [start_num] (counted
    from 1), fewer when the string ends before; none when the start is
    beyond the end. *)
Theorem mid_substring (str_other : value -> string) (from_str : value)
  (start_num num_chars : Z) :
  1 <= start_num -> 0 <= num_chars ->
  mid str_other from_str start_num num_chars
    = substring (Z.to_nat (start_num - 1)) (Z.to_nat num_chars)
                (str str_other from_str)
  /\ Z.of_nat (String.length (mid str_other from_str start_num num_chars))
     = Z.min num_chars
         (Z.max 0 (Z.of_nat (String.length (str str_other from_str))
                   - (start_num - 1)))
  /\ (Z.of_nat (String.length (str str_other from_str)) < start_num ->
      mid str_other from_str start_num num_chars = EmptyString).
Proof.
  intros Hs Hn. unfold mid.
  rewrite (slice_between _ (start_num - 1) num_chars) by lia.
  split; [reflexivity|split].
  - rewrite substring_length. lia.
  - intros Hlen. apply substring_beyond. lia.
Qed.

Lemma mid_substring_witness :
  mid (fun _ => EmptyString) (VStr "spread") 3 2 = "re"%string
  /\ Z.of_nat (String.length (mid (fun _ => EmptyString) (VStr "spread") 3 2))
     = Z.min 2 (Z.max 0 (6 - (3 - 1)))
  /\ (6 < 3 -> mid (fun _ => EmptyString) (VStr "spread") 3 2 = EmptyString).
Proof.
  apply (mid_substring (fun _ => EmptyString) (VStr "spread") 3 2); lia.
Defined.

(** ** REPLACE *)

Lemma append_length (a b : string) :
  String.length (a ++ b)%string = (String.length a + String.length b)%nat.
Proof. induction a as [|c a IH]; simpl; [reflexivity|]. rewrite IH. reflexivity. Qed.

Lemma slice_from_nonneg_sub (s : string) (a : Z) :
  0 <= a ->
  Str.slice s (Some a) None
  = substring (Z.to_nat a) (String.length s - Z.to_nat a) s.
Proof.
  intros Ha. unfold Str.slice, Str.bound.
  assert (E : (a <? 0) = false) by (apply Z.ltb_ge; lia).
  rewrite E.
  destruct (Z.le_gt_cases (Z.of_nat (String.length s)) a) as [Hbig|Hin].
  - rewrite !substring_beyond by lia. reflexivity.
  - f_equal; lia.
Qed.

(** X4: for a start position [>= 1] and a count [>= 0], [replace] keeps
    the characters before the position and those after the replaced
    segment: putting back the segment that [mid] returns gives the old
    text again, and when the segment lies within the text the result has
    the old length minus [num_chars] plus the length of the new text. *)
Theorem replace_segment (str_other : value -> string) (old_text : string)
  (start_num num_chars : Z) :
  1 <= start_num -> 0 <= num_chars ->
  replace old_text start_num num_chars
          (mid str_other (VStr old_text) start_num num_chars) = old_text
  /\ (forall new_text,
        start_num - 1 + num_chars <= Z.of_nat (String.length old_text) ->
        Z.of_nat (String.length
                    (replace old_text start_num num_chars new_text))
        = Z.of_nat (String.length old_text) - num_chars
          + Z.of_nat (String.length new_text))
  /\ (forall new_text,
        replace old_text start_num 0 new_text
        = (left str_other (VStr old_text) (start_num - 1)
           ++ new_text
           ++ Py.slice_from old_text (start_num - 1))%string).
Proof.
  intros Hs Hn. split; [|split].
  - unfold replace, mid. cbn [str].
    rewrite (slice_to_nonneg _ (start_num - 1)) by lia.
    rewrite (slice_between _ (start_num - 1) num_chars) by lia.
    rewrite (slice_from_nonneg_sub _ (start_num - 1 + num_chars)) by lia.
    set (a := Z.to_nat (start_num - 1)).
    set (n := Z.to_nat num_chars).
    replace (Z.to_nat (start_num - 1 + num_chars)) with (a + n)%nat
      by (unfold a, n; lia).
    rewrite <- (substring_append old_text a n).
    pose proof (substring_append old_text 0 a
                  (n + (String.length old_text - (a + n)))) as H.
    simpl in H. rewrite <- H.
    apply substring_whole. lia.
  - intros new_text Hin. unfold replace.
    rewrite !append_length.
    rewrite (slice_to_nonneg _ (start_num - 1)) by lia.
    rewrite (slice_from_nonneg_sub _ (start_num - 1 + num_chars)) by lia.
    rewrite !substring_length. lia.
  - intros new_text. unfold replace, left. cbn [str].
    rewrite slice_from_is_slice, Z.add_0_r. reflexivity.
Qed.

Lemma replace_segment_witness :
  replace "spread" 2 3 (mid (fun _ => EmptyString) (VStr "spread") 2 3)
  = "spread"%string
  /\ (forall new_text,
        2 - 1 + 3 <= 6 ->
        Z.of_nat (String.length (replace "spread" 2 3 new_text))
        = 6 - 3 + Z.of_nat (String.length new_text))
  /\ (forall new_text,
        replace "spread" 2 0 new_text
        = (left (fun _ => EmptyString) (VStr "spread") (2 - 1)
           ++ new_text ++ Py.slice_from "spread" (2 - 1))%string).
Proof.
  apply (replace_segment (fun _ => EmptyString) "spread" 2 3); lia.
Defined.

(** ** FIND *)

Lemma drop_chars_empty (k : nat) : drop_chars k EmptyString = EmptyString.
Proof. destruct k; reflexivity. Qed.

Lemma substring_drop_chars (s : string) (k n : nat) :
  substring 0 n (drop_chars k s) = substring k n s.
Proof.
  revert s. induction k as [|k IH]; intros s; [reflexivity|].
  destruct s as [|c s]; simpl.
  - destruct n; reflexivity.
  - apply IH.
Qed.

Lemma drop_chars_length (s : string) (k : nat) :
  String.length (drop_chars k s) = (String.length s - k)%nat.
Proof.
  revert s. induction k as [|k IH]; intros s; simpl.
  - lia.
  - destruct s as [|c s]; simpl; [reflexivity|apply IH].
Qed.

Lemma drop_chars_add (a b : nat) (t : string) :
  drop_chars b (drop_chars a t) = drop_chars (a + b) t.
Proof.
  revert b t. induction a as [|a IH]; intros b t; [reflexivity|].
  destruct t as [|c t]; simpl; [apply drop_chars_empty|apply IH].
Qed.

Lemma search_unfold (sub s : string) (pos : Z) :
  Str.search sub s pos
  = if prefix sub s then pos
    else match s with
         | EmptyString => -1
         | String _ s' => Str.search sub s' (pos + 1)
         end.
Proof. destruct s; reflexivity. Qed.

(** What the search returns: the first offset at which [sub] starts. *)
Lemma search_spec (sub : string) :
  forall (s : string) (pos : Z),
  (Str.search sub s pos = -1
   /\ forall k, prefix sub (drop_chars k s) = false)
  \/ (exists j, Str.search sub s pos = pos + Z.of_nat j
               /\ (j <= String.length s)%nat
               /\ prefix sub (drop_chars j s) = true
               /\ forall k, (k < j)%nat -> prefix sub (drop_chars k s) = false).
Proof.
  induction s as [|c s IH]; intros pos; rewrite search_unfold.
  - destruct (prefix sub EmptyString) eqn:E.
    + right. exists 0%nat. rewrite Z.add_0_r.
      split; [reflexivity|split; [simpl; lia|split; [exact E|]]].
      intros k Hk. lia.
    + left. split; [reflexivity|].
      intros k. rewrite drop_chars_empty. exact E.
  - destruct (prefix sub (String c s)) eqn:E.
    + right. exists 0%nat. rewrite Z.add_0_r.
      split; [reflexivity|split; [simpl; lia|split; [exact E|]]].
      intros k Hk. lia.
    + destruct (IH (pos + 1)) as [[Hr Hno]|[j [Hr [Hj [Hyes Hno]]]]].
      * left. split; [exact Hr|].
        intros [|k]; [exact E|apply Hno].
      * right. exists (S j). rewrite Hr.
        split; [lia|split; [simpl; lia|split; [exact Hyes|]]].
        intros [|k] Hk; [exact E|apply Hno; lia].
Qed.

Lemma prefix_substring (sub s : string) (k : nat) :
  prefix sub (drop_chars k s) = true
  <-> substring k (String.length sub) s = sub.
Proof.
  rewrite <- substring_drop_chars. apply prefix_correct.
Qed.

Lemma find_spec (s sub : string) (start : Z) :
  0 <= start ->
  let r := Str.find s sub start in
  (r = -1
   /\ forall i, start <= i <= Z.of_nat (String.length s) ->
                substring (Z.to_nat i) (String.length sub) s <> sub)
  \/ (start <= r <= Z.of_nat (String.length s)
      /\ substring (Z.to_nat r) (String.length sub) s = sub
      /\ forall i, start <= i < r ->
                   substring (Z.to_nat i) (String.length sub) s <> sub).
Proof.
  intros Hs. unfold Str.find.
  assert (E : (start <? 0) = false) by (apply Z.ltb_ge; lia).
  rewrite E.
  destruct (Z.of_nat (String.length s) <? start) eqn:Hout.
  - apply Z.ltb_lt in Hout. left. split; [reflexivity|]. intros i Hi. lia.
  - apply Z.ltb_ge in Hout.
    destruct (search_spec sub (drop_chars (Z.to_nat start) s) start)
      as [[Hr Hno]|[j [Hr [Hj [Hyes Hno]]]]].
    + left. split; [exact Hr|]. intros i Hi Heq.
      specialize (Hno (Z.to_nat i - Z.to_nat start)%nat).
      rewrite drop_chars_add in Hno.
      replace (Z.to_nat start + (Z.to_nat i - Z.to_nat start))%nat
        with (Z.to_nat i) in Hno by lia.
      apply prefix_substring in Heq. congruence.
    + rewrite drop_chars_length in Hj.
      right. rewrite Hr. split; [lia|split].
      * apply prefix_substring.
        rewrite drop_chars_add in Hyes.
        replace (Z.to_nat (start + Z.of_nat j)) with (Z.to_nat start + j)%nat
          by lia.
        exact Hyes.
      * intros i Hi Heq.
        specialize (Hno (Z.to_nat i - Z.to_nat start)%nat ltac:(lia)).
        rewrite drop_chars_add in Hno.
        replace (Z.to_nat start + (Z.to_nat i - Z.to_nat start))%nat
          with (Z.to_nat i) in Hno by lia.
        apply prefix_substring in Heq. congruence.
Qed.

Lemma mid_at (str_other : value -> string) (v : value) (i : Z) (n : nat) :
  0 <= i ->
  mid str_other v (i + 1) (Z.of_nat n)
  = substring (Z.to_nat i) n (str str_other v).
Proof.
  intros Hi. unfold mid.
  replace (i + 1 - 1) with i by lia.
  rewrite (slice_between _ i (Z.of_nat n)) by lia.
  rewrite Nat2Z.id. reflexivity.
Qed.

(** X5: [find] returns a position counted from 0, at or after the start
    of the search (0, or one less than the start given, which is [>= 1]
    here): when the result is not -1, [mid] at that position (counted
    from 1) reads the text searched for, and it does not at any earlier
    position of the search; when the result is -1 the text occurs at no
    position from the start on. *)
Theorem find_position (str_other : value -> string)
  (find_text within_text : value) (args : list Z) :
  let start := match args with a :: _ => a - 1 | [] => 0 end in
  let sub := str str_other find_text in
  let r := find str_other find_text within_text args in
  let reads i :=
    mid str_other within_text (i + 1) (Z.of_nat (String.length sub)) = sub in
  0 <= start ->
  (r = -1
   /\ forall i,
        start <= i <= Z.of_nat (String.length (str str_other within_text)) ->
        ~ reads i)
  \/ (start <= r <= Z.of_nat (String.length (str str_other within_text))
      /\ reads r
      /\ forall i, start <= i < r -> ~ reads i).
Proof.
  intros start sub r reads Hs.
  assert (Hr : r = Str.find (str str_other within_text) sub start)
    by (unfold r, find, start, sub; destruct args; reflexivity).
  pose proof (find_spec (str str_other within_text) sub start Hs) as H.
  cbv zeta in H. rewrite <- Hr in H.
  destruct H as [[H1 Hno]|[Hrange [Hyes Hno]]].
  - left. split; [exact H1|]. intros i Hi. unfold reads.
    rewrite mid_at by lia. apply Hno. exact Hi.
  - right. split; [exact Hrange|split].
    + unfold reads. rewrite mid_at by lia. exact Hyes.
    + intros i Hi. unfold reads. rewrite mid_at by lia. apply Hno. exact Hi.
Qed.

Lemma find_position_witness :
  (find (fun _ => EmptyString) (VStr "ab") (VStr "xxabxab") [4] = -1
   /\ forall i, 4 - 1 <= i <= 7 ->
        mid (fun _ => EmptyString) (VStr "xxabxab") (i + 1) 2 <> "ab"%string)
  \/ (4 - 1 <= find (fun _ => EmptyString) (VStr "ab") (VStr "xxabxab") [4]
      <= 7
      /\ mid (fun _ => EmptyString) (VStr "xxabxab")
             (find (fun _ => EmptyString) (VStr "ab") (VStr "xxabxab") [4] + 1)
             2 = "ab"%string
      /\ forall i,
           4 - 1 <= i
           < find (fun _ => EmptyString) (VStr "ab") (VStr "xxabxab") [4] ->
           mid (fun _ => EmptyString) (VStr "xxabxab") (i + 1) 2
           <> "ab"%string).
Proof.
  apply (find_position (fun _ => EmptyString) (VStr "ab") (VStr "xxabxab")
           [4]).
  simpl. lia.
Defined.

(** ** TRIM *)

Lemma lstrip_head (l : list ascii) :
  match Py.lstrip l with
  | [] => True
  | c :: _ => Py.is_space c = false
  end.
Proof.
  unfold Py.lstrip. induction l as [|c l IH]; simpl; [exact I|].
  destruct (Py.is_space c) eqn:E; [exact IH|exact E].
Qed.

Lemma lstrip_fixed (c : ascii) (l : list ascii) :
  Py.is_space c = false -> Py.lstrip (c :: l) = c :: l.
Proof. intros E. unfold Py.lstrip. simpl. rewrite E. reflexivity. Qed.

Lemma lstrip_app_last (u : list ascii) (c : ascii) :
  Py.is_space c = false -> Py.lstrip (u ++ [c]) = Py.lstrip u ++ [c].
Proof.
  intros E. unfold Py.lstrip. induction u as [|d u IH]; simpl.
  - rewrite E. reflexivity.
  - destruct (Py.is_space d); [exact IH|reflexivity].
Qed.

(** What [strip] returns starts and ends with a character that is not
    white space, unless it is empty. *)
Lemma strip_edges (l : list ascii) :
  match Py.strip l with
  | [] => True
  | c :: _ => Py.is_space c = false
  end
  /\ match rev (Py.strip l) with
     | [] => True
     | c :: _ => Py.is_space c = false
     end.
Proof.
  unfold Py.strip, Py.strip_by.
  change (Py.lstrip_by Py.is_space) with Py.lstrip. rewrite rev_involutive.
  split; [|apply lstrip_head].
  pose proof (lstrip_head l) as Hh.
  destruct (Py.lstrip l) as [|c t]; [exact I|].
  simpl rev. rewrite (lstrip_app_last (rev t) c Hh).
  rewrite rev_app_distr. simpl. exact Hh.
Qed.

Lemma strip_fixed (l : list ascii) :
  match l with [] => True | c :: _ => Py.is_space c = false end ->
  match rev l with [] => True | c :: _ => Py.is_space c = false end ->
  Py.strip l = l.
Proof.
  intros Hh Ht. unfold Py.strip, Py.strip_by.
  change (Py.lstrip_by Py.is_space) with Py.lstrip.
  assert (H1 : Py.lstrip l = l).
  { destruct l as [|c t]; [reflexivity|apply lstrip_fixed; exact Hh]. }
  rewrite H1.
  assert (H2 : Py.lstrip (rev l) = rev l).
  { destruct (rev l) as [|c t]; [reflexivity|apply lstrip_fixed; exact Ht]. }
  rewrite H2. apply rev_involutive.
Qed.

(** X6: [trim] applied twice is [trim] applied once, and what it returns
    neither starts nor ends with white space. *)
Theorem trim_idempotent (text : string) :
  trim (trim text) = trim text
  /\ (forall c rest, trim text = String c rest -> Py.is_space c = false)
  /\ (forall c front,
        list_ascii_of_string (trim text) = front ++ [c] ->
        Py.is_space c = false).
Proof.
  unfold trim, Str.strip.
  destruct (strip_edges (list_ascii_of_string text)) as [Hh Ht].
  split; [|split].
  - rewrite list_ascii_of_string_of_list_ascii.
    rewrite (strip_fixed _ Hh Ht). reflexivity.
  - intros c rest H.
    destruct (Py.strip (list_ascii_of_string text)) as [|d t];
      simpl in H; [discriminate|].
    inversion H; subst. exact Hh.
  - intros c front H.
    rewrite list_ascii_of_string_of_list_ascii in H.
    rewrite H, rev_app_distr in Ht. exact Ht.
Qed.

Lemma trim_idempotent_witness :
  trim (trim "  a b ") = trim "  a b "
  /\ Py.is_space "a" = false
  /\ Py.is_space "b" = false.
Proof.
  destruct (trim_idempotent "  a b ") as [H1 [H2 H3]].
  split; [exact H1|split].
  - apply (H2 "a"%char " b"%string). reflexivity.
  - apply (H3 "b"%char ["a"%char; " "%char]). reflexivity.
Defined.

(** ** [flatten] and [raise_errors] *)

Lemma flatten_nil (check : option (value -> result bool)) :
  flatten (VArray []) check = ([], None).
Proof. reflexivity. Qed.

Lemma flatten_walk_ind (P : generator -> Prop)
  (check : option (value -> result bool)) (items : list value) :
  P ([], None) ->
  (forall el ys ex,
      In el items -> flatten el check = (ys, Some ex) -> P (ys, Some ex)) ->
  (forall el ys zs e,
      In el items -> flatten el check = (ys, None) ->
      P (zs, e) -> P (ys ++ zs, e)) ->
  P (flatten (VArray items) check).
Proof.
  intros Hnil Hstop Hgo.
  induction items as [|el els IH]; [exact Hnil|].
  rewrite flatten_cons.
  destruct (flatten el check) as [ys [ex|]] eqn:E.
  - apply (Hstop el ys ex (or_introl eq_refl) E).
  - assert (Hrest : P (flatten (VArray els) check)).
    { apply IH.
      - intros el' ys' ex' Hin. apply (Hstop el'). right. exact Hin.
      - intros el' ys' zs' e' Hin. apply (Hgo el'). right. exact Hin. }
    destruct (flatten (VArray els) check) as [zs e].
    apply (Hgo el ys zs e (or_introl eq_refl) E Hrest).
Qed.

Lemma flatten_leaf (l : value) (check : option (value -> result bool)) :
  is_scalar l = true ->
  flatten l check
  = match check with
    | None => ([l], None)
    | Some c =>
        match c l with
        | Ok true => ([l], None)
        | Ok false => ([], None)
        | Raise ex => ([], Some ex)
        end
    end.
Proof. destruct l; intros H; try discriminate; reflexivity. Qed.

Lemma flatten_leaf_yields (l : value)
  (check : option (value -> result bool)) (v : value) :
  is_scalar l = true ->
  In v (fst (flatten l check)) ->
  is_scalar v = true
  /\ (forall c, check = Some c -> c v = Ok true).
Proof.
  intros Hl Hin. rewrite (flatten_leaf l check Hl) in Hin.
  destruct check as [c|].
  - destruct (c l) as [[|]|ex] eqn:E; simpl in Hin; try contradiction.
    destruct Hin as [<-|[]].
    split; [exact Hl|intros c' Hc; congruence].
  - simpl in Hin. destruct Hin as [<-|[]].
    split; [exact Hl|intros c' Hc; discriminate].
Qed.

(** X7: [flatten] only yields leaves, never a tuple or an array, and
    under a check it only yields values the check accepts. *)
Theorem flatten_yields (l : value) (check : option (value -> result bool))
  (v : value) :
  In v (fst (flatten l check)) ->
  is_scalar v = true
  /\ (forall c, check = Some c -> c v = Ok true).
Proof.
  revert v.
  induction l using value_nested_ind; intros v Hin;
    try (refine (flatten_leaf_yields _ check v _ Hin); reflexivity);
    try (simpl in Hin; contradiction).
  - rewrite flatten_tuple in Hin. revert v Hin.
    apply (flatten_walk_ind
             (fun g => forall v, In v (fst g) ->
                is_scalar v = true
                /\ (forall c, check = Some c -> c v = Ok true))
             check items).
    + intros v [].
    + intros el ys ex Hel E v Hv.
      rewrite Forall_forall in H. apply (H el Hel). rewrite E. exact Hv.
    + intros el ys zs e Hel E IHzs v Hv. simpl in Hv.
      apply in_app_or in Hv as [Hv|Hv].
      * rewrite Forall_forall in H. apply (H el Hel). rewrite E. exact Hv.
      * apply IHzs. exact Hv.
  - revert v Hin.
    apply (flatten_walk_ind
             (fun g => forall v, In v (fst g) ->
                is_scalar v = true
                /\ (forall c, check = Some c -> c v = Ok true))
             check items).
    + intros v [].
    + intros el ys ex Hel E v Hv.
      rewrite Forall_forall in H. apply (H el Hel). rewrite E. exact Hv.
    + intros el ys zs e Hel E IHzs v Hv. simpl in Hv.
      apply in_app_or in Hv as [Hv|Hv].
      * rewrite Forall_forall in H. apply (H el Hel). rewrite E. exact Hv.
      * apply IHzs. exact Hv.
Qed.

Lemma flatten_yields_witness :
  is_scalar (VStr "7") = true
  /\ (forall c, Some is_number = Some c -> c (VStr "7") = Ok true).
Proof.
  apply (flatten_yields
           (VTuple [VArray [VArray [VInt 1; VStr "x"]; VArray [VStr "7"]]])
           (Some is_number) (VStr "7")).
  vm_compute. right. left. reflexivity.
Defined.

Lemma flatten_single (l : value) (check : option (value -> result bool)) :
  flatten (VTuple [l]) check = flatten l check.
Proof.
  rewrite flatten_tuple, flatten_cons, flatten_nil.
  destruct (flatten l check) as [ys [ex|]]; [reflexivity|].
  rewrite app_nil_r. reflexivity.
Qed.

Lemma flatten_app (xs ys : list value)
  (check : option (value -> result bool)) :
  flatten (VTuple (xs ++ ys)) check
  = match flatten (VTuple xs) check with
    | (a, Some ex) => (a, Some ex)
    | (a, None) =>
        let '(b, e) := flatten (VTuple ys) check in (a ++ b, e)
    end.
Proof.
  rewrite !flatten_tuple.
  induction xs as [|x xs IH].
  - rewrite flatten_nil. simpl app.
    destruct (flatten (VArray ys) check) as [b e]. reflexivity.
  - change ((x :: xs) ++ ys) with (x :: (xs ++ ys)).
    rewrite !flatten_cons, IH.
    destruct (flatten x check) as [a0 [ex|]]; [reflexivity|].
    destruct (flatten (VArray xs) check) as [a [ex|]]; [reflexivity|].
    destruct (flatten (VArray ys) check) as [b e].
    rewrite app_assoc. reflexivity.
Qed.

(** X8: the walk does not see how the arguments are grouped.  A tuple
    around one value changes nothing, a tuple and an array with the same
    items are walked alike, and the walk of a concatenation is the walk
    of the first part followed, unless it stopped, by the walk of the
    second; so [raise_errors], [xsum] and [average] return the same
    whether they get the arguments or one tuple holding them. *)
Theorem flatten_regroup :
  (forall l check, flatten (VTuple [l]) check = flatten l check)
  /\ (forall items check,
        flatten (VArray items) check = flatten (VTuple items) check)
  /\ (forall xs ys check,
        flatten (VTuple (xs ++ ys)) check
        = match flatten (VTuple xs) check with
          | (a, Some ex) => (a, Some ex)
          | (a, None) =>
              let '(b, e) := flatten (VTuple ys) check in (a ++ b, e)
          end)
  /\ (forall args, raise_errors [VTuple args] = raise_errors args)
  /\ (forall args, xsum [VTuple args] = xsum args)
  /\ (forall args, average [VTuple args] = average args).
Proof.
  split; [exact flatten_single|split; [reflexivity|split;
                                                   [exact flatten_app|]]].
  assert (Hr : forall args, raise_errors [VTuple args] = raise_errors args).
  { intros args. unfold raise_errors. rewrite flatten_single. reflexivity. }
  split; [exact Hr|split].
  - intros args. unfold xsum. rewrite Hr, flatten_single. reflexivity.
  - intros args. unfold average. rewrite flatten_single. reflexivity.
Qed.

(** X9: a check that answers without failing on the leaves only filters
    them: the walk yields the accepted leaves in the same order and stops
    where the unchecked walk stops. *)
Theorem flatten_check_filter (l : value) (c : value -> result bool)
  (p : value -> bool) :
  (forall v, In v (fst (flatten l None)) -> c v = Ok (p v)) ->
  flatten l (Some c)
  = (filter p (fst (flatten l None)), snd (flatten l None)).
Proof.
  induction l using value_nested_ind; intros Hc;
    try (rewrite !flatten_leaf in * by reflexivity;
         rewrite (Hc _ (or_introl eq_refl)); simpl;
         destruct (p _); reflexivity);
    try reflexivity.
  - rewrite !flatten_tuple in *.
    induction H as [|x xs Hx Hxs IH]; [reflexivity|].
    rewrite !flatten_cons in *.
    destruct (flatten x None) as [a [ex|]] eqn:Ea.
    + rewrite (Hx Hc). reflexivity.
    + assert (Hcx : forall v, In v a -> c v = Ok (p v)).
      { intros v Hv. apply Hc.
        destruct (flatten (VArray xs) None) as [b e]. simpl.
        apply in_or_app. left. exact Hv. }
      rewrite (Hx Hcx).
      assert (Hcxs : forall v, In v (fst (flatten (VArray xs) None)) ->
                               c v = Ok (p v)).
      { intros v Hv. apply Hc.
        destruct (flatten (VArray xs) None) as [b e]. simpl in *.
        apply in_or_app. right. exact Hv. }
      rewrite (IH Hcxs).
      destruct (flatten (VArray xs) None) as [b e]. simpl.
      rewrite filter_app. reflexivity.
  - induction H as [|x xs Hx Hxs IH]; [reflexivity|].
    rewrite !flatten_cons in *.
    destruct (flatten x None) as [a [ex|]] eqn:Ea.
    + rewrite (Hx Hc). reflexivity.
    + assert (Hcx : forall v, In v a -> c v = Ok (p v)).
      { intros v Hv. apply Hc.
        destruct (flatten (VArray xs) None) as [b e]. simpl.
        apply in_or_app. left. exact Hv. }
      rewrite (Hx Hcx).
      assert (Hcxs : forall v, In v (fst (flatten (VArray xs) None)) ->
                               c v = Ok (p v)).
      { intros v Hv. apply Hc.
        destruct (flatten (VArray xs) None) as [b e]. simpl in *.
        apply in_or_app. right. exact Hv. }
      rewrite (IH Hcxs).
      destruct (flatten (VArray xs) None) as [b e]. simpl.
      rewrite filter_app. reflexivity.
Qed.

Lemma flatten_check_filter_witness :
  flatten (VTuple [VArray [VInt 1; VStr "x"]; VFloat F64.zero])
          (Some is_number)
  = (filter is_numeric
       (fst (flatten (VTuple [VArray [VInt 1; VStr "x"]; VFloat F64.zero])
                     None)),
     snd (flatten (VTuple [VArray [VInt 1; VStr "x"]; VFloat F64.zero])
                  None)).
Proof.
  apply (flatten_check_filter
           (VTuple [VArray [VInt 1; VStr "x"]; VFloat F64.zero])
           is_number is_numeric).
  intros v Hv. simpl in Hv.
  destruct Hv as [<-|[<-|[<-|[]]]]; reflexivity.
Defined.

(** ** The elementwise wrapper on ranges *)

Lemma shaped_ndim (d : nat) :
  forall a, shaped d a = true -> Np.ndim a = d.
Proof.
  induction d as [|d IH]; intros a Ha.
  - simpl in Ha. destruct a; try discriminate; reflexivity.
  - destruct a as [| | | | | | | | |[|x l]|]; try discriminate.
    simpl in Ha. apply andb_true_iff in Ha as [Hx _].
    simpl. rewrite (IH x Hx). reflexivity.
Qed.

Lemma shaped_replace_empty (d : nat) :
  forall a, shaped d a = true -> shaped d (replace_empty a) = true.
Proof.
  induction d as [|d IH]; intros a Ha.
  - apply plain_cell_replace_empty. exact Ha.
  - destruct a as [| | | | | | | | |[|x l]|]; try discriminate.
    simpl in Ha. apply andb_true_iff in Ha as [Hx Hl].
    simpl. rewrite (IH x Hx). simpl.
    clear Hx. induction l as [|y l IHl]; [reflexivity|].
    simpl in Hl |- *. apply andb_true_iff in Hl as [Hy Hl].
    rewrite (IH y Hy), (IHl Hl). reflexivity.
Qed.

Lemma plain_cell_scalar (v : value) :
  plain_cell v = true -> is_scalar v = true.
Proof. destruct v; simpl; intros H; try discriminate; reflexivity. Qed.

Lemma mapM_ext_in {A B : Type} (f g : A -> result B) (l : list A) :
  (forall x, In x l -> f x = g x) -> Np.mapM f l = Np.mapM g l.
Proof.
  induction l as [|x l IH]; intros H; simpl; [reflexivity|].
  rewrite (H x (or_introl eq_refl)).
  rewrite IH by (intros y Hy; apply H; right; exact Hy).
  reflexivity.
Qed.

Lemma mapM_seq_nth_from {A B : Type} (h : A -> result B) (d : A)
  (l pre : list A) :
  Np.mapM (fun i => h (nth i (pre ++ l) d))
          (seq (List.length pre) (List.length l))
  = Np.mapM h l.
Proof.
  revert pre. induction l as [|x l IH]; intros pre; [reflexivity|].
  cbn [List.length seq Np.mapM].
  rewrite nth_middle.
  specialize (IH (pre ++ [x])).
  rewrite <- app_assoc, length_app in IH. cbn [List.length app] in IH.
  rewrite Nat.add_1_r in IH. rewrite IH. reflexivity.
Qed.

Lemma mapM_seq_nth {A B : Type} (h : A -> result B) (l : list A) (d : A) :
  Np.mapM (fun i => h (nth i l d)) (seq 0 (List.length l)) = Np.mapM h l.
Proof. exact (mapM_seq_nth_from h d l []). Qed.

Lemma common_length_one (k : nat) : Np.common_length 1 [k] = Some k.
Proof.
  simpl. destruct (k =? 1)%nat eqn:E; [|reflexivity].
  apply Nat.eqb_eq in E. subst. reflexivity.
Qed.

Lemma filter_full_scalars (d : nat) (ys : list value) :
  forallb is_scalar ys = true ->
  filter (fun a => (Np.ndim a =? S d)%nat) ys = [].
Proof.
  induction ys as [|y ys IH]; simpl; [reflexivity|].
  intros H. apply andb_true_iff in H as [Hy Hys].
  rewrite (ndim_scalar y Hy). simpl. apply IH. exact Hys.
Qed.

Lemma map_pick_scalars (d i : nat) (ys : list value) :
  forallb is_scalar ys = true -> map (Np.pick (S d) i) ys = ys.
Proof.
  induction ys as [|y ys IH]; simpl; [reflexivity|].
  intros H. apply andb_true_iff in H as [Hy Hys].
  rewrite (IH Hys). unfold Np.pick. rewrite (ndim_scalar y Hy). reflexivity.
Qed.

Lemma pick_item (d i : nat) (x : value) (l : list value) :
  Np.ndim (VArray (x :: l)) = S d ->
  (i < List.length (x :: l))%nat ->
  Np.pick (S d) i (VArray (x :: l)) = nth i (x :: l) VNone.
Proof.
  intros Hd Hi. unfold Np.pick. rewrite Hd, Nat.eqb_refl.
  cbn [Np.items_of]. destruct l as [|y l]; [|reflexivity].
  simpl in Hi. destruct i as [|i]; [reflexivity|lia].
Qed.

(** One range and scalars: the loop of [np.vectorize] calls the function
    once per leaf of the range, with the scalars repeated, and the
    results keep the shape of the range. *)
Lemma broadcast_shaped (f : list value -> result value)
  (g : value -> value) (ys : list value) (d : nat) :
  forallb is_scalar ys = true ->
  forall a,
  shaped d a = true ->
  (forall v, In v (Np.ravel a) -> f (v :: ys) = Ok (g v)) ->
  Np.broadcast f d (a :: ys) = Ok (map_leaves g a).
Proof.
  intros Hys. induction d as [|d IH]; intros a Ha Hf.
  - simpl in Ha. pose proof (plain_cell_scalar a Ha) as Hsc.
    cbn [Np.broadcast map].
    rewrite (leaf_of_scalar a Hsc), (map_leaf_of_scalars ys Hys).
    rewrite Hf by (destruct a; try discriminate; left; reflexivity).
    destruct a; try discriminate; reflexivity.
  - pose proof (shaped_ndim (S d) a Ha) as Hnd.
    destruct a as [| | | | | | | | |[|x l]|]; try discriminate.
    cbn [Np.broadcast filter]. rewrite Hnd, Nat.eqb_refl.
    rewrite (filter_full_scalars d ys Hys).
    cbn [map Np.items_of]. rewrite common_length_one.
    rewrite (mapM_ext_in _
               (fun i => Np.broadcast f d (nth i (x :: l) VNone :: ys))).
    2:{ intros i Hi. apply in_seq in Hi. cbn [map].
        rewrite (pick_item d i x l Hnd) by lia.
        rewrite (map_pick_scalars d i ys Hys). reflexivity. }
    rewrite (mapM_seq_nth (fun v => Np.broadcast f d (v :: ys)) (x :: l) VNone).
    rewrite (mapM_ok _ (map_leaves g) (x :: l)).
    + reflexivity.
    + intros v Hv. apply IH.
      * simpl in Ha. change (forallb (shaped d) (x :: l) = true) in Ha.
        rewrite forallb_forall in Ha. apply Ha. exact Hv.
      * intros w Hw. apply Hf. rewrite ravel_array.
        apply in_flat_map. exists v. split; assumption.
Qed.

Lemma float_cell_raises (v : value) (ex : exn) :
  plain_cell v = true -> Py.float v = Raise ex ->
  ex = ValueError \/ ex = TypeError.
Proof.
  intros Hc Hr. destruct (float_raises v ex Hr) as [H|[H|H]]; auto.
  subst ex. destruct v; simpl in Hc, Hr; try discriminate.
  - apply negb_true_iff in Hc.
    rewrite (int_to_float_in_range z Hc) in Hr. discriminate.
  - destruct (Py.str_to_float s); discriminate.
  - rewrite error_names_not_numeric in Hr. discriminate.
Qed.

Lemma safe_eval_cells (func : ufunc) (vals : list value) :
  forallb plain_cell vals = true ->
  (forall fs ex, func fs = Raise ex -> ex = TypeError \/ ex = ValueError) ->
  exists r, safe_eval func vals = Ok r.
Proof.
  intros Hc Hfunc. unfold safe_eval.
  destruct (Np.mapM Py.float vals) as [fs|ex] eqn:Hfs.
  - cbn [bind]. destruct (func fs) as [[x|e]|ex] eqn:Hr; cbn [bind].
    + destruct (Np.isnan_or_isinf x); eexists; reflexivity.
    + eexists; reflexivity.
    + destruct (Hfunc fs ex Hr) as [-> | ->]; eexists; reflexivity.
  - destruct (mapM_raises _ _ _ Hfs) as [v [Hv Hr]].
    rewrite forallb_forall in Hc.
    destruct (float_cell_raises v ex (Hc v Hv) Hr) as [-> | ->];
      eexists; reflexivity.
Qed.

Lemma shaped_cells_only (d : nat) :
  forall a, shaped d a = true -> cells_only a = true.
Proof.
  induction d as [|d IH]; intros a Ha.
  - simpl in Ha. destruct a; try discriminate; exact Ha.
  - destruct a as [| | | | | | | | |[|x l]|]; try discriminate.
    change (forallb (shaped d) (x :: l) = true) in Ha.
    change (forallb cells_only (x :: l) = true).
    rewrite forallb_forall in Ha |- *.
    intros y Hy. apply IH. apply Ha. exact Hy.
Qed.

Lemma max_ndim_range (a : value) (ys : list value) :
  forallb is_scalar ys = true ->
  Np.max_ndim (a :: ys) = Np.ndim a.
Proof.
  intros Hys. cbn [Np.max_ndim fold_right].
  change (fold_right (fun a0 m => Nat.max (Np.ndim a0) m) 0%nat ys)
    with (Np.max_ndim ys).
  rewrite (max_ndim_scalars ys Hys). apply Nat.max_0_r.
Qed.

Lemma forallb_plain_scalar (ys : list value) :
  forallb plain_cell ys = true -> forallb is_scalar ys = true.
Proof.
  induction ys as [|y ys IH]; simpl; [reflexivity|].
  intros H. apply andb_true_iff in H as [Hy Hys].
  rewrite (plain_cell_scalar y Hy), (IH Hys). reflexivity.
Qed.

(** X10: an elementwise function applied to a range and scalar cells,
    fewer than [NPY_MAXARGS] arguments in all, returns an array of the
    shape of the range; at each position stands
    what [safe_eval] returns for the leaf of the range at that position
    and the scalars (empty cells counting as 0).  For a function of one
    double this is the number it returns for the leaf, [#NUM!] when that
    number is not-a-number or infinite, [#VALUE!] when the leaf does not
    convert. *)
Theorem wrap_ufunc_elementwise (func : ufunc) (d : nat) (a : value)
  (ys : list value) :
  shaped (S d) a = true ->
  forallb plain_cell ys = true ->
  (List.length (a :: ys) < Np.NPY_MAXARGS)%nat ->
  (forall fs ex, func fs = Raise ex -> ex = TypeError \/ ex = ValueError) ->
  wrap_ufunc func (a :: ys)
    = Ok (map_leaves (eval_leaf func (map replace_empty ys))
                     (replace_empty a))
  /\ (forall f v x,
        Py.float v = Ok x ->
        eval_leaf (unary f) [] v
        = if Np.isnan_or_isinf (f x) then VErr NUM else VFloat (f x))
  /\ (forall f v ex,
        plain_cell v = true -> Py.float v = Raise ex ->
        eval_leaf (unary f) [] v = VErr VALUE).
Proof.
  intros Ha Hys Hlen Hfunc. split; [|split].
  - unfold wrap_ufunc, wrap_func, wrapper, Np.vectorize.
    rewrite map_replace_empty_idem. cbn [map].
    assert (Hlen' : (Np.NPY_MAXARGS
                     <? List.length (replace_empty a :: map replace_empty ys)
                        + 1)%nat = false)
      by (apply Nat.ltb_ge; cbn [List.length] in *; rewrite length_map; lia).
    rewrite Hlen'.
    pose proof (shaped_replace_empty (S d) a Ha) as Ha'.
    pose proof (forallb_map_replace_empty plain_cell ys
                  plain_cell_replace_empty Hys) as Hys'.
    pose proof (forallb_plain_scalar _ Hys') as Hsc.
    rewrite (max_ndim_range _ _ Hsc), (shaped_ndim (S d) _ Ha').
    rewrite (broadcast_shaped (safe_eval func)
               (eval_leaf func (map replace_empty ys))
               (map replace_empty ys) (S d) Hsc (replace_empty a) Ha').
    + reflexivity.
    + intros v Hv. unfold eval_leaf.
      destruct (safe_eval_cells func (v :: map replace_empty ys))
        as [r Hr]; [|exact Hfunc|rewrite Hr; reflexivity].
      cbn [forallb]. rewrite Hys', andb_true_r.
      pose proof (ravel_cells _ (shaped_cells_only (S d) _ Ha')) as Hall.
      rewrite forallb_forall in Hall. apply Hall. exact Hv.
  - intros f v x Hx. unfold eval_leaf.
    rewrite (safe_eval_number (unary f) [v] [x] (f x));
      [reflexivity|simpl; rewrite Hx; reflexivity|reflexivity].
  - intros f v ex Hc Hr. unfold eval_leaf.
    pose proof (safe_eval_coercion_fails (unary f) [] [] v (Forall_nil _))
      as Hv. cbn [app] in Hv.
    destruct (float_cell_raises v ex Hc Hr) as [-> | ->];
      rewrite Hv; auto.
Qed.

Lemma wrap_ufunc_elementwise_witness :
  wrap_ufunc (unary F64.abs)
             [VArray [VArray [VInt (-1); VStr "x"]; VArray [VEmpty; VStr "-2"]]]
  = Ok (VArray [VArray [VFloat (F64.of_Z 1); VErr VALUE];
                VArray [VFloat F64.zero; VFloat (F64.of_Z 2)]])
  /\ eval_leaf (unary F64.abs) [] (VInt (-1)) = VFloat (F64.of_Z 1)
  /\ eval_leaf (unary F64.abs) [] (VStr "x") = VErr VALUE.
Proof.
  assert (Hf : forall fs ex, unary F64.abs fs = Raise ex ->
                             ex = TypeError \/ ex = ValueError).
  { intros [|x [|y fs]] ex H; simpl in H; inversion H; auto. }
  destruct (wrap_ufunc_elementwise (unary F64.abs) 1
              (VArray [VArray [VInt (-1); VStr "x"];
                       VArray [VEmpty; VStr "-2"]]) []
              eq_refl eq_refl (proj1 (Nat.ltb_lt 1 32) eq_refl) Hf)
    as [H1 [H2 H3]].
  split; [exact H1|split].
  - apply (H2 F64.abs (VInt (-1)) (F64.of_Z (-1))); reflexivity.
  - apply (H3 F64.abs (VStr "x") ValueError); reflexivity.
Defined.

(** ** MOD and the number of arguments *)

(** X11: [MOD(x, 0)] is [#DIV/0!] for every number [x], the zero
    divisor being tested before the primitive is called; with any other
    divisor [MOD] returns what the primitive returns, [#NUM!] standing
    for a result that is not-a-number or infinite. *)
Theorem MOD_spec (np_mod : float64 -> float64 -> float64)
  (x y : value) (fx fy : float64) :
  is_scalar x = true -> is_scalar y = true ->
  Py.float x = Ok fx -> Py.float y = Ok fy ->
  (F64.eqb fy F64.zero = true ->
   MOD np_mod [x; y] = Ok (VArray0 (VErr DIV0)))
  /\ (F64.eqb fy F64.zero = false ->
      MOD np_mod [x; y]
      = Ok (VArray0 (if Np.isnan_or_isinf (np_mod fx fy)
                     then VErr NUM else VFloat (np_mod fx fy)))).
Proof.
  intros Hx Hy Hfx Hfy. split; intros Hz; unfold MOD.
  - apply (wrap_ufunc_binary (xmod np_mod) x y fx fy (Err DIV0));
      try assumption.
    unfold xmod. rewrite Hz. reflexivity.
  - apply (wrap_ufunc_binary (xmod np_mod) x y fx fy
             (Num (np_mod fx fy))); try assumption.
    unfold xmod. rewrite Hz. reflexivity.
Qed.

Lemma MOD_spec_witness :
  MOD (fun a b => a) [VInt 7; VStr "-0.0"] = Ok (VArray0 (VErr DIV0))
  /\ MOD (fun a b => a) [VInt 7; VInt 2]
     = Ok (VArray0 (VFloat (F64.of_Z 7))).
Proof.
  split.
  - apply (MOD_spec (fun a b => a) (VInt 7) (VStr "-0.0")
             (F64.of_Z 7) (S754_zero true)); vm_compute; reflexivity.
  - apply (MOD_spec (fun a b => a) (VInt 7) (VInt 2)
             (F64.of_Z 7) (F64.of_Z 2)); vm_compute; reflexivity.
Defined.

Lemma mapM_length {A B : Type} (f : A -> result B) (l : list A)
  (r : list B) :
  Np.mapM f l = Ok r -> List.length r = List.length l.
Proof.
  revert r. induction l as [|x l IH]; intros r H; simpl in H.
  - inversion H. reflexivity.
  - destruct (f x) as [y|ex]; cbn [bind] in H; [|discriminate].
    destruct (Np.mapM f l) as [ys|ex]; cbn [bind] in H; [|discriminate].
    inversion H. simpl. rewrite (IH ys eq_refl). reflexivity.
Qed.

(** X12: a function of two numbers ([ATAN2], [MOD], [POWER]) called
    with one scalar cell, or with three or more, fails inside
    [safe_eval] with a [TypeError] that is caught: the result is
    [#VALUE!], not a fault.  This holds below [NPY_MAXARGS] arguments;
    from there on numpy refuses to build the ufunc, outside [safe_eval],
    and the call ends in its [ValueError]. *)
Theorem wrap_ufunc_binary_arity (g : float64 -> float64 -> result scalar)
  (args : list value) :
  forallb plain_cell args = true ->
  args <> [] ->
  List.length args <> 2%nat ->
  ((List.length args < Np.NPY_MAXARGS)%nat ->
   wrap_ufunc (binary g) args = Ok (VArray0 (VErr VALUE)))
  /\ ((Np.NPY_MAXARGS <= List.length args)%nat ->
      wrap_ufunc (binary g) args = Raise ValueError).
Proof.
  intros Hc Hne Hlen. split; intros Hmax.
  2: { unfold wrap_ufunc, wrap_func, wrapper, Np.vectorize.
       rewrite map_replace_empty_idem.
       assert (Hlen' : (Np.NPY_MAXARGS
                        <? List.length (map replace_empty args) + 1)%nat
                       = true)
         by (apply Nat.ltb_lt; rewrite length_map; lia).
       revert Hlen'.
       destruct (map replace_empty args) as [|v l] eqn:E;
         [destruct args; [congruence|discriminate]|].
       intros ->. reflexivity. }
  apply wrap_ufunc_scalars;
    [exact Hne|exact Hmax|apply forallb_plain_scalar; exact Hc|].
  pose proof (forallb_map_replace_empty plain_cell args
                plain_cell_replace_empty Hc) as Hc'.
  assert (Hlen' : List.length (map replace_empty args) <> 2%nat)
    by (rewrite length_map; exact Hlen).
  revert Hc' Hlen'. generalize (map replace_empty args) as vals.
  intros vals Hc' Hlen'. unfold safe_eval.
  destruct (Np.mapM Py.float vals) as [fs|ex] eqn:Hfs.
  - cbn [bind]. apply mapM_length in Hfs.
    destruct fs as [|a [|b [|c fs]]]; try reflexivity.
    simpl in Hfs. congruence.
  - destruct (mapM_raises _ _ _ Hfs) as [v [Hv Hr]].
    rewrite forallb_forall in Hc'.
    destruct (float_cell_raises v ex (Hc' v Hv) Hr) as [-> | ->];
      reflexivity.
Qed.

Lemma wrap_ufunc_binary_arity_witness :
  POWER Ref.power [VInt 2] = Ok (VArray0 (VErr VALUE))
  /\ ATAN2 Ref.arctan2 [VInt 1; VInt 2; VInt 3] = Ok (VArray0 (VErr VALUE))
  /\ POWER Ref.power (repeat (VInt 1) 32) = Raise ValueError.
Proof.
  split; [|split].
  - apply (wrap_ufunc_binary_arity (xpower Ref.power) [VInt 2]);
      [reflexivity|discriminate|simpl; lia|unfold Np.NPY_MAXARGS; simpl; lia].
  - apply (wrap_ufunc_binary_arity (xarctan2 Ref.arctan2)
             [VInt 1; VInt 2; VInt 3]);
      [reflexivity|discriminate|simpl; lia|unfold Np.NPY_MAXARGS; simpl; lia].
  - apply (wrap_ufunc_binary_arity (xpower Ref.power) (repeat (VInt 1) 32));
      [reflexivity|discriminate|simpl; lia|unfold Np.NPY_MAXARGS; simpl; lia].
Defined.

(** ** Order of numbers *)

Lemma scaled_split (m e k k0 : Z) :
  k <= k0 -> k0 <= e ->
  Ord.scaled m e k = Ord.scaled m e k0 * 2 ^ (k0 - k).
Proof.
  intros H1 H2. unfold Ord.scaled.
  rewrite <- Z.mul_assoc, <- Z.pow_add_r by lia.
  do 2 f_equal. lia.
Qed.

(** The comparison of two finite numbers does not depend on the unit
    they are counted in. *)
Lemma fin_ltb_at (m1 e1 m2 e2 k : Z) :
  k <= e1 -> k <= e2 ->
  (Ord.scaled m1 e1 (Z.min e1 e2) <? Ord.scaled m2 e2 (Z.min e1 e2))
  = (Ord.scaled m1 e1 k <? Ord.scaled m2 e2 k).
Proof.
  intros H1 H2.
  rewrite (scaled_split m1 e1 k (Z.min e1 e2)) by lia.
  rewrite (scaled_split m2 e2 k (Z.min e1 e2)) by lia.
  assert (Hp : 0 < 2 ^ (Z.min e1 e2 - k))
    by (apply Z.pow_pos_nonneg; lia).
  destruct (Ord.scaled m1 e1 (Z.min e1 e2)
            <? Ord.scaled m2 e2 (Z.min e1 e2)) eqn:E; symmetry.
  - apply Z.ltb_lt in E. apply Z.ltb_lt.
    apply Z.mul_lt_mono_pos_r; assumption.
  - apply Z.ltb_ge in E. apply Z.ltb_ge.
    apply Z.mul_le_mono_nonneg_r; [lia|assumption].
Qed.

Lemma num_ltb_irrefl (x : Ord.xnum) : Ord.num_ltb x x = false.
Proof.
  destruct x as [|[]|m e]; simpl; try reflexivity.
  apply Z.ltb_irrefl.
Qed.

Lemma num_ltb_trans (x y z : Ord.xnum) :
  Ord.num_ltb x y = true -> Ord.num_ltb y z = true ->
  Ord.num_ltb x z = true.
Proof.
  destruct x as [|[]|m1 e1], y as [|[]|m2 e2], z as [|[]|m3 e3];
    simpl; intros H1 H2; try discriminate; try reflexivity.
  set (k := Z.min e1 (Z.min e2 e3)).
  rewrite (fin_ltb_at m1 e1 m2 e2 k) in H1 by (unfold k; lia).
  rewrite (fin_ltb_at m2 e2 m3 e3 k) in H2 by (unfold k; lia).
  rewrite (fin_ltb_at m1 e1 m3 e3 k) by (unfold k; lia).
  apply Z.ltb_lt in H1. apply Z.ltb_lt in H2. apply Z.ltb_lt. lia.
Qed.

Lemma is_num_value (v : value) :
  is_num v = true -> exists x, Ord.of_value v = Some x.
Proof.
  unfold is_num. destruct (Ord.of_value v) as [x|]; [|discriminate].
  intros _. exists x. reflexivity.
Qed.

(** ** The loop of [max] and [min] on numbers *)

Section BestOfNumbers.

Variable better : value -> value -> result bool.
Variable R : Ord.xnum -> Ord.xnum -> bool.
Hypothesis better_numbers :
  forall a b x y, Ord.of_value a = Some x -> Ord.of_value b = Some y ->
                  better a b = Ok (R x y).
Hypothesis R_irrefl : forall x, R x x = false.
Hypothesis R_trans :
  forall x y z, R x y = true -> R y z = true -> R x z = true.

Lemma best_from_numbers (l : list value) :
  forall (best : value) (seen : list value),
  is_num best = true ->
  forallb is_num l = true ->
  forallb is_num seen = true ->
  (forall p, In p seen -> better p best = Ok false) ->
  exists m,
    Ord.best_from better best l = Ok m
    /\ (m = best \/ In m l)
    /\ (forall p, In p seen \/ p = best \/ In p l -> better p m = Ok false).
Proof.
  induction l as [|x l IH]; intros best seen Hb Hl Hs Hseen.
  - exists best. split; [reflexivity|split; [left; reflexivity|]].
    intros p [Hp|[->|[]]]; [apply Hseen; exact Hp|].
    destruct (is_num_value best Hb) as [b Eb].
    rewrite (better_numbers best best b b Eb Eb), R_irrefl. reflexivity.
  - simpl in Hl. apply andb_true_iff in Hl as [Hx Hl].
    destruct (is_num_value best Hb) as [b Eb].
    destruct (is_num_value x Hx) as [xv Ex].
    cbn [Ord.best_from].
    rewrite (better_numbers x best xv b Ex Eb). cbn [bind].
    destruct (R xv b) eqn:Exb.
    + destruct (IH x (best :: seen) Hx Hl) as [m [Hm [Hin Hall]]].
      * simpl. rewrite Hb, Hs. reflexivity.
      * intros p [<-|Hp].
        -- rewrite (better_numbers best x b xv Eb Ex).
           destruct (R b xv) eqn:Ebx; [|reflexivity].
           pose proof (R_trans xv b xv Exb Ebx) as Hc.
           rewrite R_irrefl in Hc. discriminate.
        -- rewrite forallb_forall in Hs.
           destruct (is_num_value p (Hs p Hp)) as [pv Ep].
           rewrite (better_numbers p x pv xv Ep Ex).
           destruct (R pv xv) eqn:Epx; [|reflexivity].
           pose proof (Hseen p Hp) as Hpb.
           rewrite (better_numbers p best pv b Ep Eb) in Hpb.
           rewrite (R_trans pv xv b Epx Exb) in Hpb. discriminate.
      * exists m. split; [exact Hm|split].
        -- destruct Hin as [->|Hin]; right; [left; reflexivity|right; exact Hin].
        -- intros p [Hp|[->|[<-|Hp]]]; apply Hall.
           ++ left. right. exact Hp.
           ++ left. left. reflexivity.
           ++ right. left. reflexivity.
           ++ right. right. exact Hp.
    + destruct (IH best (x :: seen) Hb Hl) as [m [Hm [Hin Hall]]].
      * simpl. rewrite Hx, Hs. reflexivity.
      * intros p [<-|Hp]; [|apply Hseen; exact Hp].
        rewrite (better_numbers x best xv b Ex Eb), Exb. reflexivity.
      * exists m. split; [exact Hm|split].
        -- destruct Hin as [->|Hin]; [left; reflexivity|right; right; exact Hin].
        -- intros p [Hp|[->|[<-|Hp]]]; apply Hall.
           ++ left. right. exact Hp.
           ++ right. left. reflexivity.
           ++ left. left. reflexivity.
           ++ right. right. exact Hp.
Qed.

Lemma best_of_numbers (l : list value) :
  forallb is_num l = true ->
  l <> [] ->
  exists m,
    Ord.best_of better (l, None) = Ok m
    /\ In m l
    /\ (forall p, In p l -> better p m = Ok false).
Proof.
  intros Hl Hne. destruct l as [|x l]; [congruence|].
  simpl in Hl. apply andb_true_iff in Hl as [Hx Hl].
  destruct (best_from_numbers l x [] Hx Hl eq_refl) as [m [Hm [Hin Hall]]];
    [intros p []|].
  exists m. cbn [Ord.best_of]. rewrite Hm. cbn [bind].
  split; [reflexivity|split].
  - destruct Hin as [->|Hin]; [left; reflexivity|right; exact Hin].
  - intros p [<-|Hp]; apply Hall; [right; left; reflexivity|right; right; exact Hp].
Qed.

End BestOfNumbers.

Lemma lt_numbers (a b : value) (x y : Ord.xnum) :
  Ord.of_value a = Some x -> Ord.of_value b = Some y ->
  Ord.lt a b = Ok (Ord.num_ltb x y).
Proof. intros Ha Hb. unfold Ord.lt. rewrite Ha, Hb. reflexivity. Qed.

Lemma gt_numbers (a b : value) (x y : Ord.xnum) :
  Ord.of_value a = Some x -> Ord.of_value b = Some y ->
  Ord.gt a b = Ok (Ord.num_ltb y x).
Proof. intros Ha Hb. unfold Ord.gt. apply lt_numbers; assumption. Qed.

Lemma max_numbers (l : list value) :
  forallb is_num l = true -> l <> [] ->
  exists m, Ord.max (l, None) = Ok m /\ In m l
            /\ (forall p, In p l -> Ord.gt p m = Ok false).
Proof.
  apply (best_of_numbers Ord.gt (fun x y => Ord.num_ltb y x)).
  - exact gt_numbers.
  - exact num_ltb_irrefl.
  - intros x y z H1 H2. apply (num_ltb_trans z y x); assumption.
Qed.

Lemma min_numbers (l : list value) :
  forallb is_num l = true -> l <> [] ->
  exists m, Ord.min (l, None) = Ok m /\ In m l
            /\ (forall p, In p l -> Ord.lt p m = Ok false).
Proof.
  apply (best_of_numbers Ord.lt Ord.num_ltb).
  - exact lt_numbers.
  - exact num_ltb_irrefl.
  - exact num_ltb_trans.
Qed.

(** ** MAX and MIN *)

Lemma filter_nil_iff {A : Type} (p : A -> bool) (l : list A) :
  filter p l = [] <-> forall x, In x l -> p x = false.
Proof.
  induction l as [|a l IH]; simpl.
  - split; [intros _ x []|reflexivity].
  - destruct (p a) eqn:E.
    + split; [discriminate|]. intros H.
      rewrite (H a (or_introl eq_refl)) in E. discriminate.
    + rewrite IH. split.
      * intros H x [<-|Hx]; [exact E|apply H; exact Hx].
      * intros H x Hx. apply H. right. exact Hx.
Qed.

Lemma xmax_ranges (args : list value) :
  forallb cells_only args = true ->
  error_free args = true ->
  xmax args = Ord.max (filter is_numeric (flat_map Np.ravel args), None).
Proof.
  intros Hc He. unfold xmax.
  rewrite (raise_errors_error_free args Hc He). cbn [bind].
  rewrite (flatten_numbers_ranges args Hc). reflexivity.
Qed.

Lemma xmin_ranges (args : list value) :
  forallb cells_only args = true ->
  error_free args = true ->
  xmin args = Ord.min (filter is_numeric (flat_map Np.ravel args), None).
Proof.
  intros Hc He. unfold xmin.
  rewrite (raise_errors_error_free args Hc He). cbn [bind].
  rewrite (flatten_numbers_ranges args Hc). reflexivity.
Qed.

Lemma numbers_among (l : list value) :
  (forall v, In v l -> is_numeric v = true -> is_num v = true) ->
  forallb is_num (filter is_numeric l) = true.
Proof.
  intros H. apply forallb_forall. intros v Hv.
  apply filter_In in Hv as [Hin Hn]. apply H; assumption.
Qed.

(** X13: on ranges of cells without an error value, [xmax] and [xmin]
    only look at the leaves [float] accepts.  When none is left they end
    in the [ValueError] of [max] and [min] on an empty sequence.  When
    those leaves are numbers, [xmax] returns one of them that no other
    exceeds, and [xmin] one that no other is below, in the exact order
    of Python numbers. *)
Theorem xmax_xmin_spec (args : list value) :
  forallb cells_only args = true ->
  error_free args = true ->
  (filter is_numeric (flat_map Np.ravel args) = [] ->
   xmax args = Raise ValueError /\ xmin args = Raise ValueError)
  /\ (filter is_numeric (flat_map Np.ravel args) <> [] ->
      (forall v, In v (flat_map Np.ravel args) ->
                 is_numeric v = true -> is_num v = true) ->
      (exists m, xmax args = Ok m
                 /\ In m (flat_map Np.ravel args)
                 /\ is_num m = true
                 /\ forall v, In v (flat_map Np.ravel args) ->
                              is_numeric v = true ->
                              Ord.gt v m = Ok false)
      /\ (exists m, xmin args = Ok m
                    /\ In m (flat_map Np.ravel args)
                    /\ is_num m = true
                    /\ forall v, In v (flat_map Np.ravel args) ->
                                 is_numeric v = true ->
                                 Ord.lt v m = Ok false)).
Proof.
  intros Hc He.
  rewrite (xmax_ranges args Hc He), (xmin_ranges args Hc He).
  split.
  - intros ->. split; reflexivity.
  - intros Hne Hnum.
    pose proof (numbers_among _ Hnum) as Hall.
    split.
    + destruct (max_numbers _ Hall Hne) as [m [Hm [Hin Hbest]]].
      exists m. apply filter_In in Hin as [Hin Hn].
      split; [exact Hm|split; [exact Hin|split; [apply Hnum; assumption|]]].
      intros v Hv Hvn. apply Hbest. apply filter_In. split; assumption.
    + destruct (min_numbers _ Hall Hne) as [m [Hm [Hin Hbest]]].
      exists m. apply filter_In in Hin as [Hin Hn].
      split; [exact Hm|split; [exact Hin|split; [apply Hnum; assumption|]]].
      intros v Hv Hvn. apply Hbest. apply filter_In. split; assumption.
Qed.

Lemma xmax_xmin_spec_witness :
  (xmax [VArray [VStr "a"; VNone]] = Raise ValueError
   /\ xmin [VArray [VStr "a"; VNone]] = Raise ValueError)
  /\ (exists m,
        xmax [VArray [VInt 3; VStr "a"]; VArray [VFloat (F64.of_Z 7); VInt 5]]
        = Ok m
        /\ In m (flat_map Np.ravel
                   [VArray [VInt 3; VStr "a"];
                    VArray [VFloat (F64.of_Z 7); VInt 5]])
        /\ is_num m = true
        /\ forall v,
             In v (flat_map Np.ravel
                     [VArray [VInt 3; VStr "a"];
                      VArray [VFloat (F64.of_Z 7); VInt 5]]) ->
             is_numeric v = true -> Ord.gt v m = Ok false).
Proof.
  split.
  - apply (xmax_xmin_spec [VArray [VStr "a"; VNone]]); reflexivity.
  - apply (xmax_xmin_spec
             [VArray [VInt 3; VStr "a"];
              VArray [VFloat (F64.of_Z 7); VInt 5]]);
      try reflexivity; [discriminate|].
    intros v Hv. simpl in Hv.
    destruct Hv as [<-|[<-|[<-|[<-|[]]]]]; intros H;
      try reflexivity; discriminate.
Defined.

(** ** The fail-fast aggregates *)

Lemma first_error_in (l : list value) (e : XlError) :
  first_error l = Some e -> In (VErr e) l.
Proof.
  induction l as [|v l IH]; simpl; [discriminate|].
  destruct v; intros H; try (right; apply IH; exact H).
  inversion H. left. reflexivity.
Qed.

Lemma wrap_func_error_first (func : list value -> result value)
  (args : list value) (e : XlError) :
  forallb cells_only args = true ->
  first_error (flat_map Np.ravel args) = Some e ->
  (forall xs, func xs = (raise_errors [VTuple xs] ;;; func xs)) ->
  func args = Raise (FoundError e) /\ wrap_func func args = Ok (VErr e).
Proof.
  intros Hc He Hf.
  assert (Hraise : forall xs,
             forallb cells_only xs = true ->
             first_error (flat_map Np.ravel xs) = Some e ->
             func xs = Raise (FoundError e)).
  { intros xs Hxs Hexs. rewrite Hf, (raise_errors_ranges xs Hxs), Hexs.
    reflexivity. }
  split; [apply Hraise; assumption|].
  unfold wrap_func. rewrite Hraise; [reflexivity| |].
  - apply forallb_map_replace_empty;
      [exact cells_only_replace_empty|exact Hc].
  - rewrite (leaves_replace_empty args Hc), first_error_replace_empty.
    exact He.
Qed.

Lemma bind_again {A : Type} (r : result unit) (k : result A) :
  (r ;;; k) = (r ;;; (r ;;; k)).
Proof. destruct r as [[]|ex]; reflexivity. Qed.

(** X14: the four aggregates that call [raise_errors] stop at the first
    error value met in the walk of their ranges (arguments in order,
    each in row-major order): [xsum], [xmax], [xmin] and [xsumproduct]
    raise [FoundError] with that value before anything else is looked
    at, sizes included, and the registered functions return the value. *)
Theorem aggregates_fail_fast (np_sum : list float64 -> float64)
  (args : list value) (e : XlError) :
  forallb cells_only args = true ->
  first_error (flat_map Np.ravel args) = Some e ->
  In (VErr e) (flat_map Np.ravel args)
  /\ xsum args = Raise (FoundError e)
  /\ xmax args = Raise (FoundError e)
  /\ xmin args = Raise (FoundError e)
  /\ xsumproduct np_sum args = Raise (FoundError e)
  /\ SUM args = Ok (VErr e)
  /\ MAX args = Ok (VErr e)
  /\ MIN args = Ok (VErr e)
  /\ SUMPRODUCT np_sum args = Ok (VErr e).
Proof.
  intros Hc He.
  split; [apply first_error_in; exact He|].
  destruct (wrap_func_error_first xsum args e Hc He) as [H1 H1'];
    [intros xs; unfold xsum; apply bind_again|].
  destruct (wrap_func_error_first xmax args e Hc He) as [H2 H2'];
    [intros xs; unfold xmax; apply bind_again|].
  destruct (wrap_func_error_first xmin args e Hc He) as [H3 H3'];
    [intros xs; unfold xmin; apply bind_again|].
  destruct (wrap_func_error_first (xsumproduct np_sum) args e Hc He)
    as [H4 H4']; [intros xs; unfold xsumproduct; apply bind_again|].
  repeat split; assumption.
Qed.

Lemma aggregates_fail_fast_witness :
  In (VErr REF)
     (flat_map Np.ravel [VArray [VInt 1; VErr REF]; VArray [VErr NA]])
  /\ xsum [VArray [VInt 1; VErr REF]; VArray [VErr NA]]
     = Raise (FoundError REF)
  /\ xmax [VArray [VInt 1; VErr REF]; VArray [VErr NA]]
     = Raise (FoundError REF)
  /\ xmin [VArray [VInt 1; VErr REF]; VArray [VErr NA]]
     = Raise (FoundError REF)
  /\ xsumproduct Ref.sum [VArray [VInt 1; VErr REF]; VArray [VErr NA]]
     = Raise (FoundError REF)
  /\ SUM [VArray [VInt 1; VErr REF]; VArray [VErr NA]] = Ok (VErr REF)
  /\ MAX [VArray [VInt 1; VErr REF]; VArray [VErr NA]] = Ok (VErr REF)
  /\ MIN [VArray [VInt 1; VErr REF]; VArray [VErr NA]] = Ok (VErr REF)
  /\ SUMPRODUCT Ref.sum [VArray [VInt 1; VErr REF]; VArray [VErr NA]]
     = Ok (VErr REF).
Proof.
  apply (aggregates_fail_fast Ref.sum
           [VArray [VInt 1; VErr REF]; VArray [VErr NA]] REF);
    reflexivity.
Defined.

(** ** SUM and AVERAGE of integers *)

Lemma add_ints (acc : Z) (x : value) :
  is_int x = true -> Py.add (VInt acc) x = Ok (VInt (acc + int_of x)).
Proof. destruct x; simpl; intros H; try discriminate; reflexivity. Qed.

Lemma sum_from_ints (l : list value) :
  forall acc, forallb is_int l = true ->
  Py.sum_from (VInt acc) l = Ok (VInt (acc + int_total l)).
Proof.
  induction l as [|x l IH]; intros acc Hl; cbn [Py.sum_from].
  - unfold int_total. simpl. rewrite Z.add_0_r. reflexivity.
  - simpl in Hl. apply andb_true_iff in Hl as [Hx Hl].
    rewrite (add_ints acc x Hx). cbn [bind].
    rewrite (IH _ Hl). do 2 f_equal.
    unfold int_total. cbn [fold_right]. lia.
Qed.

Lemma int_of_not_numeric (v : value) :
  plain_cell v = true -> is_numeric v = false -> int_of v = 0.
Proof.
  unfold is_numeric.
  destruct v; simpl; intros Hc Hn; try reflexivity.
  - apply negb_true_iff in Hc.
    rewrite (int_to_float_in_range z Hc) in Hn. discriminate.
  - discriminate.
Qed.

Lemma int_total_numeric (l : list value) :
  forallb plain_cell l = true ->
  int_total (filter is_numeric l) = int_total l.
Proof.
  induction l as [|v l IH]; simpl; [reflexivity|].
  intros H. apply andb_true_iff in H as [Hv Hl].
  destruct (is_numeric v) eqn:E; simpl; rewrite (IH Hl); [reflexivity|].
  rewrite (int_of_not_numeric v Hv E). reflexivity.
Qed.

Lemma leaves_plain (args : list value) :
  forallb cells_only args = true ->
  forallb plain_cell (flat_map Np.ravel args) = true.
Proof.
  induction args as [|a args IH]; simpl; [reflexivity|].
  intros H. apply andb_true_iff in H as [Ha Hargs].
  rewrite forallb_app, (ravel_cells a Ha), (IH Hargs). reflexivity.
Qed.

Lemma sum_numeric_ints (l : list value) :
  forallb plain_cell l = true ->
  (forall v, In v l -> is_numeric v = true -> is_int v = true) ->
  Py.sum (filter is_numeric l) = Ok (VInt (int_total l)).
Proof.
  intros Hp Hint. unfold Py.sum.
  rewrite sum_from_ints.
  - rewrite (int_total_numeric l Hp). reflexivity.
  - apply forallb_forall. intros v Hv.
    apply filter_In in Hv as [Hin Hn]. apply Hint; assumption.
Qed.

Lemma int_total_replace_empty (l : list value) :
  int_total (map replace_empty l) = int_total l.
Proof.
  induction l as [|v l IH]; simpl; [reflexivity|].
  rewrite IH. f_equal. destruct v; reflexivity.
Qed.

(** X15: when the leaves [float] accepts in ranges without an error
    value are integers or booleans, [SUM] returns their exact integer
    sum: text that is not numeric, empty cells and [None] add nothing,
    and no rounding takes place however large the sum. *)
Theorem SUM_integers (args : list value) :
  forallb cells_only args = true ->
  error_free args = true ->
  (forall v, In v (flat_map Np.ravel args) ->
             is_numeric v = true -> is_int v = true) ->
  xsum args = Ok (VInt (int_total (flat_map Np.ravel args)))
  /\ SUM args = Ok (VInt (int_total (flat_map Np.ravel args))).
Proof.
  intros Hc He Hint.
  assert (Hx : forall xs,
             forallb cells_only xs = true ->
             error_free xs = true ->
             (forall v, In v (flat_map Np.ravel xs) ->
                        is_numeric v = true -> is_int v = true) ->
             xsum xs = Ok (VInt (int_total (flat_map Np.ravel xs)))).
  { intros xs Hxs Hexs Hixs.
    rewrite (xsum_ranges xs Hxs), (first_error_none _ Hexs).
    apply sum_numeric_ints; [apply leaves_plain; exact Hxs|exact Hixs]. }
  split; [apply Hx; assumption|].
  unfold SUM, wrap_func.
  rewrite Hx.
  - rewrite (leaves_replace_empty args Hc), int_total_replace_empty.
    reflexivity.
  - apply forallb_map_replace_empty;
      [exact cells_only_replace_empty|exact Hc].
  - rewrite (error_free_replace_empty args Hc). exact He.
  - rewrite (leaves_replace_empty args Hc). intros v' Hv'.
    apply in_map_iff in Hv' as [v [<- Hv]].
    pose proof (leaves_plain args Hc) as Hp.
    rewrite forallb_forall in Hp. specialize (Hp v Hv).
    destruct v; try discriminate Hp;
      try (apply (Hint _ Hv)); reflexivity.
Qed.

Lemma SUM_integers_witness :
  xsum [VArray [VInt (2 ^ 70); VStr "n/a"]; VArray [VBool true; VEmpty]]
  = Ok (VInt (2 ^ 70 + 1))
  /\ SUM [VArray [VInt (2 ^ 70); VStr "n/a"]; VArray [VBool true; VEmpty]]
     = Ok (VInt (2 ^ 70 + 1)).
Proof.
  apply (SUM_integers
           [VArray [VInt (2 ^ 70); VStr "n/a"]; VArray [VBool true; VEmpty]]);
    try reflexivity.
  intros v Hv. simpl in Hv.
  destruct Hv as [<-|[<-|[<-|[<-|[]]]]]; intros H;
    try reflexivity; discriminate.
Defined.

(** X16: [average] has no fail-fast check and divides by the number of
    leaves it kept.  On ranges of cells, error values or not: when no
    leaf is accepted by [float] it ends in [ZeroDivisionError]; when the
    accepted leaves are integers or booleans it returns their exact sum
    divided by their number, rounded once, error values and other text
    counting neither in the sum nor in the number. *)
Theorem average_integers (args : list value) :
  forallb cells_only args = true ->
  (filter is_numeric (flat_map Np.ravel args) = [] ->
   average args = Raise ZeroDivisionError)
  /\ ((forall v, In v (flat_map Np.ravel args) ->
                 is_numeric v = true -> is_int v = true) ->
      average args
      = Py.int_truediv
          (int_total (flat_map Np.ravel args))
          (Z.of_nat (List.length
                       (filter is_numeric (flat_map Np.ravel args))))).
Proof.
  intros Hc. rewrite (average_ranges args Hc). cbv zeta. split.
  - intros ->. reflexivity.
  - intros Hint.
    rewrite (sum_numeric_ints _ (leaves_plain args Hc) Hint).
    reflexivity.
Qed.

Lemma average_integers_witness :
  average [VArray [VStr "a"; VErr NA]] = Raise ZeroDivisionError
  /\ average [VArray [VInt 1; VErr DIV0]; VArray [VStr "a"; VInt 2]]
     = Ok (VFloat (F64.of_decimal false 15 (-1))).
Proof.
  split.
  - apply (proj1 (average_integers [VArray [VStr "a"; VErr NA]] eq_refl)).
    reflexivity.
  - apply (proj2 (average_integers
                    [VArray [VInt 1; VErr DIV0]; VArray [VStr "a"; VInt 2]]
                    eq_refl)).
    intros v Hv. simpl in Hv.
    destruct Hv as [<-|[<-|[<-|[<-|[]]]]]; intros H;
      try reflexivity; discriminate.
Defined.

(** ** SUMPRODUCT of two ranges *)

Lemma mul_comm (x y : float64) : F64.mul x y = F64.mul y x.
Proof.
  unfold F64.mul, SFmul.
  destruct x as [sx|sx| |sx mx ex], y as [sy|sy| |sy my ey];
    try reflexivity; try (rewrite xorb_comm; reflexivity).
  rewrite xorb_comm, Pos.mul_comm, Z.add_comm. reflexivity.
Qed.

Lemma SUMPRODUCT_ranges (np_sum : list float64 -> float64)
  (args : list value) :
  forallb cell_range args = true ->
  error_free args = true ->
  all_equal (map Np.size args) = true ->
  (forall a, In a args -> (0 < Np.size a)%nat) ->
  SUMPRODUCT np_sum args = Ok (VFloat (sum_of_products np_sum args)).
Proof.
  intros Hr He Heq Hpos.
  pose proof (forallb_cell_range args Hr) as Hc.
  unfold SUMPRODUCT, wrap_func.
  rewrite (xsumproduct_by_position np_sum (map replace_empty args)).
  - rewrite (sum_of_products_replace_empty np_sum args Hc). reflexivity.
  - apply forallb_map_replace_empty;
      [exact cell_range_replace_empty|exact Hr].
  - rewrite (error_free_replace_empty args Hc). exact He.
  - rewrite (sizes_replace_empty args Hc). exact Heq.
  - intros a' Hin. apply in_map_iff in Hin as [a [<- Ha]].
    rewrite size_replace_empty.
    + apply Hpos. exact Ha.
    + rewrite forallb_forall in Hc. apply Hc. exact Ha.
Qed.

(** X17: [SUMPRODUCT] of two non-empty ranges of the same size without
    an error value does not depend on their order: the products are
    taken position by position and multiplication of doubles is
    commutative. *)
Theorem SUMPRODUCT_symmetric (np_sum : list float64 -> float64)
  (a b : value) :
  cell_range a = true -> cell_range b = true ->
  error_free [a; b] = true ->
  Np.size a = Np.size b ->
  (0 < Np.size a)%nat ->
  SUMPRODUCT np_sum [a; b] = SUMPRODUCT np_sum [b; a].
Proof.
  intros Ha Hb He Hsize Hpos.
  assert (He' : error_free [b; a] = true).
  { unfold error_free in *. simpl in *.
    rewrite app_nil_r in *. rewrite forallb_app in *.
    rewrite andb_comm. exact He. }
  rewrite (SUMPRODUCT_ranges np_sum [a; b]), (SUMPRODUCT_ranges np_sum [b; a]).
  - unfold sum_of_products. rewrite Hsize. do 3 f_equal.
    apply map_ext. intros j. unfold product_at. cbn [fold_left].
    apply mul_comm.
  - simpl. rewrite Ha, Hb. reflexivity.
  - exact He'.
  - simpl. rewrite Hsize, Nat.eqb_refl. reflexivity.
  - intros x [<-|[<-|[]]]; lia.
  - simpl. rewrite Ha, Hb. reflexivity.
  - exact He.
  - simpl. rewrite Hsize, Nat.eqb_refl. reflexivity.
  - intros x [<-|[<-|[]]]; lia.
Qed.

Lemma SUMPRODUCT_symmetric_witness :
  SUMPRODUCT Ref.sum
    [VArray [VInt 2; VStr "x"; VInt 4]; VArray [VArray [VInt 5; VInt 6; VInt 7]]]
  = SUMPRODUCT Ref.sum
      [VArray [VArray [VInt 5; VInt 6; VInt 7]];
       VArray [VInt 2; VStr "x"; VInt 4]].
Proof.
  apply (SUMPRODUCT_symmetric Ref.sum
           (VArray [VInt 2; VStr "x"; VInt 4])
           (VArray [VArray [VInt 5; VInt 6; VInt 7]]));
    try reflexivity.
  vm_compute. lia.
Defined.

(** ** ISERR and ISERROR on any value *)

Lemma map_leaves_ext (f g : value -> value) (a : value) :
  (forall v, In v (Np.ravel a) -> f v = g v) ->
  map_leaves f a = map_leaves g a.
Proof.
  induction a using value_nested_ind; intros Hfg;
    try (apply Hfg; left; reflexivity).
  - change (VArray (map (map_leaves f) items)
            = VArray (map (map_leaves g) items)).
    f_equal. rewrite ravel_array in Hfg.
    induction H as [|x l Hx Hl IH]; [reflexivity|].
    simpl. rewrite Hx, IH; [reflexivity| |].
    + intros v Hv. apply Hfg. simpl. apply in_or_app. right. exact Hv.
    + intros v Hv. apply Hfg. simpl. apply in_or_app. left. exact Hv.
  - simpl. f_equal. apply Hfg. left. reflexivity.
Qed.

Lemma or_scalar_total (test : value -> bool) (val : value) :
  (forall l, val <> VTuple l) ->
  exists r, or_scalar test val = Ok r.
Proof.
  intros _. unfold or_scalar, over_array.
  destruct val; eexists; reflexivity.
Qed.

Lemma fold_common_prefix_nil (ss : list (list nat)) :
  fold_left Np.common_prefix ss [] = [].
Proof. induction ss as [|s ss IH]; [reflexivity|exact IH]. Qed.

(** A tuple of scalars in [[[val]]] is the last axis of an array of
    three dimensions. *)
Lemma asarray_tuple_of_scalars (items : list value) :
  forallb is_scalar items = true ->
  Np.asarray (VTuple [VTuple [VTuple items]])
  = VArray [VArray [VArray items]].
Proof.
  intros Hsc.
  assert (Hd : match map Np.discover items with
               | [] => []
               | s :: ss => fold_left Np.common_prefix ss s
               end = []).
  { destruct items as [|x items]; [reflexivity|].
    simpl in Hsc. apply andb_true_iff in Hsc as [Hx _].
    cbn [map].
    replace (Np.discover x) with (@nil nat)
      by (destruct x; try reflexivity; discriminate).
    apply fold_common_prefix_nil. }
  unfold Np.asarray.
  cbn [Np.discover map fold_left List.length]. rewrite Hd.
  cbn [List.length Nat.min Np.NPY_MAXDIMS Np.unpack map].
  rewrite map_id. reflexivity.
Qed.

Lemma or_scalar_tuple (test : value -> bool) (items : list value) :
  forallb is_scalar items = true ->
  or_scalar test (VTuple items)
  = Ok (VArray (map (fun v => VBool (test v)) items)).
Proof.
  intros Hsc. unfold or_scalar. cbn [over_array].
  rewrite (asarray_tuple_of_scalars items Hsc).
  cbn [over_array map_leaves map bind getitem nth_error].
  do 2 f_equal. apply map_ext_in. intros v Hv.
  rewrite forallb_forall in Hsc. specialize (Hsc v Hv).
  destruct v; try reflexivity; discriminate.
Qed.

(** X18: on a scalar or an array, [iserr] and [iserror] do not fail (a
    scalar is answered through a 1 x 1 array), and they return the same
    answer when no leaf is the not-available error value.  A tuple of
    cells is not answered as one value: numpy takes its items for a
    further axis, and the answer is an array with one answer per item. *)
Theorem iserr_iserror_agree (val : value) (items : list value) :
  ((forall l, val <> VTuple l) ->
   (exists r, iserr val = Ok r)
   /\ (exists r, iserror val = Ok r)
   /\ ((forall v, In v (Np.ravel val) -> v <> VErr NA) ->
       iserr val = iserror val))
  /\ (forallb plain_cell items = true ->
      iserr (VTuple items)
      = Ok (VArray (map (fun v => VBool (is_err_but_na v)) items))
      /\ iserror (VTuple items)
         = Ok (VArray (map (fun v => VBool (isinstance_XlError v)) items))).
Proof.
  split.
  - intros Hnt.
    split; [apply or_scalar_total; exact Hnt|].
    split; [apply or_scalar_total; exact Hnt|].
    intros Hna.
    assert (Hleaf : forall v, v <> VErr NA ->
                              is_err_but_na v = isinstance_XlError v).
    { intros v Hv. destruct v as [| | | |[]| | | | | |];
        try reflexivity. congruence. }
    unfold iserr, iserror, or_scalar, over_array.
    destruct val as [z|fl|b|s|e| | | |l|l|item]; try reflexivity.
    + destruct e; try reflexivity.
      exfalso. apply (Hna (VErr NA)); [left; reflexivity|reflexivity].
    + exfalso. apply (Hnt l). reflexivity.
    + f_equal. apply map_leaves_ext. intros v Hv.
      rewrite Hleaf; [reflexivity|]. apply Hna. exact Hv.
    + f_equal. apply map_leaves_ext. intros v Hv.
      rewrite Hleaf; [reflexivity|]. apply Hna. exact Hv.
  - intros Hc. pose proof (forallb_plain_scalar _ Hc) as Hsc.
    unfold iserr, iserror. rewrite !(or_scalar_tuple _ items Hsc).
    split; reflexivity.
Qed.

Lemma iserr_iserror_agree_witness :
  iserr (VArray [VArray [VErr DIV0; VInt 2]; VArray [VStr "x"; VErr NUM]])
  = iserror (VArray [VArray [VErr DIV0; VInt 2]; VArray [VStr "x"; VErr NUM]])
  /\ iserr (VTuple [VErr NA; VErr REF; VInt 1])
     = Ok (VArray [VBool false; VBool true; VBool false])
  /\ iserror (VTuple [VErr NA; VErr REF; VInt 1])
     = Ok (VArray [VBool true; VBool true; VBool false]).
Proof.
  split.
  - apply (proj1 (iserr_iserror_agree
                    (VArray [VArray [VErr DIV0; VInt 2];
                             VArray [VStr "x"; VErr NUM]]) [])).
    + intros l. discriminate.
    + intros v Hv. simpl in Hv.
      destruct Hv as [<-|[<-|[<-|[<-|[]]]]]; discriminate.
  - apply (proj2 (iserr_iserror_agree VNone [VErr NA; VErr REF; VInt 1])).
    reflexivity.
Defined.

(** ** INT *)

(** X19: [INT] of a double that is a number cuts the fraction off,
    towards zero: the result [n] has [|n| <= |x| < |n| + 1] in the exact
    order of Python numbers, and [INT(-x)] is [-INT(x)].  Not-a-number
    and the infinities are not turned into error values: [int] fails on
    them. *)
Theorem INT_truncates (s : bool) (m : positive) (e : Z) :
  (exists n,
      INT (VFloat (S754_finite s m e)) = Ok (VInt n)
      /\ INT (VFloat (S754_finite (negb s) m e)) = Ok (VInt (- n))
      /\ Ord.lt (VFloat (S754_finite false m e)) (VInt (Z.abs n))
         = Ok false
      /\ Ord.lt (VFloat (S754_finite false m e)) (VInt (Z.abs n + 1))
         = Ok true
      /\ (if s then n <= 0 else 0 <= n))
  /\ INT (VFloat S754_nan) = Raise ValueError
  /\ (forall neg, INT (VFloat (S754_infinity neg)) = Raise OverflowError).
Proof.
  split; [|split; [reflexivity|intros neg; reflexivity]].
  set (a := if 0 <=? e then Zpos m * 2 ^ e else Zpos m / 2 ^ (- e)).
  assert (Ha : 0 <= a).
  { unfold a. destruct (0 <=? e) eqn:E.
    - apply Z.leb_le in E. apply Z.mul_nonneg_nonneg; [lia|].
      apply Z.pow_nonneg. lia.
    - apply Z.div_pos; [lia|]. apply Z.pow_pos_nonneg; lia. }
  exists (if s then - a else a).
  assert (Habs : Z.abs (if s then - a else a) = a)
    by (destruct s; lia).
  rewrite Habs.
  assert (HI : forall s', INT (VFloat (S754_finite s' m e))
                          = Ok (VInt (if s' then - a else a)))
    by (intros []; reflexivity).
  split; [apply HI|].
  split; [rewrite HI; destruct s; cbn [negb]; f_equal; f_equal; lia|].
  assert (Hcmp : forall q,
             Ord.lt (VFloat (S754_finite false m e)) (VInt q)
             = Ok (Ord.scaled (Zpos m) e (Z.min e 0)
                   <? Ord.scaled q 0 (Z.min e 0))) by reflexivity.
  rewrite !Hcmp. unfold Ord.scaled, a.
  destruct (0 <=? e) eqn:E.
  - apply Z.leb_le in E. rewrite Z.min_r by lia.
    rewrite !Z.sub_0_r. change (2 ^ 0) with 1. rewrite !Z.mul_1_r.
    split; [f_equal; apply Z.ltb_ge; lia|].
    split; [f_equal; apply Z.ltb_lt; lia|].
    destruct s; lia.
  - apply Z.leb_gt in E. rewrite Z.min_l by lia.
    rewrite Z.sub_diag. change (2 ^ 0) with 1. rewrite Z.mul_1_r.
    replace (0 - e) with (- e) by lia.
    assert (Hd : 0 < 2 ^ (- e)) by (apply Z.pow_pos_nonneg; lia).
    pose proof (Z.mul_div_le (Zpos m) (2 ^ (- e)) Hd) as H1.
    pose proof (Z.mul_succ_div_gt (Zpos m) (2 ^ (- e)) Hd) as H2.
    split; [f_equal; apply Z.ltb_ge; lia|].
    split; [f_equal; apply Z.ltb_lt; lia|].
    fold a. destruct s; lia.
Qed.
